(** * language_tutor: the vocabulary store, the word matcher and the
      progress updater

    A shallow embedding of the tool layer of [apps/web/app/api]:
    - [chat/db.ts]: the schema of the single [words] table;
    - [tools/toolUtils.ts]: [normalizeWord] and [findWordInDatabase];
    - [tools/updateWordProgress.ts]: the batch progress update;
    - [tools/getRandomWords.ts]: the 50-word random sample;
    - [chat/oldSystemPrompt.ts]: [addNewWord], [removeWord] and the older
      copy of the matcher that these two use.

    Modelling conventions.
    - A string is a [string] of 8-bit characters.  The model is exact on
      ASCII text: [toLowerCase] and SQL [LOWER] agree there, and the
      JavaScript white space class is the six ASCII characters
      TAB, LF, VT, FF, CR and SPACE.  Characters above 127 are kept as they
      are (no case, not white space).
    - The table is a [list Word] in the order of a table scan, which is
      the order of insertion: [INSERT] appends, [UPDATE] and [DELETE] keep
      the order.  [.all()] is the whole scan and a statement's [.get()] is
      the first row, in the order in which the engine visits the rows,
      that satisfies its [WHERE] clause.  SQLite visits the rows in the
      order of the table scan, except for a query that reads the key
      column only: the first rule of the matcher,
      [SELECT english ... WHERE LOWER(TRIM(english)) = ...], is answered
      from the index of the primary key, whose rows come in ascending
      order of the key, compared byte by byte ([Sql.indexScan]).
    - [proficiency_level] is [option Z]: the column is nullable and every
      reader applies [?? 1].  A stored level is taken to be an integer
      that a JavaScript number holds exactly (every level the code writes
      is one); the sum and the difference computed by the updater are
      rounded as a number is ([Js.toNumber]), which changes nothing up to
      2^53.
    - The clock is an argument: [today] stands for [getTodayDate()]. *)

From Stdlib Require Import List Bool ZArith Lia.
From Stdlib Require Import Ascii String DecimalString.
From Stdlib Require Import Permutation Sorted.
Import ListNotations.

Local Open Scope string_scope.
Local Open Scope list_scope.

(** ** Rows of the [words] table (chat/db.ts, [initializeSchema]) *)

Record Word : Type := mkWord {
  english : string;                 (* TEXT PRIMARY KEY *)
  cantonese_jyutping : string;      (* TEXT NOT NULL *)
  last_practiced_date : string;     (* DATE NOT NULL *)
  proficiency_level : option Z      (* INTEGER DEFAULT 1 CHECK(>= 1) *)
}.

Definition Store : Type := list Word.

(** What a caller of a tool observes: a returned value or a thrown error. *)
Inductive Outcome (A : Type) : Type :=
| Returned : A -> Outcome A
| Thrown : string -> Outcome A.
Arguments Returned {A} _.
Arguments Thrown {A} _.

(** [x ?? d] on a nullable column. *)
Definition nullish (x : option Z) (d : Z) : Z :=
  match x with Some v => v | None => d end.

(** JavaScript truthiness of a string: only the empty string is falsy. *)
Definition truthy (s : string) : bool :=
  match s with EmptyString => false | String _ _ => true end.

(** ** JavaScript string primitives *)
Module Js.

(** The ASCII part of the class [\s] (also what [trim] strips). *)
Definition is_space (c : ascii) : bool :=
  let n := nat_of_ascii c in
  (Nat.leb 9 n && Nat.leb n 13) || Nat.eqb n 32.

Definition lower_char (c : ascii) : ascii :=
  let n := nat_of_ascii c in
  if Nat.leb 65 n && Nat.leb n 90 then ascii_of_nat (n + 32) else c.

(** [s.toLowerCase()] *)
Fixpoint toLowerCase (s : string) : string :=
  match s with
  | EmptyString => EmptyString
  | String c r => String (lower_char c) (toLowerCase r)
  end.

Fixpoint trimStart (s : string) : string :=
  match s with
  | EmptyString => EmptyString
  | String c r => if is_space c then trimStart r else s
  end.

Fixpoint trimEnd (s : string) : string :=
  match s with
  | EmptyString => EmptyString
  | String c r =>
      match trimEnd r with
      | EmptyString => if is_space c then EmptyString else String c EmptyString
      | t => String c t
      end
  end.

(** [s.trim()] *)
Definition trim (s : string) : string := trimEnd (trimStart s).

Definition slash : ascii := ascii_of_nat 47.
Definition blank : ascii := ascii_of_nat 32.

(** [s.replace(/\s*\/\s*/g, '/')].  The scan keeps the white space read
    since the last other character in [pending]: a slash discards it
    together with the white space that follows the slash ([after_slash]);
    any other character gives it back unchanged.  *)
Fixpoint tightenSlashes_from (after_slash : bool) (pending : string)
         (s : string) : string :=
  match s with
  | EmptyString => pending
  | String c r =>
      if is_space c then
        if after_slash then tightenSlashes_from true EmptyString r
        else tightenSlashes_from false (pending ++ String c EmptyString) r
      else if Ascii.eqb c slash then
        String slash (tightenSlashes_from true EmptyString r)
      else
        pending ++ String c (tightenSlashes_from false EmptyString r)
  end.

Definition tightenSlashes (s : string) : string :=
  tightenSlashes_from false EmptyString s.

(** [s.replace(/\s+/g, ' ')]: every maximal run of white space becomes
    one blank. *)
Fixpoint collapseSpaces_from (in_run : bool) (s : string) : string :=
  match s with
  | EmptyString => EmptyString
  | String c r =>
      if is_space c then
        if in_run then collapseSpaces_from true r
        else String blank (collapseSpaces_from true r)
      else String c (collapseSpaces_from false r)
  end.

Definition collapseSpaces (s : string) : string :=
  collapseSpaces_from false s.

(** [s.split('/')]: the pieces between slashes, at least one piece. *)
Fixpoint split_slash_from (cur : string) (s : string) : list string :=
  match s with
  | EmptyString => [cur]
  | String c r =>
      if Ascii.eqb c slash then cur :: split_slash_from EmptyString r
      else split_slash_from (cur ++ String c EmptyString) r
  end.

Definition split_slash (s : string) : list string :=
  split_slash_from EmptyString s.

(** Numbers are doubles.  [toNumber z] is the double nearest to the
    integer [z]: [z] itself when it has at most 53 significant bits,
    otherwise the bits below the 53rd are rounded off, a tie going to the
    even significand (integers from 2^1024 on, which round to infinity, are
    out of reach of the code). *)
Definition toNumber (z : Z) : Z :=
  let a := Z.abs z in
  let k := (Z.log2 a - 52)%Z in
  if (k <=? 0)%Z then z
  else
    let q := Z.shiftr a k in
    let r := (a - Z.shiftl q k)%Z in
    let half := Z.shiftl 1 (k - 1) in
    let q' := if (r <? half)%Z then q
              else if (half <? r)%Z then (q + 1)%Z
              else if Z.even q then q else (q + 1)%Z in
    (Z.sgn z * Z.shiftl q' k)%Z.

(** [a + b] and [a - b] on numbers that hold integers. *)
Definition plus (a b : Z) : Z := toNumber (a + b).
Definition minus (a b : Z) : Z := toNumber (a - b).

(** [Number.MAX_SAFE_INTEGER] *)
Definition MAX_SAFE_INTEGER : Z := (2 ^ 53 - 1)%Z.

End Js.

(** ** [ORDER BY] *)
Module SqlOrder.

(** Rows in ascending order of a sort key: [leb x y] says that [x] may
    come before [y].  Rows are inserted one by one, a row going before the
    first row it may precede. *)
Fixpoint insertRow {A : Type} (leb : A -> A -> bool) (x : A) (l : list A)
  : list A :=
  match l with
  | [] => [x]
  | y :: r => if leb x y then x :: l else y :: insertRow leb x r
  end.

Fixpoint orderBy {A : Type} (leb : A -> A -> bool) (l : list A) : list A :=
  match l with
  | [] => []
  | x :: r => insertRow leb x (orderBy leb r)
  end.

(** [ORDER BY key1 ASC, key2 ASC]: the second key decides between rows
    whose first keys are equal. *)
Definition thenBy {A : Type} (cmp1 : A -> A -> comparison)
           (leb2 : A -> A -> bool) (x y : A) : bool :=
  match cmp1 x y with
  | Lt => true
  | Gt => false
  | Eq => leb2 x y
  end.

(** Text columns are compared byte by byte. *)
Definition byDate (x y : Word) : comparison :=
  String.compare (last_practiced_date x) (last_practiced_date y).

(** [COALESCE(proficiency_level, 1)] *)
Definition level (w : Word) : Z := nullish (proficiency_level w) 1.

Definition byLevel (x y : Word) : comparison :=
  Z.compare (level x) (level y).

End SqlOrder.

(** ** SQL scalar functions and scans *)
Module Sql.

(** [LOWER(X)]: ASCII letters only. *)
Definition LOWER (s : string) : string := Js.toLowerCase s.

Definition is_blank (c : ascii) : bool := Nat.eqb (nat_of_ascii c) 32.

Fixpoint ltrim (s : string) : string :=
  match s with
  | EmptyString => EmptyString
  | String c r => if is_blank c then ltrim r else s
  end.

Fixpoint rtrim (s : string) : string :=
  match s with
  | EmptyString => EmptyString
  | String c r =>
      match rtrim r with
      | EmptyString => if is_blank c then EmptyString else String c EmptyString
      | t => String c t
      end
  end.

(** [TRIM(X)]: strips blanks (0x20) only, at both ends. *)
Definition TRIM (s : string) : string := rtrim (ltrim s).

(** [stmt.get()]: the first of the visited rows that satisfies the
    clause. *)
Definition get (where_ : Word -> bool) (rows : list Word) : option Word :=
  find where_ rows.

(** The rows as a scan of the index of the primary key visits them: in
    ascending order of the key, compared byte by byte. *)
Definition byKey (a b : Word) : bool := String.leb (english a) (english b).

Definition indexScan (db : Store) : list Word := SqlOrder.orderBy byKey db.

(** [WHERE english = ?] (binary comparison). *)
Definition english_is (key : string) (w : Word) : bool :=
  String.eqb (english w) key.

End Sql.

(** ** tools/toolUtils.ts *)
Module ToolUtils.

(** [normalizeWord]: the guard [!word] returns the empty string for the
    empty string; the type of the model excludes non-strings. *)
Definition normalizeWord (word : string) : string :=
  if negb (truthy word) then EmptyString
  else Js.trim (Js.collapseSpaces (Js.tightenSlashes
                 (Js.toLowerCase (Js.trim word)))).

(** Rule 1: [SELECT english FROM words WHERE LOWER(TRIM(english)) =
    LOWER(TRIM(?))]; the query reads the key only. *)
Definition exactEnglish (searchTerm : string) (w : Word) : bool :=
  String.eqb (Sql.LOWER (Sql.TRIM (english w)))
             (Sql.LOWER (Sql.TRIM searchTerm)).

(** Rule 2: [WHERE LOWER(TRIM(cantonese_jyutping)) = LOWER(TRIM(?))]. *)
Definition exactCantonese (searchTerm : string) (w : Word) : bool :=
  String.eqb (Sql.LOWER (Sql.TRIM (cantonese_jyutping w)))
             (Sql.LOWER (Sql.TRIM searchTerm)).

(** Rule 3, the two equality tests of the loop body. *)
Definition normalizedEqual (normalizedSearch : string) (w : Word) : bool :=
  String.eqb (normalizeWord (english w)) normalizedSearch
  || String.eqb (normalizeWord (cantonese_jyutping w)) normalizedSearch.

(** [normalizedCantonese.split('/').map(part => part.trim())] *)
Definition jyutpingParts (w : Word) : list string :=
  map Js.trim (Js.split_slash (normalizeWord (cantonese_jyutping w))).

(** Rule 4, the inner loop over the parts. *)
Definition partEqual (normalizedSearch : string) (w : Word) : bool :=
  existsb (fun part => String.eqb part normalizedSearch) (jyutpingParts w).

(** The loop [for (const word of allWords)]: the three tests are made on
    one row before the next row is looked at. *)
Fixpoint scan (normalizedSearch : string) (allWords : list Word)
  : option string :=
  match allWords with
  | [] => None
  | word :: rest =>
      if String.eqb (normalizeWord (english word)) normalizedSearch
      then Some (english word)
      else if String.eqb (normalizeWord (cantonese_jyutping word))
                         normalizedSearch
      then Some (english word)
      else if partEqual normalizedSearch word
      then Some (english word)
      else scan normalizedSearch rest
  end.

Definition findWordInDatabase (db : Store) (searchTerm : string)
  : option string :=
  if negb (truthy searchTerm) then None
  else
    let normalizedSearch := normalizeWord searchTerm in
    if negb (truthy normalizedSearch) then None
    else
      match Sql.get (exactEnglish searchTerm) (Sql.indexScan db) with
      | Some exactEnglishMatch => Some (english exactEnglishMatch)
      | None =>
          match Sql.get (exactCantonese searchTerm) db with
          | Some exactCantoneseMatch => Some (english exactCantoneseMatch)
          | None => scan normalizedSearch db
          end
      end.

End ToolUtils.

(** ** chat/oldSystemPrompt.ts: helpers, [addNewWord], [removeWord] *)
Module OldSystemPrompt.

(** The file's own [normalizeWord] (no guard). *)
Definition normalizeWord (word : string) : string :=
  Js.trim (Js.collapseSpaces (Js.tightenSlashes
            (Js.toLowerCase (Js.trim word)))).

Definition exactEnglish (searchTerm : string) (w : Word) : bool :=
  String.eqb (Sql.LOWER (Sql.TRIM (english w)))
             (Sql.LOWER (Sql.TRIM searchTerm)).

Definition exactCantonese (searchTerm : string) (w : Word) : bool :=
  String.eqb (Sql.LOWER (Sql.TRIM (cantonese_jyutping w)))
             (Sql.LOWER (Sql.TRIM searchTerm)).

(** The file's own matcher loop: two equality tests, no split on [/]. *)
Fixpoint scan (normalizedSearch : string) (allWords : list Word)
  : option string :=
  match allWords with
  | [] => None
  | word :: rest =>
      if String.eqb (normalizeWord (english word)) normalizedSearch
      then Some (english word)
      else if String.eqb (normalizeWord (cantonese_jyutping word))
                         normalizedSearch
      then Some (english word)
      else scan normalizedSearch rest
  end.

Definition findWordInDatabase (db : Store) (searchTerm : string)
  : option string :=
  let normalizedSearch := normalizeWord searchTerm in
  match Sql.get (exactEnglish searchTerm) (Sql.indexScan db) with
  | Some exactEnglishMatch => Some (english exactEnglishMatch)
  | None =>
      match Sql.get (exactCantonese searchTerm) db with
      | Some exactCantoneseMatch => Some (english exactCantoneseMatch)
      | None => scan normalizedSearch db
      end
  end.

Definition dq : string := String (ascii_of_nat 34) EmptyString.

(** [INSERT INTO words (...) VALUES (?, ?, ?, 1)]: the primary key is
    compared byte by byte; a present key raises
    [SQLITE_CONSTRAINT_PRIMARYKEY] and leaves the table as it was. *)
Inductive SqlError : Type := SQLITE_CONSTRAINT_PRIMARYKEY.

Definition insert (e c d : string) (db : Store) : SqlError + Store :=
  if existsb (Sql.english_is e) db then inl SQLITE_CONSTRAINT_PRIMARYKEY
  else inr (db ++ [mkWord e c d (Some 1%Z)]).

Record AddResult : Type := mkAddResult {
  add_success : bool;
  add_message : string;
  add_word : option Word
}.

(** [addNewWord.execute({english, cantonese_jyutping})]: both fields are
    strings ([z.string()]); the body makes no further test on them. *)
Definition addNewWord (today : string) (english_ cantonese_ : string)
           (db : Store) : Outcome AddResult * Store :=
  match insert english_ cantonese_ today db with
  | inr db' =>
      (Returned
         (mkAddResult true
            ("Word " ++ dq ++ english_ ++ dq ++ " (" ++ cantonese_
               ++ ") has been added to the vocabulary database.")
            (Some (mkWord english_ cantonese_ today (Some 1%Z)))),
       db')
  | inl SQLITE_CONSTRAINT_PRIMARYKEY =>
      (Returned
         (mkAddResult false
            ("Word " ++ dq ++ english_ ++ dq
               ++ " already exists in the database.")
            None),
       db)
  end.

Record RemoveResult : Type := mkRemoveResult {
  rm_success : bool;
  rm_message : string;
  rm_removedWord : option (string * string)
}.

(** [DELETE FROM words WHERE english = ?] *)
Definition delete (key : string) (db : Store) : Store :=
  filter (fun w => negb (Sql.english_is key w)) db.

(** [removeWord.execute({english})]: the test [!actualEnglish] holds when
    the matcher answers [null] and when it answers the empty key. *)
Definition removeWord (english_ : string) (db : Store)
  : Outcome RemoveResult * Store :=
  match findWordInDatabase db english_ with
  | None =>
      (Returned
         (mkRemoveResult false
            ("Word " ++ dq ++ english_ ++ dq
               ++ " not found in the database (searched as both English and Cantonese).")
            None),
       db)
  | Some actualEnglish =>
      if negb (truthy actualEnglish) then
        (Returned
           (mkRemoveResult false
              ("Word " ++ dq ++ english_ ++ dq
                 ++ " not found in the database (searched as both English and Cantonese).")
              None),
         db)
      else
      match Sql.get (Sql.english_is actualEnglish) db with
      | None =>
          (Returned
             (mkRemoveResult false
                ("Word " ++ dq ++ english_ ++ dq
                   ++ " found but couldn't retrieve word data.")
                None),
           db)
      | Some existingWord =>
          (Returned
             (mkRemoveResult true
                ("Word " ++ dq ++ english existingWord ++ dq ++ " ("
                   ++ cantonese_jyutping existingWord
                   ++ ") has been removed from your vocabulary database.")
                (Some (english existingWord,
                       cantonese_jyutping existingWord))),
           delete actualEnglish db)
      end
  end.

End OldSystemPrompt.

(** ** tools/updateWordProgress.ts *)
Module UpdateWordProgress.

Import ToolUtils.

(** One element of the [words] argument. *)
Record Entry : Type := mkEntry {
  e_english : option string;
  e_cantonese_jyutping : option string;
  e_success : bool
}.

Record UpdatedWord : Type := mkUpdatedWord {
  u_english : string;
  u_cantonese_jyutping : string;
  u_last_practiced_date : string;
  u_proficiency_level : Z
}.

Record FailedWord : Type := mkFailedWord {
  f_english : string;
  f_reason : string
}.

Record Result : Type := mkResult {
  success : bool;
  message : string;
  updatedWords : list UpdatedWord;
  failedWords : option (list FailedWord)   (* [undefined] when none failed *)
}.

Definition dq : string := String (ascii_of_nat 34) EmptyString.

Definition string_of_nat (n : nat) : string :=
  NilEmpty.string_of_uint (Nat.to_uint n).

(** [a || b] on optional strings: [a] when it is a non-empty string. *)
Definition or_else (a b : option string) : option string :=
  match a with
  | Some s => if truthy s then Some s else b
  | None => b
  end.

(** [const searchTerm = english || cantonese_jyutping], together with the
    test [!searchTerm]: [Some q] exactly when [q] is a non-empty string. *)
Definition searchTerm (e : Entry) : option string :=
  match or_else (e_english e) (e_cantonese_jyutping e) with
  | Some s => if truthy s then Some s else None
  | None => None
  end.

Definition typeof (x : option string) : string :=
  match x with Some _ => "string" | None => "undefined" end.

Definition invalidReason (e : Entry) : string :=
  "Invalid word provided: either english or cantonese_jyutping must be a non-empty string, got english="
    ++ typeof (e_english e) ++ ", cantonese_jyutping="
    ++ typeof (e_cantonese_jyutping e).

Definition notFoundReason (q : string) : string :=
  "Word not found in database. Searched for " ++ dq ++ q ++ dq
    ++ " (as both English and Cantonese) but no matching word found (tried fuzzy matching for variations like "
    ++ dq ++ "I/my" ++ dq ++ " vs " ++ dq ++ "I / my" ++ dq ++ ").".

Definition retrievalReason (q actualEnglish : string) : string :=
  "Word found but data retrieval failed. Matched " ++ dq ++ q ++ dq
    ++ " to " ++ dq ++ actualEnglish ++ dq
    ++ " but couldn't retrieve word data.".

(** [english || cantonese_jyutping || 'unknown'] of the [catch] block. *)
Definition errorSearchTerm (e : Entry) : string :=
  match or_else (e_english e) (e_cantonese_jyutping e) with
  | Some s => if truthy s then s else "unknown"
  | None => "unknown"
  end.

(** [success ? currentProficiency + 1 : Math.max(currentProficiency - 1, 1)] *)
Definition newProficiency (success_ : bool) (currentProficiency : Z) : Z :=
  if success_ then Js.plus currentProficiency 1
  else Z.max (Js.minus currentProficiency 1) 1.

Definition setProgress (today : string) (level : Z) (w : Word) : Word :=
  mkWord (english w) (cantonese_jyutping w) today (Some level).

Definition checkFailed : string :=
  "CHECK constraint failed: proficiency_level >= 1".

(** [updateStmt.run(today, newProficiency, actualEnglish)]: every row with
    that key gets the date and the level; the statement throws, changing
    nothing, when a row would break [CHECK(proficiency_level >= 1)]. *)
Definition bump (today : string) (level : Z) (key : string) (w : Word)
  : Word :=
  if Sql.english_is key w then setProgress today level w else w.

Definition runUpdate (today : string) (level : Z) (key : string)
           (db : Store) : string + Store :=
  if existsb (Sql.english_is key) db && (level <? 1)%Z then inl checkFailed
  else inr (map (bump today level key) db).

Definition LoopState : Type :=
  (Store * list UpdatedWord * list FailedWord)%type.

Definition st_db (st : LoopState) : Store := fst (fst st).
Definition st_updated (st : LoopState) : list UpdatedWord := snd (fst st).
Definition st_failed (st : LoopState) : list FailedWord := snd st.

Definition pushFailed (st : LoopState) (f : FailedWord) : LoopState :=
  (st_db st, st_updated st, st_failed st ++ [f]).

(** The body of [for (const {english, cantonese_jyutping, success} of
    words)], with its [try]/[catch]: each [continue] and the [catch]
    end the iteration with one more element in [failedWords].  The test
    [!actualEnglish] holds when the matcher answers [null] and when it
    answers the empty key. *)
Definition processEntry (today : string) (st : LoopState) (e : Entry)
  : LoopState :=
  match searchTerm e with
  | None => pushFailed st (mkFailedWord "undefined" (invalidReason e))
  | Some q =>
      match findWordInDatabase (st_db st) q with
      | None => pushFailed st (mkFailedWord q (notFoundReason q))
      | Some actualEnglish =>
          if negb (truthy actualEnglish)
          then pushFailed st (mkFailedWord q (notFoundReason q))
          else
          match Sql.get (Sql.english_is actualEnglish) (st_db st) with
          | None =>
              pushFailed st
                (mkFailedWord q (retrievalReason q actualEnglish))
          | Some currentWord =>
              let currentProficiency :=
                nullish (proficiency_level currentWord) 1 in
              let level := newProficiency (e_success e) currentProficiency in
              match runUpdate today level actualEnglish (st_db st) with
              | inl err =>
                  pushFailed st (mkFailedWord (errorSearchTerm e) err)
              | inr db' =>
                  match Sql.get (Sql.english_is actualEnglish) db' with
                  | None =>
                      ((db', st_updated st),
                       st_failed st ++
                         [mkFailedWord (errorSearchTerm e)
                            "Cannot read properties of undefined (reading 'english')"])
                  | Some updatedWord =>
                      ((db',
                        st_updated st ++
                          [mkUpdatedWord (english updatedWord)
                             (cantonese_jyutping updatedWord)
                             (last_practiced_date updatedWord)
                             (nullish (proficiency_level updatedWord) 1)]),
                       st_failed st)
                  end
              end
          end
      end
  end.

(** The whole loop, from empty [updatedWords] and [failedWords]. *)
Definition runLoop (today : string) (db : Store) (words : list Entry)
  : LoopState :=
  fold_left (processEntry today) words (db, [], []).

Definition summary (successCount failCount : nat) : string :=
  "Updated " ++ string_of_nat successCount ++ " word(s). "
    ++ (if Nat.ltb 0 failCount
        then string_of_nat failCount ++ " word(s) failed to update."
        else EmptyString).

(** [updateWordProgress.execute({words})] *)
Definition updateWordProgress (today : string) (words : list Entry)
           (db : Store) : Outcome Result * Store :=
  match words with
  | [] =>
      (Returned (mkResult false "No words provided to update." [] (Some [])),
       db)
  | _ =>
      let st := runLoop today db words in
      let successCount := List.length (st_updated st) in
      let failCount := List.length (st_failed st) in
      (Returned
         (mkResult (Nat.ltb 0 successCount)
            (summary successCount failCount)
            (st_updated st)
            (if Nat.ltb 0 failCount then Some (st_failed st) else None)),
       st_db st)
  end.

(** The failed entries of a result, [undefined] read as none. *)
Definition failedList (r : Result) : list FailedWord :=
  match failedWords r with Some l => l | None => [] end.

End UpdateWordProgress.

(** ** tools/getRandomWords.ts *)
Module GetRandomWords.

Record WordView : Type := mkWordView {
  v_english : string;
  v_cantonese_jyutping : string;
  v_last_practiced_date : string;
  v_proficiency_level : Z
}.

Record Result : Type := mkResult {
  words : list WordView;
  count : nat;
  message : string
}.

(** [ORDER BY RANDOM()]: the engine draws one number per row and sorts
    the rows by it.  [rnd i] is the number drawn for the [i]-th row of the
    scan, so the draws are an argument and every outcome is covered; the
    sort is an insertion sort on the numbers (SQL leaves the order of rows
    with equal numbers open). *)
Fixpoint insertByKey (x : Z * Word) (l : list (Z * Word))
  : list (Z * Word) :=
  match l with
  | [] => [x]
  | y :: r => if (fst x <? fst y)%Z then x :: l else y :: insertByKey x r
  end.

Fixpoint sortByKey (l : list (Z * Word)) : list (Z * Word) :=
  match l with
  | [] => []
  | x :: r => insertByKey x (sortByKey r)
  end.

Definition orderByRandom (rnd : nat -> Z) (db : Store) : list Word :=
  map snd (sortByKey (combine (map rnd (seq 0 (List.length db))) db)).

(** [... ORDER BY RANDOM() LIMIT 50] *)
Definition selectRandom50 (rnd : nat -> Z) (db : Store) : list Word :=
  firstn 50 (orderByRandom rnd db).

Definition view (w : Word) : WordView :=
  mkWordView (english w) (cantonese_jyutping w) (last_practiced_date w)
             (nullish (proficiency_level w) 1).

Definition string_of_nat (n : nat) : string :=
  NilEmpty.string_of_uint (Nat.to_uint n).

(** [getRandomWords.execute()] *)
Definition getRandomWords (rnd : nat -> Z) (db : Store) : Outcome Result :=
  let rows := selectRandom50 rnd db in
  Returned
    (mkResult (map view rows) (List.length rows)
       ("Retrieved " ++ string_of_nat (List.length rows)
          ++ " random words from the database.")).

End GetRandomWords.

(** ** Vocabulary of the statements *)

(** [names w]: the two columns the matcher reads. *)
Definition names (w : Word) : string * string :=
  (english w, cantonese_jyutping w).

(** A row passes one of the three tests of the matcher's loop. *)
Definition scanMatch (normalizedSearch : string) (w : Word) : bool :=
  ToolUtils.normalizedEqual normalizedSearch w
  || ToolUtils.partEqual normalizedSearch w.

(** A row passes one of the four rules of [ToolUtils.findWordInDatabase]. *)
Definition matchesAny (searchTerm : string) (w : Word) : bool :=
  ToolUtils.exactEnglish searchTerm w
  || ToolUtils.exactCantonese searchTerm w
  || scanMatch (ToolUtils.normalizeWord searchTerm) w.

(** A row passes one of the tests of [OldSystemPrompt.findWordInDatabase]. *)
Definition oldMatchesAny (searchTerm : string) (w : Word) : bool :=
  OldSystemPrompt.exactEnglish searchTerm w
  || OldSystemPrompt.exactCantonese searchTerm w
  || String.eqb (OldSystemPrompt.normalizeWord (english w))
                (OldSystemPrompt.normalizeWord searchTerm)
  || String.eqb (OldSystemPrompt.normalizeWord (cantonese_jyutping w))
                (OldSystemPrompt.normalizeWord searchTerm).

(** The constraint [CHECK(proficiency_level >= 1)]: [NULL] passes it. *)
Definition checkHolds (w : Word) : Prop :=
  match proficiency_level w with Some n => (1 <= n)%Z | None => True end.

(** A level that is present and at least 1. *)
Definition levelAtLeastOne (w : Word) : Prop :=
  exists n, proficiency_level w = Some n /\ (1 <= n)%Z.

(** The actions that write to the store, as one step. *)
Inductive step : Store -> Store -> Prop :=
| step_add : forall today e c db,
    step db (snd (OldSystemPrompt.addNewWord today e c db))
| step_update : forall today ws db,
    step db (snd (UpdateWordProgress.updateWordProgress today ws db))
| step_remove : forall q db,
    step db (snd (OldSystemPrompt.removeWord q db)).

(** The stores reachable from the empty table of [initializeSchema]. *)
Inductive reachable : Store -> Prop :=
| reachable_init : reachable []
| reachable_step : forall db db', reachable db -> step db db' -> reachable db'.

(** [n] failed practice attempts on the same query, one call each. *)
Fixpoint failRepeatedly (today : string) (q : string) (n : nat) (db : Store)
  : Store :=
  match n with
  | O => db
  | S m =>
      failRepeatedly today q m
        (snd (UpdateWordProgress.updateWordProgress today
                [UpdateWordProgress.mkEntry (Some q) None false] db))
  end.

(** A sequence of [addNewWord] calls, each with its date, key and
    translation. *)
Fixpoint addAll (calls : list (string * string * string)) (db : Store)
  : Store :=
  match calls with
  | [] => db
  | (today, e, c) :: rest =>
      addAll rest (snd (OldSystemPrompt.addNewWord today e c db))
  end.

(** Example rows. *)
Definition exam : Word :=
  mkWord "exam" "haau2 si5 / caak1 jim6" "2025-01-01" (Some 1%Z).
Definition test : Word :=
  mkWord "test" "caak1 jim6 / sat6 jim6" "2025-01-01" (Some 1%Z).
Definition homework : Word :=
  mkWord "homework" "gung1 fo3 / zaap6 fo3" "2025-01-01" (Some 1%Z).
Definition exerciseBook : Word :=
  mkWord "exercise book" "zaap6  fo3" "2025-01-01" (Some 1%Z).
Definition stationery : Word :=
  mkWord "stationery shop" "sik6 coeng2 / zaap6 fo3 pou3" "2025-01-01"
         (Some 3%Z).
Definition cat : Word := mkWord "cat" "maau1" "2025-01-01" (Some 1%Z).

(** ** tools/getLeastProficentWord.ts *)
Module GetLeastProficientWord.

Record Result : Type := mkResult {
  word : option GetRandomWords.WordView;   (* [null] on an empty table *)
  message : option string
}.

(** [ORDER BY COALESCE(proficiency_level, 1) ASC, last_practiced_date ASC] *)
Definition leastFirst (x y : Word) : bool :=
  SqlOrder.thenBy SqlOrder.byLevel
    (fun a b => String.leb (last_practiced_date a) (last_practiced_date b))
    x y.

(** [... LIMIT 1] with [stmt.get()] *)
Definition selectLeast (db : Store) : option Word :=
  match SqlOrder.orderBy leastFirst db with
  | [] => None
  | w :: _ => Some w
  end.

(** [getLeastProficientWord.execute()] *)
Definition getLeastProficientWord (db : Store) : Outcome Result :=
  match selectLeast db with
  | None => Returned (mkResult None (Some "No words found in database."))
  | Some w => Returned (mkResult (Some (GetRandomWords.view w)) None)
  end.

End GetLeastProficientWord.

(** ** chat/oldSystemPrompt.ts: the read actions and the older updater *)
Module OldTools.

Inductive Mode : Type := srs_review | general_review.

Record PracticeResult : Type := mkPracticeResult {
  p_words : list GetRandomWords.WordView;
  p_count : nat;
  p_mode : Mode
}.

(** [ORDER BY last_practiced_date ASC, RANDOM()] on rows paired with the
    number drawn for them. *)
Definition dateThenRandom (x y : Z * Word) : bool :=
  SqlOrder.thenBy (fun a b => SqlOrder.byDate (snd a) (snd b))
    (fun a b => (fst a <=? fst b)%Z) x y.

Definition selectGeneral (rnd : nat -> Z) (db : Store) : list Word :=
  map snd
    (SqlOrder.orderBy dateThenRandom
       (combine (map rnd (seq 0 (List.length db))) db)).

Section DateFunction.

(** The SQL function [date(X)]: the date of [X] as [YYYY-MM-DD] text, or
    [NULL] when [X] is not a time value.  It belongs to the engine and is
    taken as given. *)
Variable sqlDate : string -> option string.

(** [WHERE date(last_practiced_date) <= date(?)]: a comparison with
    [NULL] is not true. *)
Definition due (today : string) (w : Word) : bool :=
  match sqlDate (last_practiced_date w), sqlDate today with
  | Some d, Some t => String.leb d t
  | _, _ => false
  end.

(** [... WHERE ... ORDER BY last_practiced_date ASC] *)
Definition selectDue (today : string) (db : Store) : list Word :=
  SqlOrder.orderBy
    (fun a b => String.leb (last_practiced_date a) (last_practiced_date b))
    (filter (due today) db).

(** [getWordsForPractice.execute({mode = 'general_review'})] *)
Definition getWordsForPractice (rnd : nat -> Z) (today : string)
           (mode : Mode) (db : Store) : Outcome PracticeResult :=
  let words :=
    match mode with
    | general_review => selectGeneral rnd db
    | srs_review => selectDue today db
    end in
  Returned (mkPracticeResult (map GetRandomWords.view words)
                             (List.length words) mode).

End DateFunction.

(** [getAllWordsCSV.execute()]: [ORDER BY english ASC], one line
    [english, jyutping] per row, joined by line feeds. *)
Definition newline : string := String (ascii_of_nat 10) EmptyString.

Definition csvLine (w : Word) : string :=
  english w ++ ", " ++ cantonese_jyutping w.

Definition keyLeb (a b : Word) : bool := String.leb (english a) (english b).

Definition selectByEnglish (db : Store) : list Word :=
  SqlOrder.orderBy keyLeb db.

Definition getAllWordsCSV (db : Store) : string :=
  String.concat newline (map csvLine (selectByEnglish db)).

Record LowestResult : Type := mkLowestResult {
  l_words : list GetRandomWords.WordView;
  l_count : nat;
  l_min_proficiency_level : option Z
}.

(** [Math.min(...levels)] of a non-empty list, given its first element. *)
Definition mathMin (first : Z) (others : list Z) : Z :=
  fold_left Z.min others first.

(** [getWordsWithLowestProficiency.execute()] *)
Definition getWordsWithLowestProficiency (db : Store)
  : Outcome LowestResult :=
  let words := SqlOrder.orderBy GetLeastProficientWord.leastFirst db in
  let minProficiency :=
    match map SqlOrder.level words with
    | [] => None
    | first :: others => Some (mathMin first others)
    end in
  let lowestProficiencyWords :=
    filter (fun w => match minProficiency with
                     | Some m => (SqlOrder.level w =? m)%Z
                     | None => false
                     end) words in
  Returned (mkLowestResult (map GetRandomWords.view lowestProficiencyWords)
                           (List.length lowestProficiencyWords)
                           minProficiency).

End OldTools.

(** ** chat/oldSystemPrompt.ts: the older [updateWordProgress] *)
Module OldUpdater.

Import UpdateWordProgress.

(** One element of the [words] argument: [english] is required there. *)
Record Entry : Type := mkEntry {
  e_english : string;
  e_success : bool
}.

(** The body of [for (const { english, success } of words)]: the file's
    own matcher, no test of the query text, the same test [!actualEnglish],
    and the query text itself in the [catch] block. *)
Definition processEntry (today : string) (st : LoopState) (e : Entry)
  : LoopState :=
  let q := e_english e in
  match OldSystemPrompt.findWordInDatabase (st_db st) q with
  | None => pushFailed st (mkFailedWord q (notFoundReason q))
  | Some actualEnglish =>
      if negb (truthy actualEnglish)
      then pushFailed st (mkFailedWord q (notFoundReason q))
      else
      match Sql.get (Sql.english_is actualEnglish) (st_db st) with
      | None =>
          pushFailed st (mkFailedWord q (retrievalReason q actualEnglish))
      | Some currentWord =>
          let currentProficiency :=
            nullish (proficiency_level currentWord) 1 in
          let level := newProficiency (e_success e) currentProficiency in
          match runUpdate today level actualEnglish (st_db st) with
          | inl err => pushFailed st (mkFailedWord q err)
          | inr db' =>
              match Sql.get (Sql.english_is actualEnglish) db' with
              | None =>
                  ((db', st_updated st),
                   st_failed st ++
                     [mkFailedWord q
                        "Cannot read properties of undefined (reading 'english')"])
              | Some updatedWord =>
                  ((db',
                    st_updated st ++
                      [mkUpdatedWord (english updatedWord)
                         (cantonese_jyutping updatedWord)
                         (last_practiced_date updatedWord)
                         (nullish (proficiency_level updatedWord) 1)]),
                   st_failed st)
              end
          end
      end
  end.

Definition updateWordProgress (today : string) (words : list Entry)
           (db : Store) : Outcome Result * Store :=
  match words with
  | [] =>
      (Returned (mkResult false "No words provided to update." [] (Some [])),
       db)
  | _ =>
      let st := fold_left (processEntry today) words (db, [], []) in
      let successCount := List.length (st_updated st) in
      let failCount := List.length (st_failed st) in
      (Returned
         (mkResult (Nat.ltb 0 successCount)
            (summary successCount failCount)
            (st_updated st)
            (if Nat.ltb 0 failCount then Some (st_failed st) else None)),
       st_db st)
  end.

(** The same entry in the shape of [tools/updateWordProgress.ts]. *)
Definition asNewEntry (e : Entry) : UpdateWordProgress.Entry :=
  UpdateWordProgress.mkEntry (Some (e_english e)) None (e_success e).

End OldUpdater.

(** ** scripts: the CSV reader shared by [seed-db-from-csv.ts] and
       [add-new-words.ts], the two loaders, and the CSV writer *)
Module Scripts.

Definition quoteChar : ascii := ascii_of_nat 34.
Definition comma : ascii := ascii_of_nat 44.
Definition lineFeed : ascii := ascii_of_nat 10.

Definition addChar (s : string) (c : ascii) : string :=
  s ++ String c EmptyString.

(** [parseCSVLine(line)]: the loop over the characters with its three
    variables; an escaped quote consumes the character after it. *)
Fixpoint parseCSVLine_from (result : list string) (current : string)
         (inQuotes : bool) (line : string) : list string :=
  match line with
  | EmptyString => result ++ [Js.trim current]
  | String char rest =>
      if Ascii.eqb char quoteChar then
        match rest with
        | String nextChar rest' =>
            if inQuotes && Ascii.eqb nextChar quoteChar
            then parseCSVLine_from result (addChar current quoteChar)
                                   inQuotes rest'
            else parseCSVLine_from result current (negb inQuotes) rest
        | EmptyString =>
            parseCSVLine_from result current (negb inQuotes) rest
        end
      else if Ascii.eqb char comma && negb inQuotes then
        parseCSVLine_from (result ++ [Js.trim current]) EmptyString
                          inQuotes rest
      else parseCSVLine_from result (addChar current char) inQuotes rest
  end.

Definition parseCSVLine (line : string) : list string :=
  parseCSVLine_from [] EmptyString false line.

(** [s.split('\n')] *)
Fixpoint splitLines_from (cur : string) (s : string) : list string :=
  match s with
  | EmptyString => [cur]
  | String c r =>
      if Ascii.eqb c lineFeed then cur :: splitLines_from EmptyString r
      else splitLines_from (addChar cur c) r
  end.

Definition splitLines (s : string) : list string :=
  splitLines_from EmptyString s.

(** [!x] for a field that may be missing. *)
Definition present (x : option string) : option string :=
  match x with
  | Some s => if truthy s then Some s else None
  | None => None
  end.

(** *** seed-db-from-csv.ts *)

Record SeedState : Type := mkSeedState {
  seed_db : Store;
  addedWords : nat;
  skippedWords : nat
}.

(** The body of the loop over [dataLines]. *)
Definition seedLine (today : string) (st : SeedState) (line : string)
  : SeedState :=
  if negb (truthy line) then st
  else
    let fields := parseCSVLine line in
    match present (nth_error fields 0), present (nth_error fields 1) with
    | Some english_, Some cantonese_ =>
        match OldSystemPrompt.insert english_ cantonese_ today (seed_db st)
        with
        | inr db' => mkSeedState db' (S (addedWords st)) (skippedWords st)
        | inl OldSystemPrompt.SQLITE_CONSTRAINT_PRIMARYKEY =>
            mkSeedState (seed_db st) (addedWords st) (S (skippedWords st))
        end
    | _, _ => mkSeedState (seed_db st) (addedWords st) (S (skippedWords st))
    end.

(** [seedDatabaseFromCSV()] on the text of the file: the table is dropped
    and created again, so the result does not depend on the old table;
    [None] is [process.exit(1)] on a file without lines. *)
Definition seedDatabaseFromCSV (today : string) (csvContent : string)
  : option SeedState :=
  let lines :=
    filter (fun line => truthy (Js.trim line)) (splitLines csvContent) in
  match lines with
  | [] => None
  | _header :: dataLines =>
      Some (fold_left (seedLine today) dataLines (mkSeedState [] 0 0))
  end.

(** *** add-new-words.ts *)

Record Columns : Type := mkColumns {
  englishIndex : option nat;      (* [-1] is [None] *)
  jyutpingIndex : option nat;
  hasHeader : bool
}.

(** The loop over [headerFields] that looks for the column names. *)
Fixpoint findColumns (i : nat) (headerFields : list string) (c : Columns)
  : Columns :=
  match headerFields with
  | [] => c
  | f :: rest =>
      let field := Js.toLowerCase f in
      let c1 :=
        if String.eqb field "english" || String.eqb field "english,jyutping"
        then mkColumns (Some i) (jyutpingIndex c) true else c in
      let c2 :=
        if String.eqb field "jyutping"
           || String.eqb field "cantonese_jyutping"
        then mkColumns (englishIndex c1) (Some i) true else c1 in
      findColumns (S i) rest c2
  end.

(** The columns to read, or [None] for [process.exit(1)]. *)
Definition detectColumns (headerFields : list string)
  : option (nat * nat * bool) :=
  let c := findColumns 0 headerFields (mkColumns None None false) in
  match englishIndex c, jyutpingIndex c with
  | Some e, Some j => Some (e, j, hasHeader c)
  | _, _ =>
      if Nat.leb 2 (List.length headerFields)
      then Some (0, 1, hasHeader c)
      else None
  end.

Definition Skipped : Type := (string * string)%type.

(** [fields[index]?.trim()] *)
Definition fieldAt (fields : list string) (index : nat) : option string :=
  option_map Js.trim (nth_error fields index).

(** The body of the loop that collects [newWords]. *)
Definition collectLine (existingEnglishSet : list string)
           (englishIdx jyutpingIdx : nat)
           (st : list (string * string) * list Skipped) (line : string)
  : list (string * string) * list Skipped :=
  let (newWords, skipped) := st in
  if negb (truthy line) then st
  else
    let fields := parseCSVLine line in
    if Nat.ltb (List.length fields) 2 then
      (newWords, skipped ++ [(line, "Invalid format (less than 2 fields)")])
    else
      match present (fieldAt fields englishIdx),
            present (fieldAt fields jyutpingIdx) with
      | Some english_, Some jyutping =>
          if existsb (String.eqb (Js.toLowerCase english_))
                     existingEnglishSet
          then (newWords,
                skipped ++ [(english_, "Already exists in database")])
          else (newWords ++ [(english_, jyutping)], skipped)
      | e, _ =>
          (newWords,
           skipped ++ [(match e with Some s => s | None => line end,
                        "Missing english or jyutping")])
      end.

Record AddState : Type := mkAddState {
  add_db : Store;
  addedCount : nat;
  add_skipped : list Skipped
}.

(** The body of the loop that inserts [newWords]. *)
Definition insertWord (today : string) (st : AddState)
           (word : string * string) : AddState :=
  match OldSystemPrompt.insert (fst word) (snd word) today (add_db st) with
  | inr db' => mkAddState db' (S (addedCount st)) (add_skipped st)
  | inl OldSystemPrompt.SQLITE_CONSTRAINT_PRIMARYKEY =>
      mkAddState (add_db st) (addedCount st)
        (add_skipped st ++ [(fst word, "Duplicate key (race condition?)")])
  end.

(** [main()] of [add-new-words.ts] on the text of the file and the
    table; [None] is [process.exit(1)]. *)
Definition addNewWords (today : string) (csvContent : string) (db : Store)
  : option AddState :=
  let lines :=
    filter (fun line => Nat.ltb 0 (String.length line))
           (map Js.trim (splitLines csvContent)) in
  match lines with
  | [] => None
  | first :: _ =>
      match detectColumns (parseCSVLine first) with
      | None => None
      | Some (englishIdx, jyutpingIdx, header) =>
          let existingEnglishSet :=
            map (fun w => Js.trim (Js.toLowerCase (english w))) db in
          let dataLines := if header then tl lines else lines in
          let (newWords, skipped) :=
            fold_left (collectLine existingEnglishSet englishIdx jyutpingIdx)
                      dataLines ([], []) in
          Some (fold_left (insertWord today) newWords
                          (mkAddState db 0 skipped))
      end
  end.

(** *** the script that writes [words.csv] from the card decks *)

Record Card : Type := mkCard {
  frontText : option string;
  backText : option string
}.

(** [text.replace] with the global pattern of one double quote: every
    double quote is written twice. *)
Fixpoint doubleQuotes (text : string) : string :=
  match text with
  | EmptyString => EmptyString
  | String c r =>
      if Ascii.eqb c quoteChar
      then String quoteChar (String quoteChar (doubleQuotes r))
      else String c (doubleQuotes r)
  end.

(** [text.includes(c)] for a character. *)
Fixpoint includes (c : ascii) (text : string) : bool :=
  match text with
  | EmptyString => false
  | String x r => Ascii.eqb x c || includes c r
  end.

Definition escapeCSV (text : string) : string :=
  if includes comma text || includes quoteChar text
     || includes lineFeed text
  then String quoteChar (doubleQuotes text ++ String quoteChar EmptyString)
  else text.

(** The rows pushed for the cards of one deck. *)
Definition cardRow (card : Card) : option string :=
  match present (option_map Js.trim (frontText card)),
        present (option_map Js.trim (backText card)) with
  | Some english_, Some cantonese_ =>
      Some (escapeCSV english_ ++ String comma (escapeCSV cantonese_))%string
  | _, _ => None
  end.

Fixpoint cardRows (cards : list Card) : list string :=
  match cards with
  | [] => []
  | card :: rest =>
      match cardRow card with
      | Some row => row :: cardRows rest
      | None => cardRows rest
      end
  end.

(** [extractToCSV()] on the decks read from the files; a deck without a
    [cards] array is [None] and is skipped. *)
Definition extractToCSV (decks : list (option (list Card))) : string :=
  String.concat (String lineFeed EmptyString)
    ("english,cantonese_jyutping"
       :: flat_map (fun deck => match deck with
                                | Some cards => cardRows cards
                                | None => []
                                end) decks).

(** *** the script that sets every date to today *)
Definition updateAllDates (today : string) (db : Store) : Store :=
  map (fun w => mkWord (english w) (cantonese_jyutping w) today
                       (proficiency_level w)) db.

End Scripts.

(** The key an entry of a batch resolves to on a table, if any. *)
Definition resolution (db : Store) (e : UpdateWordProgress.Entry)
  : option string :=
  match UpdateWordProgress.searchTerm e with
  | Some q => ToolUtils.findWordInDatabase db q
  | None => None
  end.

(** The key whose row an entry of a batch updates, if any: the matcher's
    answer unless it is the empty key, which the loop takes for no
    answer. *)
Definition updatedKey (db : Store) (e : UpdateWordProgress.Entry)
  : option string :=
  match resolution db e with
  | Some k => if truthy k then Some k else None
  | None => None
  end.

(** What the write actions keep true of a row: its level is a number from
    1 to 2^53, and it is 1 for a row stored under the empty key, which no
    update reaches. *)
Definition wellKept (w : Word) : Prop :=
  exists n, proficiency_level w = Some n
            /\ (1 <= n <= 2 ^ 53)%Z
            /\ (english w = EmptyString -> n = 1%Z).

(** A row as the two loaders create it. *)
Definition loaded (today : string) (w : Word) : Prop :=
  proficiency_level w = Some 1%Z
  /\ last_practiced_date w = today
  /\ english w <> EmptyString
  /\ cantonese_jyutping w <> EmptyString.

(** No stored row is matched by a part of its translation alone. *)
Definition noPartOnly (q : string) (db : Store) : Prop :=
  forall w, In w db ->
    ToolUtils.partEqual (ToolUtils.normalizeWord q) w = true ->
    ToolUtils.normalizedEqual (ToolUtils.normalizeWord q) w = true.

(** The pairs of trimmed front and back texts of the cards the CSV
    writer keeps, in order. *)
Fixpoint cardPairs (cards : list Scripts.Card) : list (string * string) :=
  match cards with
  | [] => []
  | card :: rest =>
      match Scripts.present (option_map Js.trim (Scripts.frontText card)),
            Scripts.present (option_map Js.trim (Scripts.backText card)) with
      | Some e, Some c => (e, c) :: cardPairs rest
      | _, _ => cardPairs rest
      end
  end.

Definition deckPairs (decks : list (option (list Scripts.Card)))
  : list (string * string) :=
  flat_map (fun deck => match deck with
                        | Some cards => cardPairs cards
                        | None => []
                        end) decks.

(** The line the CSV writer makes of a pair of fields. *)
Definition rowOf (p : string * string) : string :=
  (Scripts.escapeCSV (fst p)
     ++ String Scripts.comma (Scripts.escapeCSV (snd p)))%string.

(** A field that is trimmed and not empty. *)
Definition trimmedField (s : string) : Prop :=
  Js.trim s = s /\ s <> EmptyString.

(** A string whose first character is not white space. *)
Definition startsSolid (s : string) : bool :=
  match s with
  | EmptyString => false
  | String c _ => negb (Js.is_space c)
  end.

(** Shapes of normalized text.  [collapsed]: white space occurs only as
    single blanks ([after_space] says the previous character was white
    space).  [tight]: no white space next to a slash ([prev] is the kind of
    the previous character). *)
Fixpoint collapsed (after_space : bool) (s : string) : bool :=
  match s with
  | EmptyString => true
  | String c r =>
      if Js.is_space c
      then negb after_space && Ascii.eqb c Js.blank && collapsed true r
      else collapsed false r
  end.

Inductive Prev : Type := PrevOther | PrevSlash | PrevSpace.

Fixpoint tight (prev : Prev) (s : string) : bool :=
  match s with
  | EmptyString => true
  | String c r =>
      if Js.is_space c
      then match prev with PrevSlash => false | _ => tight PrevSpace r end
      else if Ascii.eqb c Js.slash
      then match prev with PrevSpace => false | _ => tight PrevSlash r end
      else tight PrevOther r
  end.

(** A string of white space only. *)
Definition allSpace (p : string) : Prop :=
  forall c, In c (list_ascii_of_string p) -> Js.is_space c = true.

(** The kind of the last character when the white space [p] was read
    after it. *)
Definition prevOf (p : string) : Prev :=
  match p with EmptyString => PrevOther | String _ _ => PrevSpace end.

(** The state of [collapseSpaces_from] that goes with a previous
    character. *)
Definition inRun (prev : Prev) : bool :=
  match prev with PrevSpace => true | _ => false end.

(** * Properties *)

(** ** Trimming and lower-casing *)
Section Strings.

Lemma blank_is_space (c : ascii) :
  Sql.is_blank c = true -> Js.is_space c = true.
Proof.
  unfold Sql.is_blank, Js.is_space. intros H. rewrite H.
  apply orb_true_r.
Qed.

Lemma is_space_lower_char (c : ascii) :
  Js.is_space (Js.lower_char c) = Js.is_space c.
Proof.
  destruct c as [[] [] [] [] [] [] [] []]; reflexivity.
Qed.

Lemma trimStart_ltrim (s : string) :
  Js.trimStart (Sql.ltrim s) = Js.trimStart s.
Proof.
  induction s as [|c r IH]; simpl; [reflexivity|].
  destruct (Sql.is_blank c) eqn:E.
  - rewrite (blank_is_space c E). exact IH.
  - reflexivity.
Qed.

Lemma trimEnd_cons (c : ascii) (s : string) :
  Js.is_space c = false -> Js.trimEnd (String c s) = String c (Js.trimEnd s).
Proof.
  intros H. simpl. rewrite H. destruct (Js.trimEnd s); reflexivity.
Qed.

Lemma rtrim_cons (c : ascii) (s : string) :
  Sql.is_blank c = false -> Sql.rtrim (String c s) = String c (Sql.rtrim s).
Proof.
  intros H. simpl. rewrite H. destruct (Sql.rtrim s); reflexivity.
Qed.

Lemma trimEnd_rtrim (s : string) : Js.trimEnd (Sql.rtrim s) = Js.trimEnd s.
Proof.
  induction s as [|c r IH]; [reflexivity|].
  cbn [Sql.rtrim]. destruct (Sql.rtrim r) as [|c' t] eqn:E.
  - simpl in IH. cbn [Js.trimEnd]. rewrite <- IH.
    destruct (Sql.is_blank c) eqn:B.
    + rewrite (blank_is_space c B). reflexivity.
    + simpl. reflexivity.
  - cbn [Js.trimEnd] in *. rewrite IH. reflexivity.
Qed.

Lemma trim_rtrim (s : string) : Js.trim (Sql.rtrim s) = Js.trim s.
Proof.
  unfold Js.trim. induction s as [|c r IH]; [reflexivity|].
  destruct (Js.is_space c) eqn:S.
  - cbn [Sql.rtrim Js.trimStart]. rewrite S.
    destruct (Sql.rtrim r) as [|c' t] eqn:E.
    + rewrite <- IH. simpl.
      destruct (Sql.is_blank c); simpl; [reflexivity|].
      rewrite S. reflexivity.
    + cbn [Js.trimStart]. rewrite S. exact IH.
  - assert (B : Sql.is_blank c = false).
    { destruct (Sql.is_blank c) eqn:B; [|reflexivity].
      rewrite (blank_is_space c B) in S. discriminate. }
    rewrite (rtrim_cons c r B). cbn [Js.trimStart]. rewrite S.
    rewrite !(trimEnd_cons c _ S), trimEnd_rtrim. reflexivity.
Qed.

(** [TRIM] of SQL removes nothing that [trim] of JavaScript keeps. *)
Lemma trim_TRIM (s : string) : Js.trim (Sql.TRIM s) = Js.trim s.
Proof.
  unfold Sql.TRIM. rewrite trim_rtrim. unfold Js.trim.
  rewrite trimStart_ltrim. reflexivity.
Qed.

Lemma toLowerCase_trimStart (s : string) :
  Js.toLowerCase (Js.trimStart s) = Js.trimStart (Js.toLowerCase s).
Proof.
  induction s as [|c r IH]; simpl; [reflexivity|].
  rewrite is_space_lower_char. destruct (Js.is_space c); [exact IH|].
  reflexivity.
Qed.

Lemma toLowerCase_trimEnd (s : string) :
  Js.toLowerCase (Js.trimEnd s) = Js.trimEnd (Js.toLowerCase s).
Proof.
  induction s as [|c r IH]; simpl; [reflexivity|].
  rewrite <- IH, is_space_lower_char.
  destruct (Js.trimEnd r); simpl; [|reflexivity].
  destruct (Js.is_space c); reflexivity.
Qed.

Lemma toLowerCase_trim (s : string) :
  Js.toLowerCase (Js.trim s) = Js.trim (Js.toLowerCase s).
Proof.
  unfold Js.trim. rewrite toLowerCase_trimEnd, toLowerCase_trimStart.
  reflexivity.
Qed.

(** [normalizeWord] sees its argument only through [LOWER(TRIM(.))]. *)
Lemma normalizeWord_LOWER_TRIM (s : string) :
  ToolUtils.normalizeWord s
  = Js.trim (Js.collapseSpaces (Js.tightenSlashes
               (Js.trim (Sql.LOWER (Sql.TRIM s))))).
Proof.
  unfold Sql.LOWER. rewrite <- toLowerCase_trim, trim_TRIM.
  destruct s; reflexivity.
Qed.

Lemma normalizeWord_case_blind (s s' : string) :
  Sql.LOWER (Sql.TRIM s') = Sql.LOWER (Sql.TRIM s) ->
  ToolUtils.normalizeWord s' = ToolUtils.normalizeWord s.
Proof.
  intros H. rewrite !normalizeWord_LOWER_TRIM, H. reflexivity.
Qed.

End Strings.

(** ** [ORDER BY]: the rows come back rearranged and in order *)
Section Ordering.

Context {A : Type} (leb : A -> A -> bool).
Hypothesis leb_total : forall x y, leb x y = false -> leb y x = true.
Hypothesis leb_trans :
  forall x y z, leb x y = true -> leb y z = true -> leb x z = true.

Lemma insertRow_perm (x : A) (l : list A) :
  Permutation (SqlOrder.insertRow leb x l) (x :: l).
Proof.
  induction l as [|y l IH]; simpl; [reflexivity|].
  destruct (leb x y); [reflexivity|].
  rewrite IH. apply perm_swap.
Qed.

Lemma orderBy_perm (l : list A) : Permutation (SqlOrder.orderBy leb l) l.
Proof.
  induction l as [|x l IH]; simpl; [reflexivity|].
  rewrite insertRow_perm, IH. reflexivity.
Qed.

Lemma insertRow_sorted (x : A) (l : list A) :
  StronglySorted (fun a b => leb a b = true) l ->
  StronglySorted (fun a b => leb a b = true) (SqlOrder.insertRow leb x l).
Proof.
  induction 1 as [|y l Hs IH Hy]; simpl.
  - constructor; constructor.
  - destruct (leb x y) eqn:E.
    + constructor; [constructor; assumption|].
      constructor; [exact E|].
      rewrite Forall_forall in *. intros z Hz. eapply leb_trans; eauto.
    + constructor; [exact IH|].
      rewrite Forall_forall in *. intros z Hz.
      apply (Permutation_in _ (insertRow_perm x l)) in Hz.
      destruct Hz as [<- | Hz]; [apply leb_total, E | auto].
Qed.

Lemma orderBy_sorted (l : list A) :
  StronglySorted (fun a b => leb a b = true) (SqlOrder.orderBy leb l).
Proof.
  induction l as [|x l IH]; simpl; [constructor|].
  apply insertRow_sorted, IH.
Qed.

Lemma leb_refl (x : A) : leb x x = true.
Proof.
  assert (H := leb_total x x).
  destruct (leb x x); [reflexivity | apply H; reflexivity].
Qed.

(** The first row of the ordered rows may precede every row. *)
Lemma orderBy_head (l : list A) (w : A) (rest : list A) :
  SqlOrder.orderBy leb l = w :: rest ->
  In w l /\ forall x, In x l -> leb w x = true.
Proof.
  intros E. assert (Hs := orderBy_sorted l). assert (Hp := orderBy_perm l).
  rewrite E in Hs, Hp. split.
  - apply (Permutation_in _ Hp). left. reflexivity.
  - intros x Hx. apply (Permutation_in _ (Permutation_sym Hp)) in Hx.
    inversion Hs as [|a m _ Hall]; subst. destruct Hx as [<- | Hx].
    + apply leb_refl.
    + rewrite Forall_forall in Hall. auto.
Qed.

End Ordering.

Section StringOrder.

Lemma ascii_compare_refl (a : ascii) : Ascii.compare a a = Eq.
Proof. unfold Ascii.compare. apply N.compare_refl. Qed.

Lemma ascii_compare_lt_trans (a b c : ascii) :
  Ascii.compare a b = Lt -> Ascii.compare b c = Lt -> Ascii.compare a c = Lt.
Proof.
  unfold Ascii.compare. rewrite !N.compare_lt_iff. apply N.lt_trans.
Qed.

Lemma string_compare_refl (s : string) : String.compare s s = Eq.
Proof.
  induction s as [|c r IH]; simpl; [reflexivity|].
  rewrite ascii_compare_refl. exact IH.
Qed.

Lemma string_compare_lt_trans (s1 : string) : forall s2 s3,
  String.compare s1 s2 = Lt -> String.compare s2 s3 = Lt ->
  String.compare s1 s3 = Lt.
Proof.
  induction s1 as [|a r1 IH]; intros [|b r2] [|c r3]; simpl;
    try discriminate; try reflexivity.
  destruct (Ascii.compare a b) eqn:Eab; try discriminate;
    destruct (Ascii.compare b c) eqn:Ebc; try discriminate; intros H1 H2.
  - apply Ascii.compare_eq_iff in Eab, Ebc. subst.
    rewrite ascii_compare_refl. eapply IH; eauto.
  - apply Ascii.compare_eq_iff in Eab. subst. rewrite Ebc. reflexivity.
  - apply Ascii.compare_eq_iff in Ebc. subst. rewrite Eab. reflexivity.
  - rewrite (ascii_compare_lt_trans a b c Eab Ebc). reflexivity.
Qed.

Lemma string_compare_gt_lt (s1 s2 : string) :
  String.compare s1 s2 = Gt <-> String.compare s2 s1 = Lt.
Proof.
  rewrite (String.compare_antisym s2 s1).
  destruct (String.compare s1 s2); simpl; split; congruence.
Qed.

Lemma string_leb_cases (s1 s2 : string) :
  String.leb s1 s2 = true <-> String.compare s1 s2 = Lt \/ s1 = s2.
Proof.
  unfold String.leb. split.
  - destruct (String.compare s1 s2) eqn:E; try discriminate; intros _.
    + right. apply String.compare_eq_iff, E.
    + left. reflexivity.
  - intros [-> | ->]; [reflexivity|]. rewrite string_compare_refl.
    reflexivity.
Qed.

Lemma string_leb_total (s1 s2 : string) :
  String.leb s1 s2 = false -> String.leb s2 s1 = true.
Proof.
  intros H. destruct (String.leb_total s1 s2) as [E | E]; congruence.
Qed.

Lemma string_leb_trans (s1 s2 s3 : string) :
  String.leb s1 s2 = true -> String.leb s2 s3 = true ->
  String.leb s1 s3 = true.
Proof.
  rewrite !string_leb_cases. intros [H1 | ->] [H2 | ->]; auto.
  left. eapply string_compare_lt_trans; eauto.
Qed.

End StringOrder.

(** ** Scans of the primary-key index *)
Section IndexScan.

Lemma byKey_total (x y : Word) :
  Sql.byKey x y = false -> Sql.byKey y x = true.
Proof. apply string_leb_total. Qed.

Lemma byKey_trans (x y z : Word) :
  Sql.byKey x y = true -> Sql.byKey y z = true -> Sql.byKey x z = true.
Proof. apply string_leb_trans. Qed.

Lemma indexScan_perm (db : Store) : Permutation (Sql.indexScan db) db.
Proof. apply orderBy_perm. Qed.

Lemma indexScan_In (db : Store) (w : Word) :
  In w (Sql.indexScan db) <-> In w db.
Proof.
  split; apply Permutation_in;
    [apply indexScan_perm | apply Permutation_sym, indexScan_perm].
Qed.

Lemma indexScan_sorted (db : Store) :
  StronglySorted (fun a b => Sql.byKey a b = true) (Sql.indexScan db).
Proof. apply orderBy_sorted; [apply byKey_total | apply byKey_trans]. Qed.

(** The first row of sorted rows that passes a test comes before every
    other row that passes it. *)
Lemma find_sorted_least {A : Type} (leb : A -> A -> bool) (p : A -> bool)
      (l : list A) (w : A) :
  (forall x, leb x x = true) ->
  StronglySorted (fun a b => leb a b = true) l ->
  find p l = Some w ->
  forall x, In x l -> p x = true -> leb w x = true.
Proof.
  intros Hrefl Hs. induction Hs as [|a l Hs IH Ha]; simpl; [discriminate|].
  destruct (p a) eqn:E.
  - intros [= <-] x [<- | Hx] _; [apply Hrefl|].
    rewrite Forall_forall in Ha. auto.
  - intros Hf x [<- | Hx] Hp; [congruence | auto].
Qed.

(** The row a query answered from the index returns: a stored row that
    passes the clause, with the least key among the rows that pass it. *)
Lemma get_index_some (p : Word -> bool) (db : Store) (w : Word) :
  Sql.get p (Sql.indexScan db) = Some w ->
  In w db /\ p w = true
  /\ forall x, In x db -> p x = true ->
       String.leb (english w) (english x) = true.
Proof.
  unfold Sql.get. intros H.
  destruct (find_some _ _ H) as [Hin Hp].
  split; [apply indexScan_In, Hin|]. split; [exact Hp|].
  intros x Hx Hpx.
  apply (find_sorted_least Sql.byKey p (Sql.indexScan db) w).
  - intros y. apply (leb_refl Sql.byKey byKey_total).
  - apply indexScan_sorted.
  - exact H.
  - apply indexScan_In, Hx.
  - exact Hpx.
Qed.

Lemma get_index_none (p : Word -> bool) (db : Store) :
  Sql.get p (Sql.indexScan db) = None ->
  forall w, In w db -> p w = false.
Proof.
  unfold Sql.get. intros H w Hw.
  apply (find_none _ _ H). apply indexScan_In, Hw.
Qed.

Lemma get_index_found (p : Word -> bool) (db : Store) (w : Word) :
  In w db -> p w = true ->
  exists w', Sql.get p (Sql.indexScan db) = Some w'.
Proof.
  intros Hin Hp. destruct (Sql.get p (Sql.indexScan db)) as [w'|] eqn:E;
    [eauto|].
  rewrite (get_index_none p db E w Hin) in Hp. discriminate.
Qed.

Lemma get_index_absent (p : Word -> bool) (db : Store) :
  (forall w, In w db -> p w = false) ->
  Sql.get p (Sql.indexScan db) = None.
Proof.
  intros H. destruct (Sql.get p (Sql.indexScan db)) as [w|] eqn:E;
    [|reflexivity].
  apply get_index_some in E as (Hin & Hp & _).
  rewrite (H w Hin) in Hp. discriminate.
Qed.

Lemma get_scan_absent (p : Word -> bool) (db : Store) :
  (forall w, In w db -> p w = false) -> Sql.get p db = None.
Proof.
  intros H. unfold Sql.get. destruct (find p db) as [w|] eqn:E;
    [|reflexivity].
  apply find_some in E as [Hin Hp]. rewrite (H w Hin) in Hp. discriminate.
Qed.

(** Sorting and mapping commute when the order is that of the images. *)
Lemma insertRow_map {A B : Type} (f : A -> B) (leb : A -> A -> bool)
      (leb' : B -> B -> bool) (x : A) (l : list A) :
  (forall a b, leb a b = leb' (f a) (f b)) ->
  map f (SqlOrder.insertRow leb x l)
  = SqlOrder.insertRow leb' (f x) (map f l).
Proof.
  intros H. induction l as [|y l IH]; simpl; [reflexivity|].
  rewrite <- H. destruct (leb x y); simpl; [reflexivity|].
  rewrite IH. reflexivity.
Qed.

Lemma orderBy_map {A B : Type} (f : A -> B) (leb : A -> A -> bool)
      (leb' : B -> B -> bool) (l : list A) :
  (forall a b, leb a b = leb' (f a) (f b)) ->
  map f (SqlOrder.orderBy leb l) = SqlOrder.orderBy leb' (map f l).
Proof.
  intros H. induction l as [|x l IH]; simpl; [reflexivity|].
  rewrite (insertRow_map f leb leb' x _ H), IH. reflexivity.
Qed.

(** The index is a function of the name columns. *)
Lemma indexScan_names (db db' : Store) :
  map names db = map names db' ->
  map names (Sql.indexScan db) = map names (Sql.indexScan db').
Proof.
  intros H. unfold Sql.indexScan.
  rewrite !(orderBy_map names Sql.byKey
              (fun a b => String.leb (fst a) (fst b)))
    by reflexivity.
  rewrite H. reflexivity.
Qed.

End IndexScan.

(** ** Numbers *)
Section Numbers.

Lemma toNumber_exact (z : Z) :
  (Z.abs z <= 2 ^ 53)%Z -> Js.toNumber z = z.
Proof.
  intros H. unfold Js.toNumber.
  destruct (Z.eq_dec (Z.abs z) (2 ^ 53)) as [E | E].
  - destruct (Z.abs_eq_or_opp z) as [A | A]; rewrite A in E.
    + subst z. reflexivity.
    + assert (z = (- 2 ^ 53)%Z) by lia. subst z. reflexivity.
  - assert (Hk : (Z.log2 (Z.abs z) - 52 <=? 0)%Z = true).
    { apply Z.leb_le.
      destruct (Z.eq_dec (Z.abs z) 0) as [Z0 | Z0].
      - rewrite Z0. simpl. lia.
      - assert (Z.log2 (Z.abs z) < 53)%Z; [|lia].
        apply Z.log2_lt_pow2; lia. }
    cbv zeta. rewrite Hk. reflexivity.
Qed.

Lemma toNumber_positive (z : Z) : (1 <= z)%Z -> (1 <= Js.toNumber z)%Z.
Proof.
  intros H. unfold Js.toNumber. cbv zeta.
  destruct (Z.log2 (Z.abs z) - 52 <=? 0)%Z eqn:Hk; [exact H|].
  apply Z.leb_gt in Hk.
  rewrite (Z.abs_eq z) in * by lia.
  set (k := (Z.log2 z - 52)%Z) in *.
  assert (Hpow : (0 < 2 ^ k)%Z) by (apply Z.pow_pos_nonneg; lia).
  assert (Hle : (2 ^ k <= z)%Z).
  { transitivity (2 ^ Z.log2 z)%Z.
    - apply Z.pow_le_mono_r; lia.
    - apply Z.log2_spec. lia. }
  assert (Hq : (1 <= Z.shiftr z k)%Z).
  { rewrite Z.shiftr_div_pow2 by lia.
    apply Z.div_le_lower_bound; lia. }
  set (q := Z.shiftr z k) in *.
  set (r := (z - Z.shiftl q k)%Z).
  set (half := Z.shiftl 1 (k - 1)).
  assert (Hq' : (1 <= (if (r <? half)%Z then q
                       else if (half <? r)%Z then (q + 1)%Z
                       else if Z.even q then q else (q + 1)%Z))%Z).
  { destruct (r <? half)%Z; [exact Hq|].
    destruct (half <? r)%Z; [lia|]. destruct (Z.even q); lia. }
  rewrite Z.sgn_pos by lia. rewrite Z.shiftl_mul_pow2 by lia. nia.
Qed.

(** Up to [MAX_SAFE_INTEGER] the updater's arithmetic is that of the
    integers. *)
Lemma newProficiency_safe (s : bool) (level : Z) :
  (1 <= level <= Js.MAX_SAFE_INTEGER)%Z ->
  UpdateWordProgress.newProficiency s level
  = if s then (level + 1)%Z else Z.max (level - 1) 1.
Proof.
  unfold Js.MAX_SAFE_INTEGER, UpdateWordProgress.newProficiency, Js.plus,
    Js.minus.
  intros H. rewrite !toNumber_exact by lia. reflexivity.
Qed.

(** A failure is exact up to 2^53 as well; a success at 2^53 leaves the
    level where it is, the sum not being a number. *)
Lemma newProficiency_fail (level : Z) :
  (1 <= level <= 2 ^ 53)%Z ->
  UpdateWordProgress.newProficiency false level = Z.max (level - 1) 1.
Proof.
  unfold UpdateWordProgress.newProficiency, Js.minus.
  intros H. rewrite toNumber_exact by lia. reflexivity.
Qed.

Lemma newProficiency_top :
  UpdateWordProgress.newProficiency true (2 ^ 53) = (2 ^ 53)%Z.
Proof. reflexivity. Qed.

Lemma newProficiency_range (s : bool) (level : Z) :
  (1 <= level <= 2 ^ 53)%Z ->
  (1 <= UpdateWordProgress.newProficiency s level <= 2 ^ 53)%Z.
Proof.
  intros H. destruct s.
  - destruct (Z.eq_dec level (2 ^ 53)) as [-> | E].
    + rewrite newProficiency_top. lia.
    + rewrite (newProficiency_safe true) by (unfold Js.MAX_SAFE_INTEGER; lia).
      lia.
  - rewrite newProficiency_fail by exact H. lia.
Qed.

End Numbers.

(** ** The word matcher *)
Section Matcher.

Import ToolUtils.

Lemma truthy_normalizeWord (q : string) :
  truthy (normalizeWord q) = true -> truthy q = true.
Proof.
  destruct q as [|c r]; simpl; [discriminate | reflexivity].
Qed.

Lemma old_normalizeWord_eq (s : string) :
  OldSystemPrompt.normalizeWord s = normalizeWord s.
Proof. destruct s; reflexivity. Qed.

(** The loop returns the key of the first row passing [scanMatch]. *)
Lemma scan_find (nq : string) (db : Store) :
  scan nq db = option_map english (find (scanMatch nq) db).
Proof.
  induction db as [|w db IH]; simpl; [reflexivity|].
  unfold scanMatch, normalizedEqual.
  destruct (String.eqb (normalizeWord (english w)) nq); simpl;
    [reflexivity|].
  destruct (String.eqb (normalizeWord (cantonese_jyutping w)) nq); simpl;
    [reflexivity|].
  destruct (partEqual nq w); simpl; [reflexivity | exact IH].
Qed.

Lemma old_scan_find (nq : string) (db : Store) :
  OldSystemPrompt.scan nq db =
  option_map english
    (find (fun w =>
             String.eqb (OldSystemPrompt.normalizeWord (english w)) nq
             || String.eqb
                  (OldSystemPrompt.normalizeWord (cantonese_jyutping w)) nq)
          db).
Proof.
  induction db as [|w db IH]; simpl; [reflexivity|].
  destruct (String.eqb (OldSystemPrompt.normalizeWord (english w)) nq);
    simpl; [reflexivity|].
  destruct (String.eqb
              (OldSystemPrompt.normalizeWord (cantonese_jyutping w)) nq);
    simpl; [reflexivity | exact IH].
Qed.

(** A result of the matcher is the key of a stored row that passes one
    of its rules. *)
Lemma findWordInDatabase_sound (db : Store) (q k : string) :
  findWordInDatabase db q = Some k ->
  exists w, In w db /\ english w = k /\ matchesAny q w = true.
Proof.
  unfold findWordInDatabase, matchesAny.
  destruct (truthy q); simpl; [|discriminate].
  destruct (truthy (normalizeWord q)); simpl; [|discriminate].
  destruct (Sql.get (exactEnglish q) (Sql.indexScan db)) as [w|] eqn:E1.
  - intros [= <-]. apply get_index_some in E1 as (Hin & Hp & _).
    exists w. rewrite Hp. auto.
  - unfold Sql.get.
    destruct (find (exactCantonese q) db) as [w|] eqn:E2.
    + intros [= <-]. apply find_some in E2 as [Hin Hp].
      exists w. rewrite Hp, orb_true_r. auto.
    + rewrite scan_find.
      destruct (find (scanMatch (normalizeWord q)) db) as [w|] eqn:E3;
        simpl; [|discriminate].
      intros [= <-]. apply find_some in E3 as [Hin Hp].
      exists w. rewrite Hp, orb_true_r. auto.
Qed.

(** A non-empty normalized query that passes the loop's tests on some
    stored row is resolved. *)
Lemma findWordInDatabase_complete (db : Store) (q : string) (w : Word) :
  truthy (normalizeWord q) = true ->
  In w db -> scanMatch (normalizeWord q) w = true ->
  exists k, findWordInDatabase db q = Some k.
Proof.
  intros Hq Hin Hm. unfold findWordInDatabase.
  rewrite (truthy_normalizeWord q Hq), Hq. simpl.
  destruct (Sql.get (exactEnglish q) (Sql.indexScan db)) as [w1|]; [eauto|].
  unfold Sql.get.
  destruct (find (exactCantonese q) db) as [w2|]; [eauto|].
  rewrite scan_find.
  destruct (find (scanMatch (normalizeWord q)) db) as [w3|] eqn:E.
  - simpl. eauto.
  - exfalso. apply (find_none _ _ E) in Hin. congruence.
Qed.

Lemma old_findWordInDatabase_sound (db : Store) (q k : string) :
  OldSystemPrompt.findWordInDatabase db q = Some k ->
  exists w, In w db /\ english w = k /\ oldMatchesAny q w = true.
Proof.
  unfold OldSystemPrompt.findWordInDatabase, oldMatchesAny.
  destruct (Sql.get (OldSystemPrompt.exactEnglish q) (Sql.indexScan db))
    as [w|] eqn:E1.
  - intros [= <-]. apply get_index_some in E1 as (Hin & Hp & _).
    exists w. rewrite Hp. auto.
  - unfold Sql.get.
    destruct (find (OldSystemPrompt.exactCantonese q) db) as [w|] eqn:E2.
    + intros [= <-]. apply find_some in E2 as [Hin Hp].
      exists w. rewrite Hp, orb_true_r. auto.
    + rewrite old_scan_find.
      match goal with |- context [find ?p db] =>
        destruct (find p db) as [w|] eqn:E3 end; simpl; [|discriminate].
      intros [= <-]. apply find_some in E3 as [Hin Hp].
      exists w. rewrite <- !orb_assoc.
      rewrite Hp, !orb_true_r. auto.
  Qed.

Lemma old_findWordInDatabase_complete (db : Store) (q : string) (w : Word) :
  In w db ->
  OldSystemPrompt.normalizeWord (cantonese_jyutping w) =
    OldSystemPrompt.normalizeWord q ->
  exists k, OldSystemPrompt.findWordInDatabase db q = Some k.
Proof.
  intros Hin Hm. unfold OldSystemPrompt.findWordInDatabase.
  destruct (Sql.get (OldSystemPrompt.exactEnglish q) (Sql.indexScan db))
    as [w1|]; [eauto|].
  unfold Sql.get.
  destruct (find (OldSystemPrompt.exactCantonese q) db) as [w2|]; [eauto|].
  rewrite old_scan_find.
  match goal with |- context [find ?p db] =>
    destruct (find p db) as [w3|] eqn:E end.
  - simpl. eauto.
  - exfalso. apply (find_none _ _ E) in Hin. simpl in Hin.
    rewrite Hm, String.eqb_refl, orb_true_r in Hin. discriminate.
Qed.

(** The matcher reads only the two name columns, in the order of the
    index and in scan order. *)
Lemma find_names (p : Word -> bool) (db db' : Store) :
  (forall w w', names w = names w' -> p w = p w') ->
  map names db = map names db' ->
  option_map english (find p db) = option_map english (find p db').
Proof.
  intros Hp. revert db'.
  induction db as [|w db IH]; intros [|w' db'] H; simpl in *;
    try discriminate; [reflexivity|].
  assert (Hw : names w = names w') by congruence.
  assert (Hr : map names db = map names db') by congruence.
  rewrite (Hp w w' Hw).
  destruct (p w').
  - simpl. unfold names in Hw. congruence.
  - auto.
Qed.

Ltac names_only :=
  intros [e c d l] [e' c' d' l']; unfold names; simpl;
  intros [= -> ->]; reflexivity.

Lemma findWordInDatabase_names (db db' : Store) (q : string) :
  map names db = map names db' ->
  findWordInDatabase db q = findWordInDatabase db' q.
Proof.
  intros H. unfold findWordInDatabase, Sql.get.
  destruct (truthy q); simpl; [|reflexivity].
  destruct (truthy (normalizeWord q)); simpl; [|reflexivity].
  rewrite !scan_find.
  assert (H1 := find_names (exactEnglish q) (Sql.indexScan db)
                  (Sql.indexScan db')).
  assert (H2 := find_names (exactCantonese q) db db').
  assert (H3 := find_names (scanMatch (normalizeWord q)) db db').
  assert (Hi := indexScan_names db db' H).
  destruct (find (exactEnglish q) (Sql.indexScan db)),
    (find (exactEnglish q) (Sql.indexScan db'));
    simpl in H1; try (specialize (H1 ltac:(names_only) Hi); congruence).
  destruct (find (exactCantonese q) db), (find (exactCantonese q) db');
    simpl in H2; try (specialize (H2 ltac:(names_only) H); congruence).
  apply H3; [names_only | exact H].
Qed.

(** Two queries that are equal after [TRIM] and [LOWER] get the same
    answer. *)
Lemma findWordInDatabase_case_blind (db : Store) (q q' : string) :
  Sql.LOWER (Sql.TRIM q') = Sql.LOWER (Sql.TRIM q) ->
  findWordInDatabase db q' = findWordInDatabase db q.
Proof.
  intros H. assert (Hn := normalizeWord_case_blind q q' H).
  assert (Hg : forall x,
             findWordInDatabase db x
             = if negb (truthy (normalizeWord x)) then None
               else match Sql.get (exactEnglish x) (Sql.indexScan db) with
                    | Some m => Some (english m)
                    | None =>
                        match Sql.get (exactCantonese x) db with
                        | Some m => Some (english m)
                        | None => scan (normalizeWord x) db
                        end
                    end).
  { intros x. unfold findWordInDatabase. destruct x; reflexivity. }
  rewrite !Hg, Hn. unfold Sql.get, exactEnglish, exactCantonese.
  rewrite H. reflexivity.
Qed.

(** A row that passes rule 1 or rule 2 passes rule 3 as well. *)
Lemma exact_is_normalized (q : string) (w : Word) :
  exactEnglish q w || exactCantonese q w = true ->
  normalizedEqual (normalizeWord q) w = true.
Proof.
  unfold exactEnglish, exactCantonese, normalizedEqual.
  intros H. apply orb_true_iff in H. apply orb_true_iff.
  destruct H as [H | H]; apply String.eqb_eq in H; [left | right];
    apply String.eqb_eq, normalizeWord_case_blind; congruence.
Qed.

End Matcher.

Section MatcherClaims.

Import ToolUtils.

(** The spec's example: the full translation and each of its parts
    resolve to the row's key. *)
Example stationery_full_and_parts :
  findWordInDatabase [cat; stationery] "sik6 coeng2 / zaap6 fo3 pou3"
    = Some "stationery shop"
  /\ findWordInDatabase [cat; stationery] "sik6 coeng2"
    = Some "stationery shop"
  /\ findWordInDatabase [cat; stationery] "  Zaap6  fo3 POU3"
    = Some "stationery shop".
Proof. repeat split; reflexivity. Qed.

(** The spec's example: [I / my] and [I/my] resolve to the same key, and
    so do queries that differ only in case and surrounding blanks. *)
Example i_my_variants :
  findWordInDatabase [cat; mkWord "I/my" "ngo5" "2025-01-01" (Some 1%Z)]
    "I / my" = Some "I/my"
  /\ findWordInDatabase [cat; mkWord "I / my" "ngo5" "2025-01-01" (Some 1%Z)]
       "i/MY " = Some "I / my"
  /\ findWordInDatabase [cat] "  CAT " = findWordInDatabase [cat] "cat".
Proof. repeat split; reflexivity. Qed.

Lemma unique_match_key (db : Store) (q k : string) (w : Word) :
  (forall w', In w' db -> matchesAny q w' = true -> english w' = english w) ->
  findWordInDatabase db q = Some k -> k = english w.
Proof.
  intros Huniq H. apply findWordInDatabase_sound in H as (w' & Hin & <- & Hm).
  auto.
Qed.

End MatcherClaims.

(** C4, as stated, fails.  (1) In [tools/toolUtils.ts] the first matching
    row wins: [caak1 jim6] is a part of the translation of [test], but the
    query resolves to [exam], which has the same part and comes first.
    (2) [removeWord] calls the matcher of its own file, which does not
    split the translation: a single part of the translation of the only
    stored row is not found, and nothing is removed. *)
Lemma C4_counterexample :
  (In test [exam; test]
   /\ In (ToolUtils.normalizeWord "caak1 jim6") (ToolUtils.jyutpingParts test)
   /\ ToolUtils.findWordInDatabase [exam; test] "caak1 jim6" = Some "exam"
   /\ ToolUtils.findWordInDatabase [exam; test] "caak1 jim6"
      <> Some (english test))
  /\
  (In stationery [stationery]
   /\ In (ToolUtils.normalizeWord "zaap6 fo3 pou3")
         (ToolUtils.jyutpingParts stationery)
   /\ OldSystemPrompt.findWordInDatabase [stationery] "zaap6 fo3 pou3" = None
   /\ snd (OldSystemPrompt.removeWord "zaap6 fo3 pou3" [stationery])
      = [stationery]).
Proof.
  split.
  - repeat split.
    + right; left; reflexivity.
    + vm_compute. tauto.
    + vm_compute. discriminate.
  - repeat split.
    + left; reflexivity.
    + vm_compute. tauto.
Qed.

(** C4 (amended).  Let [w] be a stored row.
    - Matcher of [tools/toolUtils.ts] (batch progress update): a query
      whose normalized form is non-empty and equals the normalized
      translation of [w] or one of its slash-delimited parts is resolved to
      the key of a stored row that matches the query, and to the key of [w]
      itself when every stored row matching the query has that key.
    - Matcher of [chat/oldSystemPrompt.ts] ([removeWord]): the same holds
      for a query whose normalized form equals the normalized full
      translation of [w]; when the key of [w] is not empty, [removeWord]
      then succeeds and no row with that key is left; when it is empty,
      [removeWord] takes the answer for no answer, reports a failure and
      leaves the table as it is. *)
Theorem C4_translation_and_parts_resolve :
  forall (db : Store) (w : Word) (q : string),
    In w db ->
    (truthy (ToolUtils.normalizeWord q) = true ->
     (ToolUtils.normalizeWord q
        = ToolUtils.normalizeWord (cantonese_jyutping w)
      \/ In (ToolUtils.normalizeWord q) (ToolUtils.jyutpingParts w)) ->
     (exists w', In w' db /\ matchesAny q w' = true
                 /\ ToolUtils.findWordInDatabase db q = Some (english w'))
     /\ ((forall w', In w' db -> matchesAny q w' = true ->
                     english w' = english w) ->
         ToolUtils.findWordInDatabase db q = Some (english w)))
    /\
    (OldSystemPrompt.normalizeWord q
       = OldSystemPrompt.normalizeWord (cantonese_jyutping w) ->
     (exists w', In w' db /\ oldMatchesAny q w' = true
                 /\ OldSystemPrompt.findWordInDatabase db q
                    = Some (english w'))
     /\ ((forall w', In w' db -> oldMatchesAny q w' = true ->
                     english w' = english w) ->
         OldSystemPrompt.findWordInDatabase db q = Some (english w)
         /\ (english w <> EmptyString ->
             (exists r,
                fst (OldSystemPrompt.removeWord q db) = Returned r
                /\ OldSystemPrompt.rm_success r = true
                /\ option_map fst (OldSystemPrompt.rm_removedWord r)
                   = Some (english w))
             /\ ~ In (english w)
                     (map english (snd (OldSystemPrompt.removeWord q db))))
         /\ (english w = EmptyString ->
             (exists r,
                fst (OldSystemPrompt.removeWord q db) = Returned r
                /\ OldSystemPrompt.rm_success r = false
                /\ OldSystemPrompt.rm_removedWord r = None)
             /\ snd (OldSystemPrompt.removeWord q db) = db))).
Proof.
  intros db w q Hin. split.
  - intros Hq Hm.
    assert (Hs : scanMatch (ToolUtils.normalizeWord q) w = true).
    { unfold scanMatch, ToolUtils.normalizedEqual, ToolUtils.partEqual.
      destruct Hm as [Hm | Hm].
      - rewrite <- Hm, String.eqb_refl, orb_true_r. reflexivity.
      - apply orb_true_iff. right. apply existsb_exists.
        exists (ToolUtils.normalizeWord q). split; [exact Hm|].
        apply String.eqb_refl. }
    destruct (findWordInDatabase_complete db q w Hq Hin Hs) as [k Hk].
    split.
    + destruct (findWordInDatabase_sound db q k Hk) as (w' & Hin' & <- & Hm').
      exists w'. auto.
    + intros Huniq. rewrite Hk. f_equal.
      eapply unique_match_key; eauto.
  - intros Hm.
    destruct (old_findWordInDatabase_complete db q w Hin (eq_sym Hm))
      as [k Hk].
    destruct (old_findWordInDatabase_sound db q k Hk)
      as (w' & Hin' & Hk' & Hm').
    split.
    + exists w'. subst k. auto.
    + intros Huniq. assert (k = english w) by (subst k; auto). subst k.
      rewrite H in *. split; [exact Hk|].
      unfold OldSystemPrompt.removeWord. rewrite Hk.
      split.
      * intros Hne.
        assert (Ht : truthy (english w) = true)
          by (destruct (english w); [contradiction | reflexivity]).
        rewrite Ht. cbn [negb].
        destruct (Sql.get (Sql.english_is (english w)) db) as [x|] eqn:Eg.
        -- unfold Sql.get in Eg. apply find_some in Eg as [_ Hx].
           unfold Sql.english_is in Hx. apply String.eqb_eq in Hx.
           simpl. split.
           ++ eexists. split; [reflexivity|]. simpl. rewrite Hx. auto.
           ++ unfold OldSystemPrompt.delete. intros Hc.
              apply in_map_iff in Hc as (y & Hy & Hyin).
              apply filter_In in Hyin as [_ Hneg].
              unfold Sql.english_is in Hneg.
              rewrite Hy, String.eqb_refl in Hneg. discriminate.
        -- exfalso. unfold Sql.get in Eg.
           apply (find_none _ _ Eg) in Hin. unfold Sql.english_is in Hin.
           rewrite String.eqb_refl in Hin. discriminate.
      * intros ->. simpl. split; [|reflexivity].
        eexists. split; [reflexivity|]. split; reflexivity.
Qed.

Lemma C4_translation_and_parts_resolve_witness :
  ToolUtils.findWordInDatabase [exam; stationery] " Zaap6 fo3  pou3"
    = Some "stationery shop"
  /\ OldSystemPrompt.findWordInDatabase [exam; stationery]
       "SIK6 coeng2/zaap6 fo3 pou3" = Some "stationery shop"
  /\ ~ In "stationery shop"
         (map english
            (snd (OldSystemPrompt.removeWord "SIK6 coeng2/zaap6 fo3 pou3"
                    [exam; stationery]))).
Proof.
  split; [|split].
  - destruct (C4_translation_and_parts_resolve [exam; stationery] stationery
                " Zaap6 fo3  pou3" (or_intror (or_introl eq_refl)))
      as [H _].
    apply H.
    + reflexivity.
    + right. vm_compute. tauto.
    + intros w' [<-|[<-|[]]]; vm_compute; intros; congruence.
  - destruct (C4_translation_and_parts_resolve [exam; stationery] stationery
                "SIK6 coeng2/zaap6 fo3 pou3" (or_intror (or_introl eq_refl)))
      as [_ H].
    apply H.
    + reflexivity.
    + intros w' [<-|[<-|[]]]; vm_compute; intros; congruence.
  - destruct (C4_translation_and_parts_resolve [exam; stationery] stationery
                "SIK6 coeng2/zaap6 fo3 pou3" (or_intror (or_introl eq_refl)))
      as [_ H].
    destruct (H eq_refl) as [_ H2].
    destruct H2 as (_ & Hrm & _).
    + intros w' [<-|[<-|[]]]; vm_compute; intros; congruence.
    + apply Hrm. discriminate.
Defined.

(** C5, as stated, fails: [exerciseBook] matches the query under rule 3
    (its normalized translation equals the normalized query, though not
    under rule 2 because of the doubled blank), [homework] matches only
    under rule 4, and the matcher returns [homework] when it is scanned
    first.  With the two rows in the other order it returns
    [exercise book]: the result depends on the order of the rows. *)
Lemma C5_counterexample :
  ToolUtils.normalizedEqual (ToolUtils.normalizeWord "zaap6 fo3") exerciseBook
    = true
  /\ ToolUtils.normalizedEqual (ToolUtils.normalizeWord "zaap6 fo3") homework
    = false
  /\ ToolUtils.exactEnglish "zaap6 fo3" homework = false
  /\ ToolUtils.exactCantonese "zaap6 fo3" homework = false
  /\ ToolUtils.partEqual (ToolUtils.normalizeWord "zaap6 fo3") homework = true
  /\ ToolUtils.findWordInDatabase [homework; exerciseBook] "zaap6 fo3"
     = Some (english homework)
  /\ ToolUtils.findWordInDatabase [homework; exerciseBook] "zaap6 fo3"
     <> Some (english exerciseBook)
  /\ ToolUtils.findWordInDatabase [exerciseBook; homework] "zaap6 fo3"
     = Some (english exerciseBook).
Proof.
  repeat split; try reflexivity. vm_compute. discriminate.
Qed.

(** C5 (amended).  For a query whose normalized form is non-empty:
    rule 1 is a pass over the whole store and wins over every other rule:
    when some row passes it, the matcher returns the key of a row that
    passes it, the least such key in byte order (the query is answered
    from the index of the primary key); rule 2 is a second pass, a scan
    of the table, and wins over rules 3 and 4: when no row passes rule 1
    the matcher returns the key of the first row, in store order, that
    passes rule 2; rules 3 and 4 are tested together on each row of one
    scan, so when no row matches under rule 1 or 2 the matcher returns the
    key of the first row, in store order, that matches under rule 3 or
    under rule 4.  A rule-3 row therefore wins over a rule-4-only row when
    it comes earlier in the store. *)
Theorem C5_rule_order :
  forall (db : Store) (q : string),
    truthy (ToolUtils.normalizeWord q) = true ->
    (forall w1, In w1 db -> ToolUtils.exactEnglish q w1 = true ->
       exists w,
         In w db /\ ToolUtils.exactEnglish q w = true
         /\ (forall w', In w' db -> ToolUtils.exactEnglish q w' = true ->
                String.leb (english w) (english w') = true)
         /\ ToolUtils.findWordInDatabase db q = Some (english w))
    /\ (forall w2,
          (forall w, In w db -> ToolUtils.exactEnglish q w = false) ->
          Sql.get (ToolUtils.exactCantonese q) db = Some w2 ->
          ToolUtils.findWordInDatabase db q = Some (english w2))
    /\ (forall pre w post,
          db = pre ++ w :: post ->
          (forall w', In w' db ->
             ToolUtils.exactEnglish q w' = false
             /\ ToolUtils.exactCantonese q w' = false) ->
          (forall w', In w' pre ->
             scanMatch (ToolUtils.normalizeWord q) w' = false) ->
          scanMatch (ToolUtils.normalizeWord q) w = true ->
          ToolUtils.findWordInDatabase db q = Some (english w)).
Proof.
  intros db q Hq.
  unfold ToolUtils.findWordInDatabase.
  rewrite (truthy_normalizeWord q Hq), Hq. simpl.
  split; [|split].
  - intros w1 Hin1 Hp1.
    destruct (get_index_found _ db w1 Hin1 Hp1) as [w E].
    rewrite E. destruct (get_index_some _ _ _ E) as (Hin & Hp & Hleast).
    exists w. auto.
  - intros w2 Hno ->. rewrite (get_index_absent _ db Hno). reflexivity.
  - intros pre w post -> Hno Hpre Hw.
    assert (E1 : Sql.get (ToolUtils.exactEnglish q)
                   (Sql.indexScan (pre ++ w :: post)) = None).
    { apply get_index_absent. intros x Hin. apply (Hno x Hin). }
    assert (E2 : Sql.get (ToolUtils.exactCantonese q) (pre ++ w :: post)
                 = None).
    { unfold Sql.get.
      destruct (find (ToolUtils.exactCantonese q) (pre ++ w :: post)) as [x|]
        eqn:E; [|reflexivity].
      apply find_some in E as [Hin Hx].
      destruct (Hno x Hin) as [_ Hx']. congruence. }
    rewrite E1, E2, scan_find. clear Hno E1 E2.
    induction pre as [|p pre IH]; simpl.
    + rewrite Hw. reflexivity.
    + rewrite (Hpre p (or_introl eq_refl)). apply IH.
      intros w' Hin. apply Hpre. right. exact Hin.
Qed.

Lemma C5_rule_order_witness :
  ToolUtils.findWordInDatabase [cat; homework; exerciseBook] "zaap6 fo3"
    = Some "homework"
  /\ ToolUtils.findWordInDatabase [cat; exerciseBook; homework] "zaap6 fo3"
    = Some "exercise book"
  /\ ToolUtils.findWordInDatabase
       [homework; cat; mkWord "CAT" "maau1" "2025-01-01" (Some 3%Z)] "Cat "
     = Some "CAT"
  /\ ToolUtils.findWordInDatabase [homework; exerciseBook] "Zaap6  fo3"
    = Some "exercise book".
Proof.
  split; [|split; [|split]].
  - destruct (C5_rule_order [cat; homework; exerciseBook] "zaap6 fo3"
                eq_refl) as (_ & _ & H).
    apply (H [cat] homework [exerciseBook] eq_refl).
    + intros w' [<-|[<-|[<-|[]]]]; split; reflexivity.
    + intros w' [<-|[]]; reflexivity.
    + reflexivity.
  - destruct (C5_rule_order [cat; exerciseBook; homework] "zaap6 fo3"
                eq_refl) as (_ & _ & H).
    apply (H [cat] exerciseBook [homework] eq_refl).
    + intros w' [<-|[<-|[<-|[]]]]; split; reflexivity.
    + intros w' [<-|[]]; reflexivity.
    + reflexivity.
  - destruct (C5_rule_order
                [homework; cat; mkWord "CAT" "maau1" "2025-01-01" (Some 3%Z)]
                "Cat " eq_refl) as (H & _ & _).
    destruct (H cat (or_intror (or_introl eq_refl)) eq_refl)
      as (w & Hin & Hp & Hleast & Hf).
    destruct Hin as [<- | [<- | [<- | []]]].
    + discriminate Hp.
    + specialize (Hleast (mkWord "CAT" "maau1" "2025-01-01" (Some 3%Z))
                    (or_intror (or_intror (or_introl eq_refl))) eq_refl).
      discriminate Hleast.
    + exact Hf.
  - destruct (C5_rule_order [homework; exerciseBook] "Zaap6  fo3" eq_refl)
      as (_ & H & _).
    apply (H exerciseBook); [|reflexivity].
    intros w [<- | [<- | []]]; reflexivity.
Defined.

(** ** The progress updater *)
Section Updater.

Import ToolUtils UpdateWordProgress.

Lemma names_bump today level key w : names (bump today level key w) = names w.
Proof. unfold bump. destruct (Sql.english_is key w); reflexivity. Qed.

Lemma english_is_bump today level key k w :
  Sql.english_is k (bump today level key w) = Sql.english_is k w.
Proof. unfold bump. destruct (Sql.english_is key w); reflexivity. Qed.

Lemma get_map_bump today level key db w :
  Sql.get (Sql.english_is key) db = Some w ->
  Sql.get (Sql.english_is key) (map (bump today level key) db)
    = Some (setProgress today level w).
Proof.
  unfold Sql.get. induction db as [|x db IH]; simpl; [discriminate|].
  rewrite english_is_bump. destruct (Sql.english_is key x) eqn:E.
  - intros [= <-]. unfold bump. rewrite E. reflexivity.
  - exact IH.
Qed.

Lemma get_english key db w :
  Sql.get (Sql.english_is key) db = Some w -> In w db /\ english w = key.
Proof.
  unfold Sql.get. intros H. apply find_some in H as [Hin H].
  split; [exact Hin|]. apply String.eqb_eq. exact H.
Qed.

Lemma get_present key db w :
  In w db -> english w = key ->
  exists w', Sql.get (Sql.english_is key) db = Some w'.
Proof.
  intros Hin Hk. unfold Sql.get.
  destruct (find (Sql.english_is key) db) as [w'|] eqn:E; [eauto|].
  apply (find_none _ _ E) in Hin. unfold Sql.english_is in Hin.
  rewrite Hk, String.eqb_refl in Hin. discriminate.
Qed.

Lemma resolved_is_stored db q k :
  findWordInDatabase db q = Some k ->
  exists w, Sql.get (Sql.english_is k) db = Some w.
Proof.
  intros H. apply findWordInDatabase_sound in H as (w & Hin & Hk & _).
  eapply get_present; eauto.
Qed.

(** What one iteration of the loop does, case by case. *)
Lemma processEntry_spec today st e :
  match searchTerm e with
  | None =>
      processEntry today st e
      = pushFailed st (mkFailedWord "undefined" (invalidReason e))
  | Some q =>
      match findWordInDatabase (st_db st) q with
      | None =>
          processEntry today st e
          = pushFailed st (mkFailedWord q (notFoundReason q))
      | Some k =>
          if truthy k then
            exists w,
              Sql.get (Sql.english_is k) (st_db st) = Some w /\
              let level :=
                newProficiency (e_success e)
                               (nullish (proficiency_level w) 1) in
              if (level <? 1)%Z
              then processEntry today st e
                   = pushFailed st
                       (mkFailedWord (errorSearchTerm e) checkFailed)
              else processEntry today st e
                   = ((map (bump today level k) (st_db st),
                       st_updated st ++
                         [mkUpdatedWord k (cantonese_jyutping w) today level]),
                      st_failed st)
          else
            processEntry today st e
            = pushFailed st (mkFailedWord q (notFoundReason q))
      end
  end.
Proof.
  unfold processEntry.
  destruct (searchTerm e) as [q|]; [|reflexivity].
  destruct (findWordInDatabase (st_db st) q) as [k|] eqn:Ef; [|reflexivity].
  destruct (truthy k) eqn:Ht; cbn [negb]; [|reflexivity].
  destruct (resolved_is_stored _ _ _ Ef) as [w Hw].
  exists w. split; [exact Hw|]. rewrite Hw. cbv zeta.
  unfold runUpdate.
  assert (Hex : existsb (Sql.english_is k) (st_db st) = true).
  { apply existsb_exists. exists w. apply get_english in Hw as [Hin Hk].
    split; [exact Hin|]. unfold Sql.english_is. rewrite Hk.
    apply String.eqb_refl. }
  rewrite Hex. simpl.
  destruct (newProficiency (e_success e) (nullish (proficiency_level w) 1)
            <? 1)%Z; [reflexivity|].
  rewrite (get_map_bump _ _ _ _ _ Hw). simpl.
  apply get_english in Hw as [_ ->]. reflexivity.
Qed.

(** The level computed by the loop is at least 1 as soon as the current
    one is: the floor is the code's own. *)
Lemma newProficiency_floor (s : bool) (level : Z) :
  (1 <= level)%Z -> (1 <= newProficiency s level)%Z.
Proof.
  unfold newProficiency, Js.plus. intros H. destruct s; [|lia].
  apply toNumber_positive. lia.
Qed.

Lemma newProficiency_fail_floor (level : Z) :
  (1 <= newProficiency false level)%Z.
Proof. unfold newProficiency. lia. Qed.

(** Either the iteration adds one failure and leaves the store as it
    was, or it adds one updated word. *)
Lemma processEntry_one today st e :
  (exists f, processEntry today st e = pushFailed st f)
  \/ (exists level k u,
        (1 <= level)%Z /\
        processEntry today st e
        = ((map (bump today level k) (st_db st), st_updated st ++ [u]),
           st_failed st)).
Proof.
  assert (H := processEntry_spec today st e).
  destruct (searchTerm e) as [q|]; [|eauto].
  destruct (findWordInDatabase (st_db st) q) as [k|]; [|eauto].
  destruct (truthy k); [|eauto].
  destruct H as (w & Hw & H). cbv zeta in H.
  destruct (newProficiency (e_success e) (nullish (proficiency_level w) 1)
            <? 1)%Z eqn:E; [eauto|].
  right. do 3 eexists. split; [|exact H]. lia.
Qed.

Lemma processEntry_names today st e :
  map names (st_db (processEntry today st e)) = map names (st_db st).
Proof.
  destruct (processEntry_one today st e) as [[f ->] | (l & k & u & _ & ->)].
  - reflexivity.
  - unfold st_db. simpl. rewrite map_map.
    apply map_ext. intros w. apply names_bump.
Qed.

Lemma fold_names today ws st :
  map names (st_db (fold_left (processEntry today) ws st))
  = map names (st_db st).
Proof.
  revert st. induction ws as [|e ws IH]; intros st; simpl; [reflexivity|].
  rewrite IH. apply processEntry_names.
Qed.

Lemma runLoop_names today db ws :
  map names (st_db (runLoop today db ws)) = map names db.
Proof. unfold runLoop. rewrite fold_names. reflexivity. Qed.

(** The matcher gives the same answers throughout a batch. *)
Lemma runLoop_find today db ws q :
  findWordInDatabase (st_db (runLoop today db ws)) q
  = findWordInDatabase db q.
Proof. apply findWordInDatabase_names, runLoop_names. Qed.

Lemma updateWordProgress_store today ws db :
  snd (updateWordProgress today ws db) = st_db (runLoop today db ws).
Proof. destruct ws; reflexivity. Qed.

Lemma checkHolds_bump today level key w :
  (1 <= level)%Z -> checkHolds w -> checkHolds (bump today level key w).
Proof.
  unfold bump, checkHolds. destruct (Sql.english_is key w); simpl; auto.
Qed.

Lemma processEntry_check today st e :
  Forall checkHolds (st_db st) ->
  Forall checkHolds (st_db (processEntry today st e)).
Proof.
  intros H.
  destruct (processEntry_one today st e) as [[f ->] | (l & k & u & Hl & ->)].
  - exact H.
  - unfold st_db in *. simpl. apply Forall_map.
    eapply Forall_impl; [|exact H]. intros w. apply checkHolds_bump, Hl.
Qed.

Lemma fold_check today ws st :
  Forall checkHolds (st_db st) ->
  Forall checkHolds (st_db (fold_left (processEntry today) ws st)).
Proof.
  revert st. induction ws as [|e ws IH]; intros st H; simpl; [exact H|].
  apply IH, processEntry_check, H.
Qed.

Lemma levelAtLeastOne_bump today level key w :
  (1 <= level)%Z -> levelAtLeastOne w ->
  levelAtLeastOne (bump today level key w).
Proof.
  unfold bump, levelAtLeastOne.
  destruct (Sql.english_is key w); simpl; eauto.
Qed.

Lemma fold_levels today ws st :
  Forall levelAtLeastOne (st_db st) ->
  Forall levelAtLeastOne (st_db (fold_left (processEntry today) ws st)).
Proof.
  revert st. induction ws as [|e ws IH]; intros st H; simpl; [exact H|].
  apply IH.
  destruct (processEntry_one today st e) as [[f ->] | (l & k & u & Hl & ->)].
  - exact H.
  - unfold st_db in *. simpl. apply Forall_map.
    eapply Forall_impl; [|exact H]. intros w.
    apply levelAtLeastOne_bump, Hl.
Qed.

End Updater.

Section UpdaterClaims.

Import ToolUtils UpdateWordProgress.

Lemma fold_updated_incl today ws st u :
  In u (st_updated st) ->
  In u (st_updated (fold_left (processEntry today) ws st)).
Proof.
  revert st. induction ws as [|e ws IH]; intros st H; simpl; [exact H|].
  apply IH.
  destruct (processEntry_one today st e) as [[f ->] | (l & k & x & _ & ->)].
  - exact H.
  - unfold st_updated in *. simpl. apply in_or_app. left. exact H.
Qed.

Lemma fold_failed_incl today ws st f :
  In f (st_failed st) ->
  In f (st_failed (fold_left (processEntry today) ws st)).
Proof.
  revert st. induction ws as [|e ws IH]; intros st H; simpl; [exact H|].
  apply IH.
  destruct (processEntry_one today st e) as [[x ->] | (l & k & x & _ & ->)].
  - unfold st_failed in *. simpl. apply in_or_app. left. exact H.
  - exact H.
Qed.

(** One resolved entry, from any state of the loop whose row passes the
    schema's check. *)
Lemma processEntry_resolved today st e q k w :
  searchTerm e = Some q ->
  findWordInDatabase (st_db st) q = Some k ->
  truthy k = true ->
  Sql.get (Sql.english_is k) (st_db st) = Some w ->
  (1 <= newProficiency (e_success e) (nullish (proficiency_level w) 1))%Z ->
  let level :=
    newProficiency (e_success e) (nullish (proficiency_level w) 1) in
  processEntry today st e
  = ((map (bump today level k) (st_db st),
      st_updated st ++ [mkUpdatedWord k (cantonese_jyutping w) today level]),
     st_failed st)
  /\ Sql.get (Sql.english_is k) (st_db (processEntry today st e))
     = Some (mkWord k (cantonese_jyutping w) today (Some level)).
Proof.
  intros Hs Hf Ht Hw Hl level.
  assert (H := processEntry_spec today st e).
  rewrite Hs, Hf, Ht in H. destruct H as (w' & Hw' & H).
  rewrite Hw in Hw'. injection Hw' as <-. cbv zeta in H.
  fold level in H, Hl.
  destruct (level <? 1)%Z eqn:E; [lia|].
  split; [exact H|]. rewrite H.
  etransitivity; [exact (get_map_bump today level k (st_db st) w Hw)|].
  unfold setProgress. apply get_english in Hw as [_ ->]. reflexivity.
Qed.

End UpdaterClaims.

(** C1, as stated, fails in two places.  (1) A row can be stored under
    the empty key ([addNewWord] accepts it).  A query that the matcher
    resolves to that row is answered with the empty key, which the loop
    takes for no answer: the entry is reported as not found and the row
    keeps its level and its date.  (2) Levels are numbers: at level 2^53 a
    successful entry leaves the level where it is, [2^53 + 1] not being a
    number. *)
Lemma C1_counterexample :
  (let db := snd (OldSystemPrompt.addNewWord "2025-01-01" EmptyString
                    "maau1" []) in
   let e := UpdateWordProgress.mkEntry None (Some "maau1") true in
   reachable db
   /\ db = [mkWord EmptyString "maau1" "2025-01-01" (Some 1%Z)]
   /\ UpdateWordProgress.searchTerm e = Some "maau1"
   /\ ToolUtils.findWordInDatabase db "maau1" = Some EmptyString
   /\ UpdateWordProgress.updateWordProgress "2025-06-01" [e] db
      = (Returned
           (UpdateWordProgress.mkResult false
              "Updated 0 word(s). 1 word(s) failed to update." []
              (Some [UpdateWordProgress.mkFailedWord "maau1"
                       (UpdateWordProgress.notFoundReason "maau1")])),
         db))
  /\
  (let db := [mkWord "cat" "maau1" "2025-01-01" (Some (2 ^ 53)%Z)] in
   let e := UpdateWordProgress.mkEntry (Some "cat") None true in
   Forall checkHolds db
   /\ ToolUtils.findWordInDatabase db "cat" = Some "cat"
   /\ snd (UpdateWordProgress.updateWordProgress "2025-06-01" [e] db)
      = [mkWord "cat" "maau1" "2025-06-01" (Some (2 ^ 53)%Z)]
   /\ snd (UpdateWordProgress.updateWordProgress "2025-06-01" [e] db)
      <> [mkWord "cat" "maau1" "2025-06-01" (Some (2 ^ 53 + 1)%Z)]).
Proof.
  split.
  - cbv zeta. split; [|repeat split].
    eapply reachable_step; [apply reachable_init | apply step_add].
  - cbv zeta. split; [|split; [|split]].
    + repeat constructor. unfold checkHolds. simpl. lia.
    + reflexivity.
    + reflexivity.
    + vm_compute. discriminate.
Qed.

(** C1 (amended).  Take a store whose rows pass the schema's check and a
    batch [pre ++ e :: post], and let the query text of [e] resolve to the
    stored key [k].
    - When [k] is not empty, the row of [k] exists when the loop reaches
      [e]; if its level at that moment, [level] ([1] for [NULL]), is at
      most [MAX_SAFE_INTEGER], the iteration for [e] sets the level to
      [level + 1] when [success] is true and to [max (level - 1) 1] when it
      is false, and sets the date to [today]; the other columns are kept,
      the updated row is added to [updatedWords] of the result and nothing
      is added to [failedWords].
    - When [k] is the empty key, the iteration for [e] changes nothing in
      the store and adds the entry to [failedWords] as not found. *)
Theorem C1_progress_update_sets_level_and_date :
  forall (today : string) (db : Store)
         (pre : list UpdateWordProgress.Entry) (e : UpdateWordProgress.Entry)
         (q k : string),
    Forall checkHolds db ->
    UpdateWordProgress.searchTerm e = Some q ->
    ToolUtils.findWordInDatabase db q = Some k ->
    let before := UpdateWordProgress.runLoop today db pre in
    let after := UpdateWordProgress.runLoop today db (pre ++ [e]) in
    (k <> EmptyString ->
     exists w,
       let level := nullish (proficiency_level w) 1 in
       let level' :=
         if UpdateWordProgress.e_success e
         then (level + 1)%Z else Z.max (level - 1) 1 in
       Sql.get (Sql.english_is k) (UpdateWordProgress.st_db before) = Some w
       /\ ((level <= Js.MAX_SAFE_INTEGER)%Z ->
           Sql.get (Sql.english_is k) (UpdateWordProgress.st_db after)
           = Some (mkWord k (cantonese_jyutping w) today (Some level'))
           /\ UpdateWordProgress.st_updated after
              = UpdateWordProgress.st_updated before
                  ++ [UpdateWordProgress.mkUpdatedWord
                        k (cantonese_jyutping w) today level']
           /\ UpdateWordProgress.st_failed after
              = UpdateWordProgress.st_failed before
           /\ forall post,
                exists r,
                  fst (UpdateWordProgress.updateWordProgress
                         today (pre ++ e :: post) db) = Returned r
                  /\ In (UpdateWordProgress.mkUpdatedWord
                           k (cantonese_jyutping w) today level')
                        (UpdateWordProgress.updatedWords r)))
    /\ (k = EmptyString ->
        UpdateWordProgress.st_db after = UpdateWordProgress.st_db before
        /\ UpdateWordProgress.st_updated after
           = UpdateWordProgress.st_updated before
        /\ UpdateWordProgress.st_failed after
           = UpdateWordProgress.st_failed before
               ++ [UpdateWordProgress.mkFailedWord q
                     (UpdateWordProgress.notFoundReason q)]).
Proof.
  intros today db pre e q k Hdb Hs Hf before after.
  assert (Hf' : ToolUtils.findWordInDatabase
                  (UpdateWordProgress.st_db before) q = Some k)
    by (unfold before; rewrite runLoop_find; exact Hf).
  assert (Happ : after = UpdateWordProgress.processEntry today before e).
  { unfold after, before, UpdateWordProgress.runLoop. rewrite fold_left_app.
    reflexivity. }
  split.
  - intros Hk.
    assert (Ht : truthy k = true)
      by (destruct k; [contradiction | reflexivity]).
    destruct (resolved_is_stored _ _ _ Hf') as [w Hw].
    assert (Hc : checkHolds w).
    { assert (Hall : Forall checkHolds (UpdateWordProgress.st_db before)).
      { unfold before, UpdateWordProgress.runLoop. apply fold_check.
        exact Hdb. }
      rewrite Forall_forall in Hall. apply Hall.
      apply get_english in Hw. tauto. }
    assert (Hone : (1 <= nullish (proficiency_level w) 1)%Z).
    { unfold checkHolds in Hc.
      destruct (proficiency_level w); simpl; [exact Hc | lia]. }
    assert (Hl : (1 <= UpdateWordProgress.newProficiency
                         (UpdateWordProgress.e_success e)
                         (nullish (proficiency_level w) 1))%Z)
      by (apply newProficiency_floor, Hone).
    destruct (processEntry_resolved today before e q k w Hs Hf' Ht Hw Hl)
      as [Hstep Hget].
    exists w. cbv zeta. split; [exact Hw|]. intros Hsafe.
    rewrite (newProficiency_safe _ _ (conj Hone Hsafe)) in Hstep, Hget.
    rewrite Happ.
    split; [exact Hget|].
    split; [rewrite Hstep; reflexivity|].
    split; [rewrite Hstep; reflexivity|].
    intros post.
    assert (Hin : In (UpdateWordProgress.mkUpdatedWord k (cantonese_jyutping w)
                        today
                        (if UpdateWordProgress.e_success e
                         then (nullish (proficiency_level w) 1 + 1)%Z
                         else Z.max (nullish (proficiency_level w) 1 - 1) 1))
                     (UpdateWordProgress.st_updated
                        (UpdateWordProgress.runLoop today db
                           (pre ++ e :: post)))).
    { unfold UpdateWordProgress.runLoop.
      change (pre ++ e :: post) with (pre ++ [e] ++ post).
      rewrite app_assoc, fold_left_app. apply fold_updated_incl.
      fold (UpdateWordProgress.runLoop today db (pre ++ [e])).
      fold after. rewrite Happ, Hstep.
      unfold UpdateWordProgress.st_updated. simpl.
      apply in_or_app. right. left. reflexivity. }
    unfold UpdateWordProgress.updateWordProgress.
    destruct (pre ++ e :: post) eqn:E.
    + destruct pre; discriminate.
    + eexists. split; [reflexivity|]. exact Hin.
  - intros ->. rewrite Happ.
    assert (H := processEntry_spec today before e).
    rewrite Hs, Hf' in H. simpl in H. rewrite H.
    split; [reflexivity|]. split; reflexivity.
Qed.

Lemma C1_progress_update_sets_level_and_date_witness :
  Sql.get (Sql.english_is "cat")
    (snd (UpdateWordProgress.updateWordProgress "2025-06-01"
            [UpdateWordProgress.mkEntry None (Some "maau1") true] [cat]))
  = Some (mkWord "cat" "maau1" "2025-06-01" (Some 2%Z)).
Proof.
  destruct (C1_progress_update_sets_level_and_date "2025-06-01" [cat] []
              (UpdateWordProgress.mkEntry None (Some "maau1") true)
              "maau1" "cat")
    as [H _].
  - repeat constructor. unfold checkHolds. simpl. lia.
  - reflexivity.
  - reflexivity.
  - destruct (H ltac:(discriminate)) as (w & Hw & Hafter).
    vm_compute in Hw. injection Hw as <-.
    apply Hafter. vm_compute. discriminate.
Defined.

Section UpdaterPairs.

Import ToolUtils UpdateWordProgress.

Lemma runLoop_one today db e :
  runLoop today db [e] = processEntry today (db, [], []) e.
Proof. reflexivity. Qed.

Lemma runLoop_two today db e1 e2 :
  runLoop today db [e1; e2]
  = processEntry today (processEntry today (db, [], []) e1) e2.
Proof. reflexivity. Qed.

End UpdaterPairs.

(** C8, as stated, fails in two places.  (1) Not for any level: at level
    2^53 the successful update leaves the level where it is ([2^53 + 1] is
    not a number) and the failed update that follows takes it to
    [2^53 - 1].  (2) Not for any stored word: a word stored under the empty
    key is reported as not found by both calls, and its date is not set. *)
Lemma C8_counterexample :
  (let db := [mkWord "cat" "maau1" "2025-01-01" (Some (2 ^ 53)%Z)] in
   let db1 :=
     snd (UpdateWordProgress.updateWordProgress "2025-06-01"
            [UpdateWordProgress.mkEntry (Some "cat") None true] db) in
   let db2 :=
     snd (UpdateWordProgress.updateWordProgress "2025-06-02"
            [UpdateWordProgress.mkEntry (Some "cat") None false] db1) in
   Forall checkHolds db
   /\ db1 = [mkWord "cat" "maau1" "2025-06-01" (Some (2 ^ 53)%Z)]
   /\ db2 = [mkWord "cat" "maau1" "2025-06-02" (Some (2 ^ 53 - 1)%Z)]
   /\ (2 ^ 53 - 1 <> 2 ^ 53)%Z)
  /\
  (let db := snd (OldSystemPrompt.addNewWord "2025-01-01" EmptyString
                    "maau1" []) in
   let db1 :=
     snd (UpdateWordProgress.updateWordProgress "2025-06-01"
            [UpdateWordProgress.mkEntry (Some "maau1") None true] db) in
   let db2 :=
     snd (UpdateWordProgress.updateWordProgress "2025-06-02"
            [UpdateWordProgress.mkEntry (Some "maau1") None false] db1) in
   ToolUtils.findWordInDatabase db "maau1" = Some EmptyString
   /\ db1 = db /\ db2 = db
   /\ map last_practiced_date db2 = ["2025-01-01"]).
Proof.
  split.
  - cbv zeta. split; [|split; [|split]].
    + repeat constructor. unfold checkHolds. simpl. lia.
    + reflexivity.
    + reflexivity.
    + lia.
  - cbv zeta. split; [|split; [|split]]; reflexivity.
Qed.

(** C8 (amended).  Let [k] be a stored key that is not empty and whose
    level is a number [n] from 1 to [MAX_SAFE_INTEGER], and let [e1] be a
    successful and [e2] a failed entry whose query texts both resolve to
    [k].  A call with [e1] followed by a call with [e2] leaves the row of
    [k] with level [n] again; after the first call the level is [n + 1]
    and the date is that call's [today], after the second the date is the
    second call's [today].  The same holds when the two entries are
    consecutive in one batch. *)
Theorem C8_success_then_failure_restores_level :
  forall (today1 today2 : string) (db : Store)
         (e1 e2 : UpdateWordProgress.Entry) (q1 q2 k : string)
         (w : Word) (n : Z),
    UpdateWordProgress.searchTerm e1 = Some q1 ->
    UpdateWordProgress.e_success e1 = true ->
    UpdateWordProgress.searchTerm e2 = Some q2 ->
    UpdateWordProgress.e_success e2 = false ->
    ToolUtils.findWordInDatabase db q1 = Some k ->
    ToolUtils.findWordInDatabase db q2 = Some k ->
    k <> EmptyString ->
    Sql.get (Sql.english_is k) db = Some w ->
    proficiency_level w = Some n ->
    (1 <= n <= Js.MAX_SAFE_INTEGER)%Z ->
    let db1 :=
      snd (UpdateWordProgress.updateWordProgress today1 [e1] db) in
    let db2 :=
      snd (UpdateWordProgress.updateWordProgress today2 [e2] db1) in
    Sql.get (Sql.english_is k) db1
      = Some (mkWord k (cantonese_jyutping w) today1 (Some (n + 1)%Z))
    /\ Sql.get (Sql.english_is k) db2
       = Some (mkWord k (cantonese_jyutping w) today2 (Some n))
    /\ Sql.get (Sql.english_is k)
         (snd (UpdateWordProgress.updateWordProgress today1 [e1; e2] db))
       = Some (mkWord k (cantonese_jyutping w) today1 (Some n)).
Proof.
  intros today1 today2 db e1 e2 q1 q2 k w n Hs1 Ht1 Hs2 Ht2 Hf1 Hf2 Hk Hw Hn
         Hle.
  assert (Htk : truthy k = true)
    by (destruct k; [contradiction | reflexivity]).
  assert (Hsafe : (n + 1 <= 2 ^ 53)%Z)
    by (unfold Js.MAX_SAFE_INTEGER in Hle; lia).
  assert (Hup : UpdateWordProgress.newProficiency true n = (n + 1)%Z)
    by (apply (newProficiency_safe true), Hle).
  assert (Hdown : UpdateWordProgress.newProficiency false (n + 1) = n).
  { rewrite newProficiency_fail by lia. lia. }
  cbv zeta. rewrite !updateWordProgress_store.
  rewrite !runLoop_one, runLoop_two.
  set (st0 := (db, @nil UpdateWordProgress.UpdatedWord,
               @nil UpdateWordProgress.FailedWord)).
  assert (H1 := processEntry_resolved today1 st0 e1 q1 k w Hs1 Hf1 Htk Hw).
  rewrite Ht1, Hn in H1. cbn [nullish] in H1. rewrite Hup in H1.
  destruct (H1 ltac:(lia)) as [Hst1 Hg1]. clear H1.
  split; [exact Hg1|].
  set (w1 := mkWord k (cantonese_jyutping w) today1 (Some (n + 1)%Z)) in *.
  assert (Hn1 : ToolUtils.findWordInDatabase
                  (UpdateWordProgress.st_db
                     (UpdateWordProgress.processEntry today1 st0 e1)) q2
                = Some k).
  { rewrite (findWordInDatabase_names _ db); [exact Hf2|].
    apply processEntry_names. }
  split.
  - set (st1 := (UpdateWordProgress.st_db
                   (UpdateWordProgress.processEntry today1 st0 e1),
                 @nil UpdateWordProgress.UpdatedWord,
                 @nil UpdateWordProgress.FailedWord)).
    assert (H2 := processEntry_resolved today2 st1 e2 q2 k w1 Hs2 Hn1 Htk
                    Hg1).
    rewrite Ht2 in H2. unfold w1 in H2. cbn [proficiency_level nullish] in H2.
    rewrite Hdown in H2.
    destruct (H2 ltac:(lia)) as [_ Hg2]. exact Hg2.
  - assert (H2 := processEntry_resolved today1
                    (UpdateWordProgress.processEntry today1 st0 e1)
                    e2 q2 k w1 Hs2 Hn1 Htk Hg1).
    rewrite Ht2 in H2. unfold w1 in H2. cbn [proficiency_level nullish] in H2.
    rewrite Hdown in H2.
    destruct (H2 ltac:(lia)) as [_ Hg2]. exact Hg2.
Qed.

Lemma C8_success_then_failure_restores_level_witness :
  Sql.get (Sql.english_is "stationery shop")
    (snd (UpdateWordProgress.updateWordProgress "2025-06-02"
            [UpdateWordProgress.mkEntry None (Some "zaap6 fo3 pou3") false]
            (snd (UpdateWordProgress.updateWordProgress "2025-06-01"
                    [UpdateWordProgress.mkEntry (Some "Stationery Shop")
                       None true]
                    [cat; stationery]))))
  = Some (mkWord "stationery shop" "sik6 coeng2 / zaap6 fo3 pou3"
            "2025-06-02" (Some 3%Z)).
Proof.
  apply (C8_success_then_failure_restores_level "2025-06-01" "2025-06-02"
           [cat; stationery]
           (UpdateWordProgress.mkEntry (Some "Stationery Shop") None true)
           (UpdateWordProgress.mkEntry None (Some "zaap6 fo3 pou3") false)
           "Stationery Shop" "zaap6 fo3 pou3" "stationery shop"
           stationery 3%Z);
    try reflexivity.
  - discriminate.
  - vm_compute. split; discriminate.
Defined.

Section Batch.

Import ToolUtils UpdateWordProgress.

Lemma fold_counts today ws st :
  List.length (st_updated (fold_left (processEntry today) ws st))
  + List.length (st_failed (fold_left (processEntry today) ws st))
  = List.length (st_updated st) + List.length (st_failed st)
    + List.length ws.
Proof.
  revert st. induction ws as [|e ws IH]; intros st; simpl; [lia|].
  rewrite IH.
  destruct (processEntry_one today st e) as [[f ->] | (l & k & u & _ & ->)];
    unfold pushFailed, st_updated, st_failed; simpl;
    rewrite length_app; simpl; lia.
Qed.

Lemma fold_unresolved today ws st e :
  In e ws ->
  (searchTerm e = None ->
   In (mkFailedWord "undefined" (invalidReason e))
      (st_failed (fold_left (processEntry today) ws st)))
  /\ (forall q, searchTerm e = Some q ->
        findWordInDatabase (st_db st) q = None
        \/ findWordInDatabase (st_db st) q = Some EmptyString ->
        In (mkFailedWord q (notFoundReason q))
           (st_failed (fold_left (processEntry today) ws st))).
Proof.
  revert st. induction ws as [|x ws IH]; intros st Hin; [destruct Hin|].
  simpl. destruct Hin as [-> | Hin].
  - assert (H := processEntry_spec today st e). split.
    + intros Hs. rewrite Hs in H. apply fold_failed_incl. rewrite H.
      unfold pushFailed, st_failed. simpl. apply in_or_app. right.
      left. reflexivity.
    + intros q Hs Hf. rewrite Hs in H. apply fold_failed_incl.
      destruct Hf as [Hf | Hf]; rewrite Hf in H; simpl in H; rewrite H;
        unfold pushFailed, st_failed; simpl; apply in_or_app;
        right; left; reflexivity.
  - destruct (IH (processEntry today st x) Hin) as [H1 H2].
    split; [exact H1|]. intros q Hs Hf. apply (H2 q Hs).
    rewrite (findWordInDatabase_names _ (st_db st)); [exact Hf|].
    apply processEntry_names.
Qed.

Lemma fold_resolved today ws st e q k :
  Forall checkHolds (st_db st) ->
  In e ws ->
  searchTerm e = Some q ->
  findWordInDatabase (st_db st) q = Some k ->
  truthy k = true ->
  exists u, In u (st_updated (fold_left (processEntry today) ws st))
            /\ u_english u = k /\ u_last_practiced_date u = today.
Proof.
  revert st. induction ws as [|x ws IH]; intros st Hc Hin Hs Hf Ht;
    [destruct Hin|].
  simpl. destruct Hin as [-> | Hin].
  - destruct (resolved_is_stored _ _ _ Hf) as [w Hw].
    assert (Hl : (1 <= newProficiency (e_success e)
                         (nullish (proficiency_level w) 1))%Z).
    { apply newProficiency_floor. rewrite Forall_forall in Hc.
      assert (Hcw : checkHolds w) by (apply Hc, (get_english _ _ _ Hw)).
      unfold checkHolds in Hcw.
      destruct (proficiency_level w); simpl; [exact Hcw | lia]. }
    destruct (processEntry_resolved today st e q k w Hs Hf Ht Hw Hl)
      as [Hst _].
    eexists. split.
    + apply fold_updated_incl. rewrite Hst. unfold st_updated. simpl.
      apply in_or_app. right. left. reflexivity.
    + split; reflexivity.
  - apply IH; auto.
    + apply processEntry_check, Hc.
    + rewrite (findWordInDatabase_names _ (st_db st)); [exact Hf|].
      apply processEntry_names.
Qed.

Lemma processEntry_keeps_dated today st e w :
  In w (st_db st) -> last_practiced_date w = today ->
  exists w', In w' (st_db (processEntry today st e))
             /\ english w' = english w /\ last_practiced_date w' = today.
Proof.
  intros Hin Hd.
  destruct (processEntry_one today st e) as [[f ->] | (l & k & u & _ & ->)];
    [eauto|].
  exists (bump today l k w). split; [apply in_map, Hin|].
  unfold bump. destruct (Sql.english_is k w); simpl; auto.
Qed.

Lemma fold_keeps_dated today ws : forall st w,
  In w (st_db st) -> last_practiced_date w = today ->
  exists w', In w' (st_db (fold_left (processEntry today) ws st))
             /\ english w' = english w /\ last_practiced_date w' = today.
Proof.
  induction ws as [|e ws IH]; intros st w Hin Hd; simpl; [eauto|].
  destruct (processEntry_keeps_dated today st e w Hin Hd)
    as (w1 & Hin1 & He1 & Hd1).
  destruct (IH _ w1 Hin1 Hd1) as (w2 & Hin2 & He2 & Hd2).
  exists w2. repeat split; congruence.
Qed.

(** A word some entry of the batch resolves to is dated today after the
    batch. *)
Lemma fold_dates_resolved today ws : forall st e q k,
  Forall checkHolds (st_db st) ->
  In e ws -> searchTerm e = Some q ->
  findWordInDatabase (st_db st) q = Some k ->
  truthy k = true ->
  exists w', In w' (st_db (fold_left (processEntry today) ws st))
             /\ english w' = k /\ last_practiced_date w' = today.
Proof.
  induction ws as [|x ws IH]; intros st e q k Hc Hin Hs Hf Ht;
    [destruct Hin|].
  simpl. destruct Hin as [-> | Hin].
  - destruct (resolved_is_stored _ _ _ Hf) as [w Hw].
    assert (Hl : (1 <= newProficiency (e_success e)
                         (nullish (proficiency_level w) 1))%Z).
    { apply newProficiency_floor. rewrite Forall_forall in Hc.
      assert (Hcw : checkHolds w) by (apply Hc, (get_english _ _ _ Hw)).
      unfold checkHolds in Hcw.
      destruct (proficiency_level w); simpl; [exact Hcw | lia]. }
    destruct (processEntry_resolved today st e q k w Hs Hf Ht Hw Hl)
      as [_ Hg].
    apply get_english in Hg as [Hg _].
    destruct (fold_keeps_dated today ws _ _ Hg eq_refl)
      as (w' & Hin' & He' & Hd').
    exists w'. auto.
  - apply (IH _ e q k); auto.
    + apply processEntry_check, Hc.
    + rewrite (findWordInDatabase_names _ (st_db st)); [exact Hf|].
      apply processEntry_names.
Qed.

Lemma failedList_loop today ws db r :
  fst (updateWordProgress today ws db) = Returned r ->
  failedList r = st_failed (runLoop today db ws)
  /\ updatedWords r = st_updated (runLoop today db ws).
Proof.
  unfold updateWordProgress. destruct ws as [|e ws].
  - simpl. intros [= <-]. split; reflexivity.
  - cbv zeta. simpl fst. intros [= <-]. unfold failedList. simpl.
    split; [|reflexivity].
    destruct (st_failed (runLoop today db (e :: ws))); reflexivity.
Qed.

End Batch.

(** C3.  For every store and every sequence of entries the batch update
    returns a result (it does not throw), and in that result:
    [success] is [successCount > 0]; every entry is accounted for exactly
    once, in [updatedWords] or in [failedWords]; an entry without a usable
    query text and an entry whose query text is not resolved (the matcher
    answers nothing, or the empty key, which the loop takes for nothing)
    are in [failedWords] with their reason; and, on a store whose rows pass
    the schema's check, every entry whose query text is resolved to a
    non-empty key is processed, whatever happened to the other entries:
    its word is in [updatedWords], and the row of that key in the store
    the batch leaves is dated today. *)
Theorem C3_batch_isolates_failures :
  forall (today : string) (ws : list UpdateWordProgress.Entry) (db : Store),
  exists r,
    UpdateWordProgress.updateWordProgress today ws db
    = (Returned r,
       UpdateWordProgress.st_db (UpdateWordProgress.runLoop today db ws))
    /\ UpdateWordProgress.success r
       = Nat.ltb 0 (List.length (UpdateWordProgress.updatedWords r))
    /\ List.length (UpdateWordProgress.updatedWords r)
       + List.length (UpdateWordProgress.failedList r)
       = List.length ws
    /\ (forall e, In e ws ->
          UpdateWordProgress.searchTerm e = None ->
          In (UpdateWordProgress.mkFailedWord "undefined"
                (UpdateWordProgress.invalidReason e))
             (UpdateWordProgress.failedList r))
    /\ (forall e q, In e ws ->
          UpdateWordProgress.searchTerm e = Some q ->
          ToolUtils.findWordInDatabase db q = None
          \/ ToolUtils.findWordInDatabase db q = Some EmptyString ->
          In (UpdateWordProgress.mkFailedWord q
                (UpdateWordProgress.notFoundReason q))
             (UpdateWordProgress.failedList r))
    /\ (Forall checkHolds db ->
        forall e q k, In e ws ->
          UpdateWordProgress.searchTerm e = Some q ->
          ToolUtils.findWordInDatabase db q = Some k ->
          k <> EmptyString ->
          (exists u, In u (UpdateWordProgress.updatedWords r)
                     /\ UpdateWordProgress.u_english u = k
                     /\ UpdateWordProgress.u_last_practiced_date u = today)
          /\ (exists w,
                In w (snd (UpdateWordProgress.updateWordProgress today ws db))
                /\ english w = k /\ last_practiced_date w = today)).
Proof.
  intros today ws db.
  destruct (UpdateWordProgress.updateWordProgress today ws db) as [o db']
    eqn:E.
  assert (Hdb : db' = UpdateWordProgress.st_db
                        (UpdateWordProgress.runLoop today db ws)).
  { rewrite <- updateWordProgress_store, E. reflexivity. }
  assert (Hr : exists r, o = Returned r
                         /\ UpdateWordProgress.success r
                            = Nat.ltb 0 (List.length
                                 (UpdateWordProgress.updatedWords r))).
  { unfold UpdateWordProgress.updateWordProgress in E.
    destruct ws; injection E as <- _; eexists; split; reflexivity. }
  destruct Hr as (r & -> & Hsucc). exists r.
  assert (Hfst : fst (UpdateWordProgress.updateWordProgress today ws db)
                 = Returned r) by (rewrite E; reflexivity).
  split; [rewrite Hdb; reflexivity|].
  split; [exact Hsucc|].
  destruct (failedList_loop today ws db r Hfst) as [-> ->].
  unfold UpdateWordProgress.runLoop.
  split; [rewrite fold_counts; reflexivity|].
  split; [intros e Hin; apply (fold_unresolved today ws _ e Hin)|].
  split.
  - intros e q Hin Hs Hf.
    apply (proj2 (fold_unresolved today ws _ e Hin) q Hs). exact Hf.
  - intros Hc e q k Hin Hs Hf Hk.
    assert (Ht : truthy k = true)
      by (destruct k; [contradiction | reflexivity]).
    split.
    + apply (fold_resolved today ws _ e q k); auto.
    + simpl snd. rewrite Hdb. unfold UpdateWordProgress.runLoop.
      apply (fold_dates_resolved today ws (db, [], []) e q k); auto.
Qed.

Lemma C3_batch_isolates_failures_witness :
  exists r,
    fst (UpdateWordProgress.updateWordProgress "2025-06-01"
           [UpdateWordProgress.mkEntry (Some "cat") None true;
            UpdateWordProgress.mkEntry (Some "dog") None true;
            UpdateWordProgress.mkEntry None (Some "sik6 coeng2") false]
           [cat; stationery]) = Returned r
    /\ UpdateWordProgress.success r = true
    /\ List.length (UpdateWordProgress.updatedWords r) = 2
    /\ List.length (UpdateWordProgress.failedList r) = 1
    /\ In (UpdateWordProgress.mkFailedWord "dog"
             (UpdateWordProgress.notFoundReason "dog"))
          (UpdateWordProgress.failedList r)
    /\ (exists u, In u (UpdateWordProgress.updatedWords r)
                  /\ UpdateWordProgress.u_english u = "stationery shop"
                  /\ UpdateWordProgress.u_last_practiced_date u
                     = "2025-06-01")
    /\ exists w,
         In w (snd (UpdateWordProgress.updateWordProgress "2025-06-01"
                      [UpdateWordProgress.mkEntry (Some "cat") None true;
                       UpdateWordProgress.mkEntry (Some "dog") None true;
                       UpdateWordProgress.mkEntry None (Some "sik6 coeng2")
                         false]
                      [cat; stationery]))
         /\ english w = "stationery shop"
         /\ last_practiced_date w = "2025-06-01".
Proof.
  destruct (C3_batch_isolates_failures "2025-06-01"
              [UpdateWordProgress.mkEntry (Some "cat") None true;
               UpdateWordProgress.mkEntry (Some "dog") None true;
               UpdateWordProgress.mkEntry None (Some "sik6 coeng2") false]
              [cat; stationery])
    as (r & E & Hs & Hc & _ & Hnf & Hres).
  exists r. rewrite E. split; [reflexivity|].
  assert (Hr : r = match UpdateWordProgress.updateWordProgress "2025-06-01"
              [UpdateWordProgress.mkEntry (Some "cat") None true;
               UpdateWordProgress.mkEntry (Some "dog") None true;
               UpdateWordProgress.mkEntry None (Some "sik6 coeng2") false]
              [cat; stationery] with
                   | (Returned x, _) => x
                   | (Thrown _, _) => r
                   end) by (rewrite E; reflexivity).
  split; [rewrite Hr; reflexivity|].
  split; [rewrite Hr; reflexivity|].
  split; [rewrite Hr; reflexivity|].
  split.
  - apply (Hnf (UpdateWordProgress.mkEntry (Some "dog") None true) "dog").
    + right. left. reflexivity.
    + reflexivity.
    + left. reflexivity.
  - apply (Hres ltac:(repeat constructor; unfold checkHolds; simpl; lia)
             (UpdateWordProgress.mkEntry None (Some "sik6 coeng2") false)
             "sik6 coeng2" "stationery shop").
    + right. right. left. reflexivity.
    + reflexivity.
    + reflexivity.
    + discriminate.
Defined.

(** ** The store: insertion, deletion and the level invariant *)
Section StoreLemmas.

Import OldSystemPrompt.

Lemma key_present_iff (e : string) (db : Store) :
  existsb (Sql.english_is e) db = true <-> In e (map english db).
Proof.
  rewrite existsb_exists, in_map_iff. unfold Sql.english_is.
  split; intros (w & H1 & H2).
  - exists w. apply String.eqb_eq in H2. auto.
  - exists w. split; [exact H2|]. apply String.eqb_eq. exact H1.
Qed.

Lemma insert_present e c d db :
  In e (map english db) -> insert e c d db = inl SQLITE_CONSTRAINT_PRIMARYKEY.
Proof.
  intros H. unfold insert. apply key_present_iff in H. rewrite H.
  reflexivity.
Qed.

Lemma insert_absent e c d db :
  ~ In e (map english db) ->
  insert e c d db = inr (db ++ [mkWord e c d (Some 1%Z)]).
Proof.
  intros H. unfold insert.
  destruct (existsb (Sql.english_is e) db) eqn:E; [|reflexivity].
  apply key_present_iff in E. contradiction.
Qed.

(** After [addNewWord] the store is the old one, or the old one with
    the new row at the end. *)
Lemma addNewWord_store today e c db :
  (In e (map english db) /\ snd (addNewWord today e c db) = db)
  \/ (~ In e (map english db)
      /\ snd (addNewWord today e c db)
         = db ++ [mkWord e c today (Some 1%Z)]).
Proof.
  unfold addNewWord, insert.
  destruct (existsb (Sql.english_is e) db) eqn:E; simpl.
  - left. split; [|reflexivity]. apply key_present_iff. exact E.
  - right. split; [|reflexivity]. intros H. apply key_present_iff in H.
    congruence.
Qed.

Lemma addNewWord_key_present today e c db :
  In e (map english (snd (addNewWord today e c db))).
Proof.
  destruct (addNewWord_store today e c db) as [[H ->] | [_ ->]];
    [exact H|].
  rewrite map_app. apply in_or_app. right. left. reflexivity.
Qed.

Lemma removeWord_store q db :
  snd (removeWord q db) = db
  \/ exists k, snd (removeWord q db) = delete k db.
Proof.
  unfold removeWord.
  destruct (findWordInDatabase db q) as [k|]; [|left; reflexivity].
  destruct (truthy k); cbn [negb]; [|left; reflexivity].
  destruct (Sql.get (Sql.english_is k) db); [|left; reflexivity].
  right. exists k. reflexivity.
Qed.

Lemma step_levels db db' :
  step db db' -> Forall levelAtLeastOne db -> Forall levelAtLeastOne db'.
Proof.
  intros Hstep H. destruct Hstep as [today e c db | today ws db | q db].
  - destruct (addNewWord_store today e c db) as [[_ ->] | [_ ->]];
      [exact H|].
    apply Forall_app. split; [exact H|].
    constructor; [|constructor]. exists 1%Z. simpl. split; [reflexivity|lia].
  - rewrite updateWordProgress_store. apply fold_levels. exact H.
  - destruct (removeWord_store q db) as [-> | [k ->]]; [exact H|].
    unfold delete. rewrite Forall_forall in *. intros w Hw.
    apply filter_In in Hw as [Hw _]. auto.
Qed.

Lemma reachable_levels db : reachable db -> Forall levelAtLeastOne db.
Proof.
  induction 1 as [|db db' _ IH Hstep]; [constructor|].
  eapply step_levels; eauto.
Qed.

Lemma failRepeatedly_reachable today q n db :
  reachable db -> reachable (failRepeatedly today q n db).
Proof.
  revert db. induction n as [|n IH]; intros db H; cbn [failRepeatedly];
    [exact H|].
  apply IH. eapply reachable_step; [exact H|]. apply step_update.
Qed.

Lemma findWordInDatabase_truthy db q k :
  ToolUtils.findWordInDatabase db q = Some k -> truthy q = true.
Proof.
  unfold ToolUtils.findWordInDatabase. destruct (truthy q); simpl;
    [reflexivity | discriminate].
Qed.

(** The level of a word after [n] failed attempts, one call each. *)
Lemma failRepeatedly_level today q k n :
  forall db w l,
    ToolUtils.findWordInDatabase db q = Some k ->
    truthy k = true ->
    Sql.get (Sql.english_is k) db = Some w ->
    proficiency_level w = Some l ->
    (1 <= l <= 2 ^ 53)%Z ->
    exists w',
      Sql.get (Sql.english_is k) (failRepeatedly today q n db) = Some w'
      /\ proficiency_level w' = Some (Z.max (l - Z.of_nat n) 1).
Proof.
  induction n as [|n IH]; intros db w l Hf Ht Hw Hl Hle.
  - exists w. split; [exact Hw|]. rewrite Hl. f_equal. simpl. lia.
  - cbn [failRepeatedly]. rewrite updateWordProgress_store, runLoop_one.
    set (e := UpdateWordProgress.mkEntry (Some q) None false).
    set (st0 := (db, @nil UpdateWordProgress.UpdatedWord,
                 @nil UpdateWordProgress.FailedWord)).
    assert (Hs : UpdateWordProgress.searchTerm e = Some q).
    { unfold UpdateWordProgress.searchTerm, UpdateWordProgress.or_else, e.
      simpl. rewrite (findWordInDatabase_truthy _ _ _ Hf).
      rewrite (findWordInDatabase_truthy _ _ _ Hf). reflexivity. }
    assert (H := processEntry_resolved today st0 e q k w Hs Hf Ht Hw).
    rewrite Hl in H. cbn [nullish UpdateWordProgress.e_success e] in H.
    rewrite (newProficiency_fail l Hle) in H.
    destruct (H ltac:(lia)) as [_ Hg]. clear H.
    assert (Hf1 : ToolUtils.findWordInDatabase
                    (UpdateWordProgress.st_db
                       (UpdateWordProgress.processEntry today st0 e)) q
                  = Some k).
    { rewrite (findWordInDatabase_names _ db); [exact Hf|].
      apply processEntry_names. }
    destruct (IH _ _ (Z.max (l - 1) 1) Hf1 Ht Hg eq_refl ltac:(lia))
      as (w' & Hw' & Hl').
    exists w'. split; [exact Hw'|]. rewrite Hl'. f_equal. lia.
Qed.

(** A query that resolves to the empty key changes nothing, however often
    it is tried. *)
Lemma failRepeatedly_empty_key today q n :
  forall db,
    ToolUtils.findWordInDatabase db q = Some EmptyString ->
    failRepeatedly today q n db = db.
Proof.
  induction n as [|n IH]; intros db Hf; [reflexivity|].
  cbn [failRepeatedly]. rewrite updateWordProgress_store, runLoop_one.
  set (e := UpdateWordProgress.mkEntry (Some q) None false).
  assert (Hs : UpdateWordProgress.searchTerm e = Some q).
  { unfold UpdateWordProgress.searchTerm, UpdateWordProgress.or_else, e.
    simpl. rewrite (findWordInDatabase_truthy _ _ _ Hf).
    rewrite (findWordInDatabase_truthy _ _ _ Hf). reflexivity. }
  assert (H := processEntry_spec today
                 (db, @nil UpdateWordProgress.UpdatedWord,
                  @nil UpdateWordProgress.FailedWord) e).
  rewrite Hs in H. unfold UpdateWordProgress.st_db at 1 in H.
  simpl fst in H. rewrite Hf in H. simpl in H. rewrite H.
  unfold UpdateWordProgress.pushFailed, UpdateWordProgress.st_db. simpl.
  apply IH, Hf.
Qed.

(** One iteration keeps the rows well kept: the level written is computed
    from a level between 1 and 2^53 and stays there, and it is never
    written to a row of the empty key. *)
Lemma processEntry_wellKept today st e :
  Forall wellKept (UpdateWordProgress.st_db st) ->
  Forall wellKept
    (UpdateWordProgress.st_db (UpdateWordProgress.processEntry today st e)).
Proof.
  intros Hall. assert (H := processEntry_spec today st e).
  destruct (UpdateWordProgress.searchTerm e) as [q|]; [|rewrite H; exact Hall].
  destruct (ToolUtils.findWordInDatabase (UpdateWordProgress.st_db st) q)
    as [k|]; [|rewrite H; exact Hall].
  destruct (truthy k) eqn:Ht; [|rewrite H; exact Hall].
  destruct H as (w & Hw & H). cbv zeta in H.
  assert (Hwk : wellKept w).
  { rewrite Forall_forall in Hall. apply Hall.
    apply (get_english _ _ _ Hw). }
  destruct Hwk as (n & Hn & Hrange & _).
  rewrite Hn in H. cbn [nullish] in H.
  assert (Hnew := newProficiency_range (UpdateWordProgress.e_success e) n
                    Hrange).
  destruct (UpdateWordProgress.newProficiency
              (UpdateWordProgress.e_success e) n <? 1)%Z;
    rewrite H; [exact Hall|].
  unfold UpdateWordProgress.st_db. simpl. apply Forall_map.
  eapply Forall_impl; [|exact Hall]. intros x Hx.
  unfold UpdateWordProgress.bump, Sql.english_is.
  destruct (String.eqb (english x) k) eqn:E; [|exact Hx].
  apply String.eqb_eq in E.
  eexists. split; [reflexivity|]. split; [exact Hnew|].
  simpl. intros Hempty. rewrite Hempty in E. subst k. discriminate.
Qed.

Lemma fold_wellKept today ws : forall st,
  Forall wellKept (UpdateWordProgress.st_db st) ->
  Forall wellKept
    (UpdateWordProgress.st_db
       (fold_left (UpdateWordProgress.processEntry today) ws st)).
Proof.
  induction ws as [|x ws IH]; intros st Hst; simpl; [exact Hst|].
  apply IH, processEntry_wellKept, Hst.
Qed.

Lemma step_wellKept db db' :
  step db db' -> Forall wellKept db -> Forall wellKept db'.
Proof.
  intros Hstep H. destruct Hstep as [today e c db | today ws db | q db].
  - destruct (addNewWord_store today e c db) as [[_ ->] | [_ ->]];
      [exact H|].
    apply Forall_app. split; [exact H|].
    constructor; [|constructor]. exists 1%Z. simpl.
    split; [reflexivity|]. split; [lia | reflexivity].
  - rewrite updateWordProgress_store. unfold UpdateWordProgress.runLoop.
    apply fold_wellKept. exact H.
  - destruct (removeWord_store q db) as [-> | [k ->]]; [exact H|].
    unfold delete. rewrite Forall_forall in *. intros w Hw.
    apply filter_In in Hw as [Hw _]. auto.
Qed.

Lemma reachable_wellKept db : reachable db -> Forall wellKept db.
Proof.
  induction 1 as [|db db' _ IH Hstep]; [constructor|].
  eapply step_wellKept; eauto.
Qed.

End StoreLemmas.

(** The first rule reads the index: of two stored keys that are equal
    after [TRIM] and [LOWER] the matcher answers with the one that comes
    first in byte order, whatever the order of insertion, and the updater
    writes to that row. *)
Example first_rule_reads_the_index :
  ToolUtils.findWordInDatabase
    [cat; mkWord " Cat" "maau1" "2025-01-01" (Some 1%Z)] "cat"
  = Some " Cat"
  /\ (let db :=
        snd (OldSystemPrompt.addNewWord "2025-01-03" "CAT" "maau1"
               (snd (UpdateWordProgress.updateWordProgress "2025-01-02"
                       [UpdateWordProgress.mkEntry (Some "cat") None true;
                        UpdateWordProgress.mkEntry (Some "cat") None true]
                       (snd (OldSystemPrompt.addNewWord "2025-01-01" "cat"
                               "maau1" []))))) in
      db = [mkWord "cat" "maau1" "2025-01-02" (Some 3%Z);
            mkWord "CAT" "maau1" "2025-01-03" (Some 1%Z)]
      /\ ToolUtils.findWordInDatabase db "Cat" = Some "CAT"
      /\ failRepeatedly "2025-06-01" "Cat" 1 db
         = [mkWord "cat" "maau1" "2025-01-02" (Some 3%Z);
            mkWord "CAT" "maau1" "2025-06-01" (Some 1%Z)]).
Proof. split; [|cbv zeta; split; [|split]]; reflexivity. Qed.

(** C2.  In every store reachable from the empty table by [addNewWord],
    [updateWordProgress] and [removeWord], every row has a level that is a
    number at least 1, and so has every store one more step away.  The
    level computed by the updater for a stored row of such a store is at
    least 1 for both outcomes, and the level computed for a failure is at
    least 1 whatever the current level: the floor is the updater's own and
    the schema's [CHECK] is never what stops a decrement.  In particular
    any number [n] of failed updates of the same query leaves every level
    at least 1, and the word the query resolves to, of level [l], ends
    with level [max (l - n) 1]. *)
Theorem C2_level_never_below_one :
  forall (db : Store),
    reachable db ->
    Forall levelAtLeastOne db
    /\ (forall db', step db db' -> Forall levelAtLeastOne db')
    /\ (forall w s, In w db ->
          (1 <= UpdateWordProgress.newProficiency s
                  (nullish (proficiency_level w) 1))%Z)
    /\ (forall level, (1 <= UpdateWordProgress.newProficiency false level)%Z)
    /\ (forall today q n,
          Forall levelAtLeastOne (failRepeatedly today q n db))
    /\ (forall today q k w n,
          ToolUtils.findWordInDatabase db q = Some k ->
          Sql.get (Sql.english_is k) db = Some w ->
          exists w' l l',
            proficiency_level w = Some l
            /\ Sql.get (Sql.english_is k) (failRepeatedly today q n db)
               = Some w'
            /\ proficiency_level w' = Some l'
            /\ l' = Z.max (l - Z.of_nat n) 1
            /\ (1 <= l')%Z).
Proof.
  intros db Hr.
  assert (H := reachable_levels db Hr).
  split; [exact H|].
  split; [intros db' Hs; eapply step_levels; eauto|].
  split.
  - intros w s Hin. apply newProficiency_floor.
    rewrite Forall_forall in H. destruct (H w Hin) as (n & -> & Hn). exact Hn.
  - split; [apply newProficiency_fail_floor|].
    split.
    + intros today q n.
      apply reachable_levels, failRepeatedly_reachable, Hr.
    + intros today q k w n Hf Hw.
      assert (Hk := reachable_wellKept db Hr).
      rewrite Forall_forall in Hk.
      destruct (Hk w (proj1 (get_english _ _ _ Hw)))
        as (l & Hl & Hrange & Hempty).
      destruct (truthy k) eqn:Ht.
      * destruct (failRepeatedly_level today q k n db w l Hf Ht Hw Hl Hrange)
          as (w' & Hw' & Hl').
        exists w', l, (Z.max (l - Z.of_nat n) 1).
        repeat split; auto. lia.
      * destruct k; [|discriminate].
        rewrite (failRepeatedly_empty_key today q n db Hf).
        assert (l = 1%Z) by (apply Hempty, (get_english _ _ _ Hw)).
        subst l. exists w, 1%Z, 1%Z.
        split; [exact Hl|]. split; [exact Hw|]. split; [exact Hl|].
        split; lia.
Qed.

Lemma C2_level_never_below_one_witness :
  Forall levelAtLeastOne
    (failRepeatedly "2025-06-02" "maau1" 3
       (snd (OldSystemPrompt.addNewWord "2025-06-01" "cat" "maau1" [])))
  /\ exists w',
       Sql.get (Sql.english_is "cat")
         (failRepeatedly "2025-06-02" "maau1" 3
            (snd (OldSystemPrompt.addNewWord "2025-06-01" "cat" "maau1" [])))
       = Some w'
       /\ proficiency_level w' = Some 1%Z.
Proof.
  destruct (C2_level_never_below_one
              (snd (OldSystemPrompt.addNewWord "2025-06-01" "cat" "maau1" [])))
    as (_ & _ & _ & _ & Hall & Hword).
  - eapply reachable_step; [apply reachable_init | apply step_add].
  - split; [apply Hall|].
    destruct (Hword "2025-06-02" "maau1" "cat"
                (mkWord "cat" "maau1" "2025-06-01" (Some 1%Z)) 3
                eq_refl eq_refl)
      as (w' & l & l' & Hl & Hg & Hl' & Hmax & _).
    exists w'. split; [exact Hg|].
    injection Hl as <-. rewrite Hl', Hmax. reflexivity.
Defined.

(** C6.  A second [addNewWord] with the same key returns a structured
    failure ([success = false], no word, nothing thrown) and leaves the
    store exactly as the first call left it; when the key was new, the
    row created by the first call is still the row of that key, with its
    translation, its date and level 1. *)
Theorem C6_duplicate_insert_rejected :
  forall (today1 today2 e c1 c2 : string) (db : Store),
    let db1 := snd (OldSystemPrompt.addNewWord today1 e c1 db) in
    let second := OldSystemPrompt.addNewWord today2 e c2 db1 in
    (exists r, fst second = Returned r
               /\ OldSystemPrompt.add_success r = false
               /\ OldSystemPrompt.add_word r = None)
    /\ snd second = db1
    /\ (~ In e (map english db) ->
        Sql.get (Sql.english_is e) (snd second)
        = Some (mkWord e c1 today1 (Some 1%Z))).
Proof.
  intros today1 today2 e c1 c2 db db1 second.
  assert (Hin : In e (map english db1))
    by apply addNewWord_key_present.
  assert (Hsec : second
                 = (Returned
                      (OldSystemPrompt.mkAddResult false
                         ("Word " ++ OldSystemPrompt.dq ++ e
                            ++ OldSystemPrompt.dq
                            ++ " already exists in the database.")
                         None), db1)).
  { unfold second, OldSystemPrompt.addNewWord.
    rewrite (insert_present e c2 today2 db1 Hin). reflexivity. }
  rewrite Hsec. simpl.
  split; [eexists; split; [reflexivity|]; split; reflexivity|].
  split; [reflexivity|].
  intros Hnew. unfold db1.
  destruct (addNewWord_store today1 e c1 db) as [[H _] | [_ ->]];
    [contradiction|].
  unfold Sql.get. clear -Hnew.
  induction db as [|w db IH]; simpl.
  - unfold Sql.english_is. simpl. rewrite String.eqb_refl. reflexivity.
  - simpl in Hnew. unfold Sql.english_is at 1.
    destruct (String.eqb (english w) e) eqn:E.
    + apply String.eqb_eq in E. tauto.
    + apply IH. tauto.
Qed.

Lemma C6_duplicate_insert_rejected_witness :
  Sql.get (Sql.english_is "cat")
    (snd (OldSystemPrompt.addNewWord "2025-06-02" "cat" "mau1"
            (snd (OldSystemPrompt.addNewWord "2025-06-01" "cat" "maau1"
                    [stationery]))))
  = Some (mkWord "cat" "maau1" "2025-06-01" (Some 1%Z)).
Proof.
  apply (C6_duplicate_insert_rejected "2025-06-01" "2025-06-02" "cat"
           "maau1" "mau1" [stationery]).
  simpl. intros [H|[]]. discriminate.
Defined.

(** C7, as stated, fails: [addNewWord] with an empty translation, and
    with an empty key as well, is accepted and the row is stored. *)
Lemma C7_counterexample :
  OldSystemPrompt.addNewWord "2025-06-01" "cat" EmptyString []
  = (Returned
       (OldSystemPrompt.mkAddResult true
          ("Word " ++ OldSystemPrompt.dq ++ "cat" ++ OldSystemPrompt.dq
             ++ " () has been added to the vocabulary database.")
          (Some (mkWord "cat" EmptyString "2025-06-01" (Some 1%Z)))),
     [mkWord "cat" EmptyString "2025-06-01" (Some 1%Z)])
  /\ snd (OldSystemPrompt.addNewWord "2025-06-01" EmptyString EmptyString
            [cat])
     = [cat; mkWord EmptyString EmptyString "2025-06-01" (Some 1%Z)].
Proof. split; reflexivity. Qed.

(** C7 (amended).  [addNewWord] takes two strings and makes no test for
    emptiness: for every key that is not stored yet, and every translation,
    empty or not, it returns success and appends the row with exactly that
    key and translation, level 1 and today's date.  A row's translation is
    the string given at its creation, so for every sequence of [addNewWord]
    calls whose translations are all non-empty, on a store without empty
    translations, no row with an empty translation exists afterwards. *)
Theorem C7_add_word_stores_given_translation :
  (forall (today e c : string) (db : Store),
      ~ In e (map english db) ->
      OldSystemPrompt.addNewWord today e c db
      = (Returned
           (OldSystemPrompt.mkAddResult true
              ("Word " ++ OldSystemPrompt.dq ++ e ++ OldSystemPrompt.dq
                 ++ " (" ++ c ++ ") has been added to the vocabulary database.")
              (Some (mkWord e c today (Some 1%Z)))),
         db ++ [mkWord e c today (Some 1%Z)]))
  /\ (forall (calls : list (string * string * string)) (db : Store),
        Forall (fun w => cantonese_jyutping w <> EmptyString) db ->
        Forall (fun call => snd call <> EmptyString) calls ->
        Forall (fun w => cantonese_jyutping w <> EmptyString)
               (addAll calls db)).
Proof.
  split.
  - intros today e c db Hnew. unfold OldSystemPrompt.addNewWord.
    rewrite (insert_absent e c today db Hnew). reflexivity.
  - intros calls. induction calls as [|[[today e] c] calls IH];
      intros db Hdb Hcalls; simpl; [exact Hdb|].
    inversion Hcalls as [|x l Hc Hrest]; subst. apply IH; [|exact Hrest].
    destruct (addNewWord_store today e c db) as [[_ ->] | [_ ->]];
      [exact Hdb|].
    apply Forall_app. split; [exact Hdb|].
    constructor; [exact Hc | constructor].
Qed.

Lemma C7_add_word_stores_given_translation_witness :
  snd (OldSystemPrompt.addNewWord "2025-06-01" "dog" EmptyString [cat])
  = [cat; mkWord "dog" EmptyString "2025-06-01" (Some 1%Z)]
  /\ Forall (fun w => cantonese_jyutping w <> EmptyString)
       (addAll [("2025-06-01", "dog", "gau2"); ("2025-06-02", "cat", "mau1")]
               [cat]).
Proof.
  destruct C7_add_word_stores_given_translation as [H1 H2].
  split.
  - rewrite (H1 "2025-06-01" "dog" EmptyString [cat]); [reflexivity|].
    simpl. intros [H|[]]. discriminate.
  - apply H2; repeat constructor; simpl; discriminate.
Defined.

Lemma addNewWord_absent today e c db :
  ~ In e (map english db) ->
  OldSystemPrompt.addNewWord today e c db
  = (Returned
       (OldSystemPrompt.mkAddResult true
          ("Word " ++ OldSystemPrompt.dq ++ e ++ OldSystemPrompt.dq
             ++ " (" ++ c ++ ") has been added to the vocabulary database.")
          (Some (mkWord e c today (Some 1%Z)))),
     db ++ [mkWord e c today (Some 1%Z)]).
Proof.
  intros Hnew. unfold OldSystemPrompt.addNewWord.
  rewrite (insert_absent e c today db Hnew). reflexivity.
Qed.

(** C10.  The primary key is compared byte by byte.  Let [e] be a stored
    key and [e'] a key that is not stored and differs from [e] only in
    letter case or surrounding blanks (equal after [TRIM] and [LOWER], the
    comparison of the matcher's first rule).  Then [addNewWord] with [e']
    succeeds without a duplicate-key failure and the store then holds both
    keys; yet both rows pass the matcher's exact-match test for either
    key, the matcher gives the same answer for [e] and for [e'], and when
    [e] is not blank that answer is one stored key for both. *)
Theorem C10_key_uniqueness_is_byte_exact :
  forall (today e e' c : string) (db : Store),
    In e (map english db) ->
    ~ In e' (map english db) ->
    Sql.LOWER (Sql.TRIM e') = Sql.LOWER (Sql.TRIM e) ->
    let res := OldSystemPrompt.addNewWord today e' c db in
    e' <> e
    /\ (exists r, fst res = Returned r
                  /\ OldSystemPrompt.add_success r = true)
    /\ snd res = db ++ [mkWord e' c today (Some 1%Z)]
    /\ In e (map english (snd res))
    /\ In e' (map english (snd res))
    /\ (forall w, In w (snd res) -> english w = e \/ english w = e' ->
                  ToolUtils.exactEnglish e w = true
                  /\ ToolUtils.exactEnglish e' w = true)
    /\ ToolUtils.findWordInDatabase (snd res) e'
       = ToolUtils.findWordInDatabase (snd res) e
    /\ (truthy (ToolUtils.normalizeWord e) = true ->
        exists k, ToolUtils.findWordInDatabase (snd res) e = Some k
                  /\ ToolUtils.findWordInDatabase (snd res) e' = Some k).
Proof.
  intros today e e' c db Hin Hnew Heq res.
  assert (Hres : res
                 = (Returned
                      (OldSystemPrompt.mkAddResult true
                         ("Word " ++ OldSystemPrompt.dq ++ e'
                            ++ OldSystemPrompt.dq ++ " (" ++ c
                            ++ ") has been added to the vocabulary database.")
                         (Some (mkWord e' c today (Some 1%Z)))),
                    db ++ [mkWord e' c today (Some 1%Z)]))
    by (apply addNewWord_absent; exact Hnew).
  rewrite Hres. simpl.
  split; [intros ->; contradiction|].
  split; [eexists; split; reflexivity|].
  split; [reflexivity|].
  assert (Hin1 : In e (map english (db ++ [mkWord e' c today (Some 1%Z)])))
    by (rewrite map_app; apply in_or_app; left; exact Hin).
  split; [exact Hin1|].
  split; [rewrite map_app; apply in_or_app; right; left; reflexivity|].
  split.
  - intros w _ [Hw | Hw]; unfold ToolUtils.exactEnglish; rewrite Hw;
      rewrite ?Heq, ?String.eqb_refl; split; reflexivity.
  - assert (Hsame := findWordInDatabase_case_blind
                       (db ++ [mkWord e' c today (Some 1%Z)]) e e' Heq).
    split; [exact Hsame|].
    intros Ht. rewrite Hsame.
    unfold ToolUtils.findWordInDatabase.
    rewrite (truthy_normalizeWord e Ht), Ht. simpl.
    destruct (Sql.get (ToolUtils.exactEnglish e)
                (Sql.indexScan (db ++ [mkWord e' c today (Some 1%Z)])))
      as [w|] eqn:E.
    + eauto.
    + exfalso. apply in_map_iff in Hin1 as (w & Hw & Hwin).
      apply (get_index_none _ _ E) in Hwin.
      unfold ToolUtils.exactEnglish in Hwin.
      rewrite Hw, String.eqb_refl in Hwin. discriminate.
Qed.

Lemma C10_key_uniqueness_is_byte_exact_witness :
  snd (OldSystemPrompt.addNewWord "2025-06-01" " Cat" "maau1" [cat])
  = [cat; mkWord " Cat" "maau1" "2025-06-01" (Some 1%Z)]
  /\ exists k,
       ToolUtils.findWordInDatabase
         (snd (OldSystemPrompt.addNewWord "2025-06-01" " Cat" "maau1" [cat]))
         "cat" = Some k
       /\ ToolUtils.findWordInDatabase
            (snd (OldSystemPrompt.addNewWord "2025-06-01" " Cat" "maau1"
                    [cat]))
            " Cat" = Some k.
Proof.
  destruct (C10_key_uniqueness_is_byte_exact "2025-06-01" "cat" " Cat"
              "maau1" [cat])
    as (_ & _ & Hs & _ & _ & _ & _ & Hk).
  - left. reflexivity.
  - simpl. intros [H|[]]. discriminate.
  - reflexivity.
  - split; [exact Hs|]. apply Hk; reflexivity.
Defined.

(** ** The random sample *)
Section RandomSample.

Import GetRandomWords.

Lemma insertByKey_perm x l : Permutation (insertByKey x l) (x :: l).
Proof.
  induction l as [|y l IH]; simpl; [reflexivity|].
  destruct (fst x <? fst y)%Z; [reflexivity|].
  rewrite IH. apply perm_swap.
Qed.

Lemma sortByKey_perm l : Permutation (sortByKey l) l.
Proof.
  induction l as [|x l IH]; simpl; [reflexivity|].
  rewrite insertByKey_perm, IH. reflexivity.
Qed.

Lemma map_snd_combine_same {A B : Type} (l1 : list A) (l2 : list B) :
  List.length l1 = List.length l2 -> map snd (combine l1 l2) = l2.
Proof.
  revert l2. induction l1 as [|a l1 IH]; intros [|b l2] H; simpl in *;
    try discriminate; [reflexivity|].
  f_equal. apply IH. lia.
Qed.

(** [ORDER BY RANDOM()] rearranges the rows of the table. *)
Lemma orderByRandom_perm rnd db : Permutation (orderByRandom rnd db) db.
Proof.
  unfold orderByRandom.
  rewrite (Permutation_map snd (sortByKey_perm _)).
  rewrite map_snd_combine_same; [reflexivity|].
  rewrite length_map, length_seq. reflexivity.
Qed.

Lemma english_view l : map v_english (map view l) = map english l.
Proof. rewrite map_map. reflexivity. Qed.

Lemma NoDup_app_left {A : Type} (l1 l2 : list A) :
  NoDup (l1 ++ l2) -> NoDup l1.
Proof.
  induction l1 as [|a l1 IH]; simpl; intros H; [constructor|].
  inversion H as [|x l Hnin Hnd]; subst. constructor.
  - intros Hin. apply Hnin. apply in_or_app. left. exact Hin.
  - apply IH. exact Hnd.
Qed.

End RandomSample.

(** C9.  For every table and every outcome of the random draws the
    random-sample query returns a result (it does not throw), with [count]
    the number of rows returned.  That number is [min 50 n] for a table of
    [n] rows, so at most 50.  The rows are drawn without replacement: the
    rows returned, together with the rows left out, are a rearrangement of
    the table, and no key is returned twice when the keys of the table are
    distinct.  When the table has at most 50 rows the result is a
    rearrangement of the whole table, and on the empty table it is the
    empty list. *)
Theorem C9_random_sample :
  forall (rnd : nat -> Z) (db : Store),
  exists r,
    GetRandomWords.getRandomWords rnd db = Returned r
    /\ GetRandomWords.count r = List.length (GetRandomWords.words r)
    /\ List.length (GetRandomWords.words r) = Nat.min 50 (List.length db)
    /\ List.length (GetRandomWords.words r) <= 50
    /\ (exists rest,
          Permutation (GetRandomWords.words r ++ map GetRandomWords.view rest)
                      (map GetRandomWords.view db))
    /\ (NoDup (map english db) ->
        NoDup (map GetRandomWords.v_english (GetRandomWords.words r)))
    /\ (List.length db <= 50 ->
        Permutation (GetRandomWords.words r) (map GetRandomWords.view db))
    /\ (db = [] -> GetRandomWords.words r = []).
Proof.
  intros rnd db. eexists. split; [reflexivity|]. simpl.
  unfold GetRandomWords.selectRandom50.
  assert (Hp := orderByRandom_perm rnd db).
  assert (Hlen : List.length (GetRandomWords.orderByRandom rnd db)
                 = List.length db) by (apply Permutation_length, Hp).
  split; [rewrite length_map; reflexivity|].
  split; [rewrite length_map, length_firstn, Hlen; reflexivity|].
  split; [rewrite length_map, length_firstn; lia|].
  split.
  - exists (skipn 50 (GetRandomWords.orderByRandom rnd db)).
    rewrite <- map_app, firstn_skipn. apply Permutation_map, Hp.
  - split.
    + intros Hnd. rewrite english_view.
      assert (Hnd' : NoDup (map english (GetRandomWords.orderByRandom rnd db))).
      { eapply Permutation_NoDup; [|exact Hnd].
        apply Permutation_map, Permutation_sym, Hp. }
      rewrite <- (firstn_skipn 50 (GetRandomWords.orderByRandom rnd db)) in Hnd'.
      rewrite map_app in Hnd'. apply NoDup_app_left in Hnd'. exact Hnd'.
    + split.
      * intros Hle. rewrite firstn_all2 by lia. apply Permutation_map, Hp.
      * intros ->. reflexivity.
Qed.

Lemma C9_random_sample_witness :
  exists r,
    GetRandomWords.getRandomWords
      (fun i => Z.of_nat ((5 * i + 2) mod 3)) [cat; exam; stationery]
    = Returned r
    /\ Permutation (GetRandomWords.words r)
         (map GetRandomWords.view [cat; exam; stationery])
    /\ NoDup (map GetRandomWords.v_english (GetRandomWords.words r))
    /\ GetRandomWords.words (match GetRandomWords.getRandomWords
                                     (fun _ => 0%Z) [] with
                             | Returned x => x
                             | Thrown _ => r
                             end) = [].
Proof.
  destruct (C9_random_sample (fun i => Z.of_nat ((5 * i + 2) mod 3))
              [cat; exam; stationery])
    as (r & E & _ & _ & _ & _ & Hnd & Hall & _).
  exists r. split; [exact E|].
  split; [apply Hall; simpl; lia|].
  split.
  - apply Hnd. simpl.
    repeat constructor; simpl; intuition discriminate.
  - destruct (C9_random_sample (fun _ => 0%Z) [])
      as (r0 & E0 & _ & _ & _ & _ & _ & _ & Hempty).
    rewrite E0. apply Hempty. reflexivity.
Defined.


(** * Further properties of the code *)

(** ** The matcher of [tools/toolUtils.ts] *)
Section MatcherMore.

Import ToolUtils.

Lemma trimStart_all_space (s : string) :
  (forall c, In c (list_ascii_of_string s) -> Js.is_space c = true) ->
  Js.trimStart s = EmptyString.
Proof.
  induction s as [|c r IH]; simpl; intros H; [reflexivity|].
  rewrite (H c (or_introl eq_refl)). apply IH. intros x Hx. apply H.
  right. exact Hx.
Qed.

Lemma normalizeWord_all_space (s : string) :
  (forall c, In c (list_ascii_of_string s) -> Js.is_space c = true) ->
  normalizeWord s = EmptyString.
Proof.
  intros H. unfold normalizeWord. destruct (truthy s); [|reflexivity].
  simpl. unfold Js.trim at 2. rewrite (trimStart_all_space s H).
  reflexivity.
Qed.

Lemma matchesAny_scanMatch (q : string) (w : Word) :
  matchesAny q w = scanMatch (normalizeWord q) w.
Proof.
  unfold matchesAny.
  destruct (exactEnglish q w || exactCantonese q w) eqn:E;
    [|reflexivity].
  simpl. symmetry. unfold scanMatch.
  rewrite (exact_is_normalized q w E). reflexivity.
Qed.

(** When no row is matched by a part alone, the loop of the older
    matcher and the loop of the newer one stop at the same row. *)
Lemma scan_old_new (nq : string) (db : Store) :
  (forall w, In w db -> partEqual nq w = true ->
             normalizedEqual nq w = true) ->
  scan nq db = OldSystemPrompt.scan nq db.
Proof.
  induction db as [|w db IH]; intros H; [reflexivity|].
  simpl. rewrite !old_normalizeWord_eq.
  assert (Hw := H w (or_introl eq_refl)).
  unfold normalizedEqual in Hw.
  destruct (String.eqb (normalizeWord (english w)) nq); [reflexivity|].
  destruct (String.eqb (normalizeWord (cantonese_jyutping w)) nq);
    [reflexivity|].
  destruct (partEqual nq w).
  - specialize (Hw eq_refl). discriminate.
  - apply IH. intros x Hx. apply H. right. exact Hx.
Qed.

End MatcherMore.

(** X1.  The matcher gives the same answer, on every table, to two
    queries that are equal after [TRIM] and [LOWER]: letter case and
    leading or trailing blanks of the query never change the result. *)
Theorem X1_matcher_ignores_case_and_blanks :
  forall (db : Store) (q q' : string),
    Sql.LOWER (Sql.TRIM q') = Sql.LOWER (Sql.TRIM q) ->
    ToolUtils.findWordInDatabase db q' = ToolUtils.findWordInDatabase db q.
Proof.
  intros db q q' H. apply findWordInDatabase_case_blind. exact H.
Qed.

Lemma X1_matcher_ignores_case_and_blanks_witness :
  ToolUtils.findWordInDatabase [exam; stationery] "  STATIONERY Shop "
  = ToolUtils.findWordInDatabase [exam; stationery] "stationery shop".
Proof.
  apply (X1_matcher_ignores_case_and_blanks [exam; stationery]
           "stationery shop" "  STATIONERY Shop ").
  reflexivity.
Defined.

(** X2.  The matcher answers with a key exactly when the normalized query
    is not empty and some stored row has that normalized key, that
    normalized translation, or that part of its translation: the two
    exact rules never find a row the normalized comparison would not.
    The key it answers with is the key of such a stored row. *)
Theorem X2_matcher_resolves_iff :
  forall (db : Store) (q : string),
    ((exists k, ToolUtils.findWordInDatabase db q = Some k)
     <-> (truthy (ToolUtils.normalizeWord q) = true
          /\ exists w, In w db
                       /\ scanMatch (ToolUtils.normalizeWord q) w = true))
    /\ (forall k, ToolUtils.findWordInDatabase db q = Some k ->
          exists w, In w db /\ english w = k
                    /\ scanMatch (ToolUtils.normalizeWord q) w = true).
Proof.
  intros db q.
  assert (Hsound : forall k, ToolUtils.findWordInDatabase db q = Some k ->
            exists w, In w db /\ english w = k
                      /\ scanMatch (ToolUtils.normalizeWord q) w = true).
  { intros k Hk.
    destruct (findWordInDatabase_sound db q k Hk) as (w & Hin & Hw & Hm).
    exists w. rewrite <- matchesAny_scanMatch. auto. }
  split; [|exact Hsound].
  split.
  - intros [k Hk]. split.
    + unfold ToolUtils.findWordInDatabase in Hk.
      destruct (truthy q); simpl in Hk; [|discriminate].
      destruct (truthy (ToolUtils.normalizeWord q)); simpl in Hk;
        [reflexivity | discriminate].
    + destruct (Hsound k Hk) as (w & Hin & _ & Hm). eauto.
  - intros [Hq (w & Hin & Hm)].
    exact (findWordInDatabase_complete db q w Hq Hin Hm).
Qed.

Lemma X2_matcher_resolves_iff_witness :
  (exists k, ToolUtils.findWordInDatabase [exam; stationery] "Sik6 coeng2"
             = Some k)
  /\ exists w, In w [exam; stationery] /\ english w = "exam"
               /\ scanMatch (ToolUtils.normalizeWord "caak1  jim6 ") w = true.
Proof.
  destruct (X2_matcher_resolves_iff [exam; stationery] "Sik6 coeng2")
    as [[_ H] _].
  destruct (X2_matcher_resolves_iff [exam; stationery] "caak1  jim6 ")
    as [_ H'].
  split.
  - apply H. split; [reflexivity|]. exists stationery.
    split; [right; left; reflexivity | reflexivity].
  - apply H'. reflexivity.
Defined.

(** X3.  A query made only of white space (or empty) is never resolved,
    whatever the table holds. *)
Theorem X3_blank_query_not_found :
  forall (db : Store) (q : string),
    (forall c, In c (list_ascii_of_string q) -> Js.is_space c = true) ->
    ToolUtils.findWordInDatabase db q = None.
Proof.
  intros db q H. unfold ToolUtils.findWordInDatabase.
  rewrite (normalizeWord_all_space q H).
  destruct (truthy q); reflexivity.
Qed.

Lemma X3_blank_query_not_found_witness :
  ToolUtils.findWordInDatabase
    [mkWord " " EmptyString "2025-01-01" (Some 1%Z); cat] "   " = None.
Proof.
  apply X3_blank_query_not_found.
  simpl. intros c [<-|[<-|[<-|[]]]]; reflexivity.
Defined.

(** X4.  The matcher of [tools/toolUtils.ts] and the older matcher of
    [chat/oldSystemPrompt.ts] give the same answer to a query whose
    normalized form is not empty whenever no stored row is matched by a
    part of its translation alone: splitting the translation is the only
    difference between the two on such queries. *)
Theorem X4_matchers_agree_without_part_match :
  forall (db : Store) (q : string),
    truthy (ToolUtils.normalizeWord q) = true ->
    (forall w, In w db ->
       ToolUtils.partEqual (ToolUtils.normalizeWord q) w = true ->
       ToolUtils.normalizedEqual (ToolUtils.normalizeWord q) w = true) ->
    ToolUtils.findWordInDatabase db q
    = OldSystemPrompt.findWordInDatabase db q.
Proof.
  intros db q Hq H.
  unfold ToolUtils.findWordInDatabase, OldSystemPrompt.findWordInDatabase.
  rewrite (truthy_normalizeWord q Hq), Hq. simpl.
  rewrite old_normalizeWord_eq, (scan_old_new _ db H). reflexivity.
Qed.

Lemma X4_matchers_agree_without_part_match_witness :
  ToolUtils.findWordInDatabase [cat; exerciseBook] "Zaap6 fo3"
  = OldSystemPrompt.findWordInDatabase [cat; exerciseBook] "Zaap6 fo3".
Proof.
  apply X4_matchers_agree_without_part_match.
  - reflexivity.
  - intros w [<-|[<-|[]]]; vm_compute; intros; congruence.
Defined.

(** ** The batch update of [tools/updateWordProgress.ts] *)
Section UpdaterMore.

Import ToolUtils UpdateWordProgress.

Lemma resolution_names db db' e :
  map names db = map names db' -> resolution db e = resolution db' e.
Proof.
  intros H. unfold resolution. destruct (searchTerm e); [|reflexivity].
  apply findWordInDatabase_names, H.
Qed.

Lemma updatedKey_names db db' e :
  map names db = map names db' -> updatedKey db e = updatedKey db' e.
Proof.
  intros H. unfold updatedKey. rewrite (resolution_names db db' e H).
  reflexivity.
Qed.

Lemma updatedKey_unresolved db e :
  resolution db e = None -> updatedKey db e = None.
Proof. unfold updatedKey. intros ->. reflexivity. Qed.

(** One iteration: the store is kept, or the rows of the resolved key
    are rewritten. *)
Lemma processEntry_store today st e :
  st_db (processEntry today st e) = st_db st
  \/ exists level k,
       updatedKey (st_db st) e = Some k
       /\ st_db (processEntry today st e)
          = map (bump today level k) (st_db st).
Proof.
  assert (H := processEntry_spec today st e). unfold updatedKey, resolution.
  destruct (searchTerm e) as [q|]; [|rewrite H; left; reflexivity].
  destruct (findWordInDatabase (st_db st) q) as [k|];
    [|rewrite H; left; reflexivity].
  destruct (truthy k); [|rewrite H; left; reflexivity].
  destruct H as (w & Hw & H). cbv zeta in H.
  destruct (newProficiency (e_success e) (nullish (proficiency_level w) 1)
            <? 1)%Z; rewrite H; [left; reflexivity|].
  right. do 2 eexists. split; reflexivity.
Qed.

Lemma bump_other today level k w :
  english w <> k -> bump today level k w = w.
Proof.
  intros H. unfold bump, Sql.english_is.
  destruct (String.eqb (english w) k) eqn:E; [|reflexivity].
  apply String.eqb_eq in E. contradiction.
Qed.

Lemma fold_untouched today ws : forall st i w,
  nth_error (st_db st) i = Some w ->
  (forall e, In e ws -> updatedKey (st_db st) e <> Some (english w)) ->
  nth_error (st_db (fold_left (processEntry today) ws st)) i = Some w.
Proof.
  induction ws as [|e ws IH]; intros st i w Hi Hno; [exact Hi|].
  simpl. apply IH.
  - destruct (processEntry_store today st e) as [-> | (l & k & Hk & ->)];
      [exact Hi|].
    rewrite nth_error_map, Hi. simpl. f_equal. apply bump_other.
    intros <-. apply (Hno e (or_introl eq_refl)). exact Hk.
  - intros x Hx.
    rewrite (updatedKey_names _ (st_db st)) by apply processEntry_names.
    apply Hno. right. exact Hx.
Qed.

Lemma fold_nothing_resolves today ws : forall st,
  (forall e, In e ws -> updatedKey (st_db st) e = None) ->
  st_db (fold_left (processEntry today) ws st) = st_db st
  /\ st_updated (fold_left (processEntry today) ws st) = st_updated st.
Proof.
  induction ws as [|e ws IH]; intros st Hno; [split; reflexivity|].
  simpl.
  assert (He := Hno e (or_introl eq_refl)). unfold updatedKey, resolution in He.
  assert (H := processEntry_spec today st e).
  assert (Hst : exists f, processEntry today st e = pushFailed st f).
  { destruct (searchTerm e) as [q|]; [|eauto].
    destruct (findWordInDatabase (st_db st) q) as [k|]; [|eauto].
    destruct (truthy k); [discriminate | eauto]. }
  destruct Hst as [f ->].
  apply (IH (pushFailed st f)). intros x Hx. apply Hno. right. exact Hx.
Qed.

(** The keys and the query texts reported by the loop, in the order of
    the entries. *)
Lemma fold_reports today ws : forall st,
  Forall checkHolds (st_db st) ->
  map u_english (st_updated (fold_left (processEntry today) ws st))
  = map u_english (st_updated st)
    ++ flat_map (fun e => match updatedKey (st_db st) e with
                          | Some k => [k]
                          | None => []
                          end) ws
  /\ map f_english (st_failed (fold_left (processEntry today) ws st))
     = map f_english (st_failed st)
       ++ flat_map (fun e => match updatedKey (st_db st) e with
                             | Some _ => []
                             | None => [match searchTerm e with
                                        | Some q => q
                                        | None => "undefined"
                                        end]
                             end) ws.
Proof.
  induction ws as [|e ws IH]; intros st Hc; simpl.
  - rewrite !app_nil_r. split; reflexivity.
  - destruct (IH (processEntry today st e) (processEntry_check _ _ _ Hc))
      as [IH1 IH2].
    rewrite IH1, IH2. clear IH IH1 IH2.
    assert (Hext : forall (A : Type) (f g : Entry -> list A),
               (forall x, f x = g x) -> flat_map f ws = flat_map g ws).
    { intros A f g Hfg. induction ws as [|x l IHl]; simpl;
        [reflexivity|]. rewrite Hfg, IHl. reflexivity. }
    rewrite (Hext _ _ (fun x => match updatedKey (st_db st) x with
                                | Some k => [k] | None => [] end))
      by (intros x;
          rewrite (updatedKey_names _ (st_db st)
                     x (processEntry_names today st e)); reflexivity).
    rewrite (Hext _ (fun x => match updatedKey
                                      (st_db (processEntry today st e)) x with
                              | Some _ => []
                              | None => [match searchTerm x with
                                         | Some q => q
                                         | None => "undefined"
                                         end]
                              end)
                  (fun x => match updatedKey (st_db st) x with
                            | Some _ => []
                            | None => [match searchTerm x with
                                       | Some q => q
                                       | None => "undefined"
                                       end]
                            end))
      by (intros x;
          rewrite (updatedKey_names _ (st_db st)
                     x (processEntry_names today st e)); reflexivity).
    clear Hext.
    assert (H := processEntry_spec today st e).
    destruct (searchTerm e) as [q|] eqn:Hs.
    + assert (Hr : updatedKey (st_db st) e
                   = match findWordInDatabase (st_db st) q with
                     | Some k => if truthy k then Some k else None
                     | None => None
                     end)
        by (unfold updatedKey, resolution; rewrite Hs; reflexivity).
      rewrite !Hr.
      destruct (findWordInDatabase (st_db st) q) as [k|] eqn:Ef.
      * destruct (truthy k) eqn:Ht.
        -- destruct H as (w & Hw & H). cbv zeta in H.
           assert (Hl : (1 <= newProficiency (e_success e)
                                (nullish (proficiency_level w) 1))%Z).
           { apply newProficiency_floor. rewrite Forall_forall in Hc.
             assert (Hcw : checkHolds w)
               by (apply Hc, (get_english _ _ _ Hw)).
             unfold checkHolds in Hcw.
             destruct (proficiency_level w); simpl; [exact Hcw | lia]. }
           destruct (newProficiency (e_success e)
                       (nullish (proficiency_level w) 1) <? 1)%Z eqn:E;
             [lia|].
           rewrite H. unfold st_updated, st_failed. simpl.
           rewrite map_app, <- app_assoc. split; reflexivity.
        -- rewrite H. unfold pushFailed, st_updated, st_failed. simpl.
           rewrite map_app, <- app_assoc. split; reflexivity.
      * rewrite H. unfold pushFailed, st_updated, st_failed. simpl.
        rewrite map_app, <- app_assoc. split; reflexivity.
    + assert (Hr : updatedKey (st_db st) e = None)
        by (unfold updatedKey, resolution; rewrite Hs; reflexivity).
      rewrite !Hr.
      rewrite H. unfold pushFailed, st_updated, st_failed. simpl.
      rewrite map_app, <- app_assoc. split; reflexivity.
Qed.

End UpdaterMore.

(** X5.  A batch update never adds, removes or reorders rows and never
    changes a key or a translation; a row whose key is not the key that
    some entry of the batch updates (the matcher's answer for the entry,
    unless that is the empty key) is left exactly as it was, date and
    level included. *)
Theorem X5_update_keeps_other_rows :
  forall (today : string) (ws : list UpdateWordProgress.Entry) (db : Store),
    map names (snd (UpdateWordProgress.updateWordProgress today ws db))
    = map names db
    /\ forall i w,
         nth_error db i = Some w ->
         (forall e, In e ws -> updatedKey db e <> Some (english w)) ->
         nth_error (snd (UpdateWordProgress.updateWordProgress today ws db)) i
         = Some w.
Proof.
  intros today ws db. rewrite updateWordProgress_store.
  split; [apply runLoop_names|].
  intros i w Hi Hno. unfold UpdateWordProgress.runLoop.
  apply fold_untouched; assumption.
Qed.

Lemma X5_update_keeps_other_rows_witness :
  nth_error
    (snd (UpdateWordProgress.updateWordProgress "2025-06-01"
            [UpdateWordProgress.mkEntry (Some "cat") None true;
             UpdateWordProgress.mkEntry (Some "dog") None false]
            [cat; stationery])) 1
  = Some stationery.
Proof.
  apply (X5_update_keeps_other_rows "2025-06-01"
           [UpdateWordProgress.mkEntry (Some "cat") None true;
            UpdateWordProgress.mkEntry (Some "dog") None false]
           [cat; stationery]).
  - reflexivity.
  - intros e [<-|[<-|[]]]; vm_compute; discriminate.
Defined.

(** X6.  A batch in which no entry resolves changes nothing in the table
    and reports [success = false], no updated word and one failed word
    per entry. *)
Theorem X6_unresolved_batch_changes_nothing :
  forall (today : string) (ws : list UpdateWordProgress.Entry) (db : Store),
    (forall e, In e ws -> resolution db e = None) ->
    exists r,
      UpdateWordProgress.updateWordProgress today ws db = (Returned r, db)
      /\ UpdateWordProgress.success r = false
      /\ UpdateWordProgress.updatedWords r = []
      /\ List.length (UpdateWordProgress.failedList r) = List.length ws.
Proof.
  intros today ws db Hno.
  destruct (fold_nothing_resolves today ws (db, [], [])
              (fun e He => updatedKey_unresolved db e (Hno e He)))
    as [Hdb Hup].
  assert (Hcount := fold_counts today ws (db, [], [])).
  fold (UpdateWordProgress.runLoop today db ws) in Hdb, Hup, Hcount.
  simpl in Hdb, Hup, Hcount. rewrite Hup in Hcount. simpl in Hcount.
  unfold UpdateWordProgress.updateWordProgress.
  destruct ws as [|e ws].
  - eexists. repeat split.
  - cbv zeta. rewrite Hdb, Hup. simpl List.length at 1 2.
    eexists. split; [reflexivity|]. simpl.
    split; [reflexivity|]. split; [reflexivity|].
    unfold UpdateWordProgress.failedList. simpl.
    destruct (UpdateWordProgress.st_failed
                (UpdateWordProgress.runLoop today db (e :: ws))) eqn:E;
      simpl in *; [discriminate | exact Hcount].
Qed.

Lemma X6_unresolved_batch_changes_nothing_witness :
  snd (UpdateWordProgress.updateWordProgress "2025-06-01"
         [UpdateWordProgress.mkEntry (Some "dog") None true;
          UpdateWordProgress.mkEntry None None false]
         [cat; stationery])
  = [cat; stationery].
Proof.
  destruct (X6_unresolved_batch_changes_nothing "2025-06-01"
              [UpdateWordProgress.mkEntry (Some "dog") None true;
               UpdateWordProgress.mkEntry None None false]
              [cat; stationery]) as (r & E & _).
  - intros e [<-|[<-|[]]]; reflexivity.
  - rewrite E. reflexivity.
Defined.

(** X7.  On a table whose rows pass the schema's check, the result of a
    batch lists the updated words in the order of the entries that
    resolved to a non-empty key (that key once per such entry, repeated
    entries included) and the failed words in the order of the other
    entries, each under its query text, or under [undefined] when the
    entry had no usable text. *)
Theorem X7_reports_follow_entry_order :
  forall (today : string) (ws : list UpdateWordProgress.Entry) (db : Store),
    Forall checkHolds db ->
    exists r,
      fst (UpdateWordProgress.updateWordProgress today ws db) = Returned r
      /\ map UpdateWordProgress.u_english (UpdateWordProgress.updatedWords r)
         = flat_map (fun e => match updatedKey db e with
                              | Some k => [k]
                              | None => []
                              end) ws
      /\ map UpdateWordProgress.f_english (UpdateWordProgress.failedList r)
         = flat_map (fun e => match updatedKey db e with
                              | Some _ => []
                              | None =>
                                  [match UpdateWordProgress.searchTerm e with
                                   | Some q => q
                                   | None => "undefined"
                                   end]
                              end) ws.
Proof.
  intros today ws db Hc.
  destruct (fold_reports today ws (db, [], []) Hc) as [H1 H2].
  destruct (UpdateWordProgress.updateWordProgress today ws db) as [o db']
    eqn:E.
  assert (Hr : exists r, o = Returned r).
  { unfold UpdateWordProgress.updateWordProgress in E.
    destruct ws; injection E as <- _; eexists; reflexivity. }
  destruct Hr as [r ->]. exists r. split; [reflexivity|].
  assert (Hfst : fst (UpdateWordProgress.updateWordProgress today ws db)
                 = Returned r) by (rewrite E; reflexivity).
  destruct (failedList_loop today ws db r Hfst) as [-> ->].
  split; [exact H1 | exact H2].
Qed.

Lemma X7_reports_follow_entry_order_witness :
  exists r,
    fst (UpdateWordProgress.updateWordProgress "2025-06-01"
           [UpdateWordProgress.mkEntry None (Some "sik6 coeng2") false;
            UpdateWordProgress.mkEntry (Some "dog") None true;
            UpdateWordProgress.mkEntry (Some "Cat") None true;
            UpdateWordProgress.mkEntry (Some "cat") None true]
           [cat; stationery]) = Returned r
    /\ map UpdateWordProgress.u_english (UpdateWordProgress.updatedWords r)
       = ["stationery shop"; "cat"; "cat"]
    /\ map UpdateWordProgress.f_english (UpdateWordProgress.failedList r)
       = ["dog"].
Proof.
  destruct (X7_reports_follow_entry_order "2025-06-01"
              [UpdateWordProgress.mkEntry None (Some "sik6 coeng2") false;
               UpdateWordProgress.mkEntry (Some "dog") None true;
               UpdateWordProgress.mkEntry (Some "Cat") None true;
               UpdateWordProgress.mkEntry (Some "cat") None true]
              [cat; stationery]) as (r & E & H1 & H2).
  - repeat constructor; unfold checkHolds; simpl; lia.
  - exists r. split; [exact E|]. split; [exact H1 | exact H2].
Defined.

Section RepeatedSuccess.

Import ToolUtils UpdateWordProgress.

Lemma fold_repeat_success today e q k :
  searchTerm e = Some q ->
  e_success e = true ->
  truthy k = true ->
  forall n st c l,
    findWordInDatabase (st_db st) q = Some k ->
    Sql.get (Sql.english_is k) (st_db st)
    = Some (mkWord k c today (Some l)) ->
    (1 <= l)%Z ->
    (l + Z.of_nat n <= 2 ^ 53)%Z ->
    Sql.get (Sql.english_is k)
      (st_db (fold_left (processEntry today) (repeat e n) st))
    = Some (mkWord k c today (Some (l + Z.of_nat n)%Z)).
Proof.
  intros Hs Ht Hk. induction n as [|n IH]; intros st c l Hf Hw Hl Hmax.
  - simpl. rewrite Hw, Z.add_0_r. reflexivity.
  - cbn [repeat fold_left].
    assert (H := processEntry_resolved today st e q k _ Hs Hf Hk Hw).
    rewrite Ht in H. cbn [proficiency_level nullish] in H.
    rewrite (newProficiency_safe true l) in H
      by (unfold Js.MAX_SAFE_INTEGER; lia).
    destruct (H ltac:(lia)) as [_ Hg]. clear H.
    replace (l + Z.of_nat (S n))%Z with (l + 1 + Z.of_nat n)%Z by lia.
    rewrite (IH _ c (l + 1)%Z).
    + reflexivity.
    + rewrite (findWordInDatabase_names _ (st_db st)); [exact Hf|].
      apply processEntry_names.
    + exact Hg.
    + lia.
    + lia.
Qed.

End RepeatedSuccess.

(** X8.  Entries of a batch are applied one after the other, without
    merging entries for the same word and without a cap of the code's own
    on the level: a batch that names a word of a non-empty key and of
    level [l >= 1] in [n + 1] successful entries leaves it at level
    [l + n + 1], dated today, as long as the levels on the way are at most
    [MAX_SAFE_INTEGER], where the sum is exact. *)
Theorem X8_repeated_success_accumulates :
  forall (today : string) (db : Store) (e : UpdateWordProgress.Entry)
         (q k : string) (w : Word) (l : Z) (n : nat),
    UpdateWordProgress.searchTerm e = Some q ->
    UpdateWordProgress.e_success e = true ->
    ToolUtils.findWordInDatabase db q = Some k ->
    k <> EmptyString ->
    Sql.get (Sql.english_is k) db = Some w ->
    proficiency_level w = Some l ->
    (1 <= l)%Z ->
    (l + Z.of_nat n <= Js.MAX_SAFE_INTEGER)%Z ->
    Sql.get (Sql.english_is k)
      (snd (UpdateWordProgress.updateWordProgress today (repeat e (S n)) db))
    = Some (mkWord k (cantonese_jyutping w) today
              (Some (l + Z.of_nat (S n))%Z)).
Proof.
  intros today db e q k w l n Hs Ht Hf Hk Hw Hl Hle Hmax.
  assert (Htk : truthy k = true)
    by (destruct k; [contradiction | reflexivity]).
  unfold Js.MAX_SAFE_INTEGER in Hmax.
  rewrite updateWordProgress_store. unfold UpdateWordProgress.runLoop.
  cbn [repeat fold_left].
  set (st0 := (db, @nil UpdateWordProgress.UpdatedWord,
               @nil UpdateWordProgress.FailedWord)).
  assert (H := processEntry_resolved today st0 e q k w Hs Hf Htk Hw).
  rewrite Ht, Hl in H. cbn [nullish] in H.
  rewrite (newProficiency_safe true l) in H
    by (unfold Js.MAX_SAFE_INTEGER; lia).
  destruct (H ltac:(lia)) as [_ Hg]. clear H.
  replace (l + Z.of_nat (S n))%Z with (l + 1 + Z.of_nat n)%Z by lia.
  rewrite (fold_repeat_success today e q k Hs Ht Htk n _
             (cantonese_jyutping w) (l + 1)%Z).
  - reflexivity.
  - rewrite (findWordInDatabase_names _ db); [exact Hf|].
    apply processEntry_names.
  - exact Hg.
  - lia.
  - lia.
Qed.

Lemma X8_repeated_success_accumulates_witness :
  Sql.get (Sql.english_is "stationery shop")
    (snd (UpdateWordProgress.updateWordProgress "2025-06-01"
            (repeat (UpdateWordProgress.mkEntry None (Some "sik6 coeng2") true)
                    4)
            [cat; stationery]))
  = Some (mkWord "stationery shop" "sik6 coeng2 / zaap6 fo3 pou3"
            "2025-06-01" (Some 7%Z)).
Proof.
  apply (X8_repeated_success_accumulates "2025-06-01" [cat; stationery]
           (UpdateWordProgress.mkEntry None (Some "sik6 coeng2") true)
           "sik6 coeng2" "stationery shop" stationery 3%Z 3);
    try reflexivity.
  - discriminate.
  - lia.
  - vm_compute. discriminate.
Defined.

(** ** The store: keys, insertion and deletion *)
Section StoreMore.

Import OldSystemPrompt.

Lemma NoDup_snoc {A : Type} (l : list A) (x : A) :
  NoDup l -> ~ In x l -> NoDup (l ++ [x]).
Proof.
  induction l as [|a l IH]; simpl; intros Hnd Hx.
  - constructor; [intros [] | constructor].
  - inversion Hnd as [|y m Ha Hl]; subst. constructor.
    + intros Hin. apply in_app_or in Hin as [Hin | [-> | []]]; tauto.
    + apply IH; tauto.
Qed.

Lemma NoDup_keys_filter (p : Word -> bool) (db : Store) :
  NoDup (map english db) -> NoDup (map english (filter p db)).
Proof.
  induction db as [|w db IH]; simpl; intros H; [constructor|].
  inversion H as [|x l Hw Hdb]; subst.
  destruct (p w); simpl; [|auto].
  constructor; [|auto].
  intros Hin. apply Hw. apply in_map_iff in Hin as (y & Hy & Hin).
  apply filter_In in Hin as [Hin _]. apply in_map_iff. eauto.
Qed.

Lemma english_of_names (db : Store) :
  map english db = map fst (map names db).
Proof. rewrite map_map. reflexivity. Qed.

Lemma step_keys db db' :
  step db db' -> NoDup (map english db) -> NoDup (map english db').
Proof.
  intros Hstep H. destruct Hstep as [today e c db | today ws db | q db].
  - destruct (addNewWord_store today e c db) as [[_ ->] | [Hnew ->]];
      [exact H|].
    rewrite map_app. simpl. apply NoDup_snoc; assumption.
  - rewrite english_of_names, updateWordProgress_store, runLoop_names,
      <- english_of_names. exact H.
  - destruct (removeWord_store q db) as [-> | [k ->]]; [exact H|].
    apply NoDup_keys_filter, H.
Qed.

Lemma find_app_last (p : Word -> bool) (db : Store) (x : Word) :
  (forall w, In w db -> p w = false) -> p x = true ->
  find p (db ++ [x]) = Some x.
Proof.
  intros Hno Hx. induction db as [|w db IH]; simpl.
  - rewrite Hx. reflexivity.
  - rewrite (Hno w (or_introl eq_refl)). apply IH.
    intros y Hy. apply Hno. right. exact Hy.
Qed.

Lemma filter_all (p : Word -> bool) (db : Store) :
  (forall w, In w db -> p w = true) -> filter p db = db.
Proof.
  induction db as [|w db IH]; simpl; intros H; [reflexivity|].
  rewrite (H w (or_introl eq_refl)). f_equal. apply IH.
  intros y Hy. apply H. right. exact Hy.
Qed.

Lemma exactEnglish_self (e : string) (w : Word) :
  english w = e -> exactEnglish e w = true.
Proof. intros <-. unfold exactEnglish. apply String.eqb_refl. Qed.

End StoreMore.

(** X9.  The keys of the table stay pairwise distinct: in every store
    reachable from the empty table by [addNewWord], [updateWordProgress]
    and [removeWord] no key occurs twice, and every further step keeps it
    so. *)
Theorem X9_keys_stay_distinct :
  forall (db : Store),
    reachable db ->
    NoDup (map english db)
    /\ forall db', step db db' -> NoDup (map english db').
Proof.
  intros db Hr.
  assert (H : NoDup (map english db)).
  { induction Hr as [|db db' _ IH Hstep]; [constructor|].
    eapply step_keys; eauto. }
  split; [exact H|]. intros db' Hs. eapply step_keys; eauto.
Qed.

Lemma X9_keys_stay_distinct_witness :
  NoDup (map english
           (snd (OldSystemPrompt.addNewWord "2025-06-02" "cat" "mau1"
                   (snd (OldSystemPrompt.addNewWord "2025-06-01" "cat"
                           "maau1" []))))).
Proof.
  apply (X9_keys_stay_distinct
           (snd (OldSystemPrompt.addNewWord "2025-06-01" "cat" "maau1" []))).
  - eapply reachable_step; [apply reachable_init | apply step_add].
  - apply step_add.
Defined.

(** X10.  Adding a word under a non-empty key and removing it by its key
    gives the table back unchanged, and [removeWord] reports the pair just
    added, provided no stored key equals the new key after [TRIM] and
    [LOWER] (the first rule of the matcher could otherwise pick that other
    row).  Under the empty key the word is stored and [removeWord] does
    not find it again: it reports a failure and leaves the table as it
    is. *)
Theorem X10_add_then_remove_restores_table :
  forall (today e c : string) (db : Store),
    (e <> EmptyString ->
     (forall w, In w db -> OldSystemPrompt.exactEnglish e w = false) ->
     exists r,
       OldSystemPrompt.removeWord e
         (snd (OldSystemPrompt.addNewWord today e c db))
       = (Returned r, db)
       /\ OldSystemPrompt.rm_success r = true
       /\ OldSystemPrompt.rm_removedWord r = Some (e, c))
    /\ (e = EmptyString ->
        In e (map english (snd (OldSystemPrompt.addNewWord today e c db)))
        /\ exists r,
             OldSystemPrompt.removeWord e
               (snd (OldSystemPrompt.addNewWord today e c db))
             = (Returned r, snd (OldSystemPrompt.addNewWord today e c db))
             /\ OldSystemPrompt.rm_success r = false
             /\ OldSystemPrompt.rm_removedWord r = None).
Proof.
  intros today e c db. split.
  - intros He Hno.
    assert (Hte : truthy e = true)
      by (destruct e; [contradiction | reflexivity]).
    assert (Hkey : forall w, In w db -> Sql.english_is e w = false).
    { intros w Hw. unfold Sql.english_is.
      destruct (String.eqb (english w) e) eqn:E; [|reflexivity].
      apply String.eqb_eq in E.
      specialize (Hno w Hw). rewrite (exactEnglish_self e w E) in Hno.
      discriminate. }
    assert (Hnew : ~ In e (map english db)).
    { intros Hin. apply in_map_iff in Hin as (w & Hw & Hin).
      specialize (Hkey w Hin). unfold Sql.english_is in Hkey.
      rewrite Hw, String.eqb_refl in Hkey. discriminate. }
    rewrite (addNewWord_absent today e c db Hnew). simpl.
    set (row := mkWord e c today (Some 1%Z)).
    assert (Hfind : OldSystemPrompt.findWordInDatabase (db ++ [row]) e
                    = Some e).
    { unfold OldSystemPrompt.findWordInDatabase.
      destruct (get_index_found (OldSystemPrompt.exactEnglish e)
                  (db ++ [row]) row) as [x Hx].
      - apply in_or_app. right. left. reflexivity.
      - apply (exactEnglish_self e row eq_refl).
      - rewrite Hx. apply get_index_some in Hx as (Hin & Hp & _).
        apply in_app_or in Hin as [Hin | [<- | []]]; [|reflexivity].
        rewrite (Hno x Hin) in Hp. discriminate. }
    unfold OldSystemPrompt.removeWord. rewrite Hfind, Hte. cbn [negb].
    unfold Sql.get.
    assert (Hrow : Sql.english_is e row = true)
      by (unfold Sql.english_is; simpl; apply String.eqb_refl).
    rewrite (find_app_last (Sql.english_is e) db row Hkey Hrow).
    assert (Hdel : OldSystemPrompt.delete e (db ++ [row]) = db).
    { unfold OldSystemPrompt.delete. rewrite filter_app. simpl.
      rewrite Hrow. simpl. rewrite app_nil_r. apply filter_all.
      intros w Hw. rewrite (Hkey w Hw). reflexivity. }
    rewrite Hdel. eexists. split; [reflexivity|]. split; reflexivity.
  - intros ->.
    set (db1 := snd (OldSystemPrompt.addNewWord today EmptyString c db)).
    assert (Hin : In EmptyString (map english db1))
      by apply addNewWord_key_present.
    split; [exact Hin|].
    apply in_map_iff in Hin as (w & Hw & Hin).
    assert (Hfind : OldSystemPrompt.findWordInDatabase db1 EmptyString
                    = Some EmptyString).
    { unfold OldSystemPrompt.findWordInDatabase.
      destruct (get_index_found (OldSystemPrompt.exactEnglish EmptyString)
                  db1 w Hin) as [x Hx].
      - unfold OldSystemPrompt.exactEnglish. rewrite Hw. reflexivity.
      - rewrite Hx. apply get_index_some in Hx as (_ & _ & Hleast).
        assert (Hp : OldSystemPrompt.exactEnglish EmptyString w = true)
          by (unfold OldSystemPrompt.exactEnglish; rewrite Hw; reflexivity).
        specialize (Hleast w Hin Hp). rewrite Hw in Hleast.
        destruct (english x); [reflexivity | discriminate]. }
    unfold OldSystemPrompt.removeWord. rewrite Hfind. simpl.
    eexists. split; [reflexivity|]. split; reflexivity.
Qed.

Lemma X10_add_then_remove_restores_table_witness :
  snd (OldSystemPrompt.removeWord "dog"
         (snd (OldSystemPrompt.addNewWord "2025-06-01" "dog" "gau2"
                 [cat; stationery])))
  = [cat; stationery]
  /\ snd (OldSystemPrompt.removeWord EmptyString
            (snd (OldSystemPrompt.addNewWord "2025-06-01" EmptyString "gau2"
                    [cat])))
     = [cat; mkWord EmptyString "gau2" "2025-06-01" (Some 1%Z)].
Proof.
  split.
  - destruct (X10_add_then_remove_restores_table "2025-06-01" "dog" "gau2"
                [cat; stationery]) as [H _].
    destruct H as (r & E & _).
    + discriminate.
    + intros w [<-|[<-|[]]]; reflexivity.
    + rewrite E. reflexivity.
  - destruct (X10_add_then_remove_restores_table "2025-06-01" EmptyString
                "gau2" [cat]) as [_ H].
    destruct (H eq_refl) as (_ & r & E & _).
    rewrite E. reflexivity.
Defined.

Section QueryOrders.

Import SqlOrder.

Lemma leastFirst_spec (x y : Word) :
  GetLeastProficientWord.leastFirst x y = true
  <-> (level x < level y)%Z
      \/ (level x = level y
          /\ String.leb (last_practiced_date x) (last_practiced_date y)
             = true).
Proof.
  unfold GetLeastProficientWord.leastFirst, thenBy, byLevel.
  destruct (Z.compare_spec (level x) (level y)) as [E | E | E]; split;
    intros H; try discriminate; try reflexivity; try tauto; try lia.
  all: destruct H as [H | [H1 H2]]; try lia; try assumption.
Qed.

Lemma leastFirst_total (x y : Word) :
  GetLeastProficientWord.leastFirst x y = false ->
  GetLeastProficientWord.leastFirst y x = true.
Proof.
  intros H. apply leastFirst_spec.
  destruct (Z.compare_spec (level x) (level y)) as [E | E | E].
  - right. split; [lia|]. apply string_leb_total.
    destruct (String.leb (last_practiced_date x) (last_practiced_date y))
      eqn:L; [|reflexivity].
    assert (Hc : GetLeastProficientWord.leastFirst x y = true)
      by (apply leastFirst_spec; right; split; [exact E | exact L]).
    congruence.
  - assert (Hc : GetLeastProficientWord.leastFirst x y = true)
      by (apply leastFirst_spec; left; exact E).
    congruence.
  - left. exact E.
Qed.

Lemma leastFirst_trans (x y z : Word) :
  GetLeastProficientWord.leastFirst x y = true ->
  GetLeastProficientWord.leastFirst y z = true ->
  GetLeastProficientWord.leastFirst x z = true.
Proof.
  rewrite !leastFirst_spec. intros [H1 | [H1 L1]] [H2 | [H2 L2]];
    try (left; lia).
  right. split; [lia|]. eapply string_leb_trans; eauto.
Qed.

Lemma dateThenRandom_spec (x y : Z * Word) :
  OldTools.dateThenRandom x y = true
  <-> String.compare (last_practiced_date (snd x))
                     (last_practiced_date (snd y)) = Lt
      \/ (last_practiced_date (snd x) = last_practiced_date (snd y)
          /\ (fst x <= fst y)%Z).
Proof.
  unfold OldTools.dateThenRandom, thenBy, byDate.
  destruct (String.compare (last_practiced_date (snd x))
                           (last_practiced_date (snd y))) eqn:E; split;
    intros H; try discriminate; try reflexivity.
  - right. split; [apply String.compare_eq_iff, E | lia].
  - destruct H as [H | [_ H]]; [discriminate | lia].
  - left. reflexivity.
  - destruct H as [H | [H _]]; [discriminate|].
    rewrite H, string_compare_refl in E. discriminate.
Qed.

Lemma dateThenRandom_total (x y : Z * Word) :
  OldTools.dateThenRandom x y = false ->
  OldTools.dateThenRandom y x = true.
Proof.
  intros H. apply dateThenRandom_spec.
  destruct (String.compare (last_practiced_date (snd x))
                           (last_practiced_date (snd y))) eqn:E.
  - right. apply String.compare_eq_iff in E. split; [auto|].
    destruct (Z.le_gt_cases (fst x) (fst y)) as [L | L]; [|lia].
    assert (Hc : OldTools.dateThenRandom x y = true)
      by (apply dateThenRandom_spec; right; split; assumption).
    congruence.
  - assert (Hc : OldTools.dateThenRandom x y = true)
      by (apply dateThenRandom_spec; left; exact E).
    congruence.
  - left. apply string_compare_gt_lt, E.
Qed.

Lemma dateThenRandom_trans (x y z : Z * Word) :
  OldTools.dateThenRandom x y = true ->
  OldTools.dateThenRandom y z = true ->
  OldTools.dateThenRandom x z = true.
Proof.
  rewrite !dateThenRandom_spec. intros [H1 | [H1 L1]] [H2 | [H2 L2]].
  - left. eapply string_compare_lt_trans; eauto.
  - left. rewrite <- H2. exact H1.
  - left. rewrite H1. exact H2.
  - right. split; [congruence | lia].
Qed.

Lemma dateThenRandom_date (x y : Z * Word) :
  OldTools.dateThenRandom x y = true ->
  String.leb (last_practiced_date (snd x)) (last_practiced_date (snd y))
  = true.
Proof.
  rewrite dateThenRandom_spec, string_leb_cases. tauto.
Qed.

Lemma StronglySorted_map {X Y : Type} (f : X -> Y)
      (R : X -> X -> Prop) (S : Y -> Y -> Prop) (l : list X) :
  (forall a b, R a b -> S (f a) (f b)) ->
  StronglySorted R l -> StronglySorted S (map f l).
Proof.
  intros HRS. induction 1 as [|a l Hs IH Ha]; simpl; constructor;
    [exact IH|].
  rewrite Forall_forall in *. intros y Hy.
  apply in_map_iff in Hy as (b & <- & Hb). auto.
Qed.

Lemma Permutation_filter_same {X : Type} (p : X -> bool) (l l' : list X) :
  Permutation l l' -> Permutation (filter p l) (filter p l').
Proof.
  induction 1 as [| x l l' _ IH | x y l | l l' l'' _ IH1 _ IH2]; simpl.
  - constructor.
  - destruct (p x); [constructor|]; exact IH.
  - destruct (p x), (p y); try reflexivity. apply perm_swap.
  - etransitivity; eauto.
Qed.

Lemma StronglySorted_filter {X : Type} (R : X -> X -> Prop)
      (p : X -> bool) (l : list X) :
  StronglySorted R l -> StronglySorted R (filter p l).
Proof.
  induction 1 as [|a l Hs IH Ha]; simpl; [constructor|].
  destruct (p a); [|exact IH]. constructor; [exact IH|].
  rewrite Forall_forall in *. intros y Hy.
  apply filter_In in Hy as [Hy _]. auto.
Qed.

(** [Math.min] of the levels is below every level and is one of them. *)
Lemma mathMin_spec (first : Z) (others : list Z) :
  (OldTools.mathMin first others <= first)%Z
  /\ Forall (fun z => (OldTools.mathMin first others <= z)%Z) others
  /\ In (OldTools.mathMin first others) (first :: others).
Proof.
  unfold OldTools.mathMin. revert first.
  induction others as [|z l IH]; intros first; simpl.
  - split; [lia|]. split; [constructor | left; reflexivity].
  - destruct (IH (Z.min first z)) as (H1 & H2 & H3).
    split; [lia|]. split.
    + constructor; [lia | exact H2].
    + destruct H3 as [H3 | H3]; [|right; right; exact H3].
      rewrite <- H3. destruct (Z.min_spec first z) as [[_ ->] | [_ ->]];
        [left | right; left]; reflexivity.
Qed.

End QueryOrders.

(** X11.  [getLeastProficientWord] returns no word exactly on an empty
    table.  Otherwise it returns a stored word such that every stored word
    has a higher level ([NULL] counting as 1), or the same level and a
    date that is not earlier. *)
Theorem X11_least_proficient_is_minimal :
  forall (db : Store),
  exists r,
    GetLeastProficientWord.getLeastProficientWord db = Returned r
    /\ (db = [] -> GetLeastProficientWord.word r = None)
    /\ (db <> [] ->
        exists w,
          In w db
          /\ GetLeastProficientWord.word r = Some (GetRandomWords.view w)
          /\ forall w', In w' db ->
               (SqlOrder.level w < SqlOrder.level w')%Z
               \/ (SqlOrder.level w = SqlOrder.level w'
                   /\ String.leb (last_practiced_date w)
                                 (last_practiced_date w') = true)).
Proof.
  intros db. unfold GetLeastProficientWord.getLeastProficientWord,
    GetLeastProficientWord.selectLeast.
  destruct (SqlOrder.orderBy GetLeastProficientWord.leastFirst db)
    as [|w rest] eqn:E.
  - eexists. split; [reflexivity|]. split; [reflexivity|].
    intros Hne. exfalso.
    assert (Hp := orderBy_perm GetLeastProficientWord.leastFirst db).
    rewrite E in Hp. apply Permutation_nil in Hp. contradiction.
  - eexists. split; [reflexivity|]. split.
    + intros ->. discriminate.
    + intros _.
      destruct (orderBy_head _ leastFirst_total leastFirst_trans db w rest E)
        as [Hin Hmin].
      exists w. split; [exact Hin|]. split; [reflexivity|].
      intros w' Hw'. apply leastFirst_spec, Hmin, Hw'.
Qed.

Lemma X11_least_proficient_is_minimal_witness :
  exists w,
    In w [stationery; cat; exam]
    /\ (forall w', In w' [stationery; cat; exam] ->
          (SqlOrder.level w < SqlOrder.level w')%Z
          \/ (SqlOrder.level w = SqlOrder.level w'
              /\ String.leb (last_practiced_date w)
                            (last_practiced_date w') = true)).
Proof.
  destruct (X11_least_proficient_is_minimal [stationery; cat; exam])
    as (r & _ & _ & H).
  destruct (H ltac:(discriminate)) as (w & Hin & _ & Hmin).
  exists w. split; assumption.
Defined.

(** X12.  [getWordsWithLowestProficiency] on a non-empty table reports
    the least level [m] of the table ([NULL] counting as 1) and returns
    the stored words of level [m], all of them and no other word, oldest
    date first, with [count] their number (at least one).  On an empty
    table it returns no word and no level. *)
Theorem X12_lowest_proficiency_words :
  forall (db : Store),
  exists r,
    OldTools.getWordsWithLowestProficiency db = Returned r
    /\ OldTools.l_count r = List.length (OldTools.l_words r)
    /\ (db = [] ->
        OldTools.l_min_proficiency_level r = None
        /\ OldTools.l_words r = [])
    /\ (db <> [] ->
        exists m,
          OldTools.l_min_proficiency_level r = Some m
          /\ (forall w, In w db -> (m <= SqlOrder.level w)%Z)
          /\ (exists w, In w db /\ SqlOrder.level w = m)
          /\ Permutation (OldTools.l_words r)
               (map GetRandomWords.view
                    (filter (fun w => (SqlOrder.level w =? m)%Z) db))
          /\ OldTools.l_words r <> []
          /\ StronglySorted
               (fun a b =>
                  String.leb (GetRandomWords.v_last_practiced_date a)
                             (GetRandomWords.v_last_practiced_date b) = true)
               (OldTools.l_words r)).
Proof.
  intros db. unfold OldTools.getWordsWithLowestProficiency. cbv zeta.
  assert (Hp := orderBy_perm GetLeastProficientWord.leastFirst db).
  assert (Hs := orderBy_sorted _ leastFirst_total leastFirst_trans db).
  destruct (SqlOrder.orderBy GetLeastProficientWord.leastFirst db)
    as [|w rest] eqn:E.
  - eexists. split; [reflexivity|]. simpl.
    split; [reflexivity|]. split; [auto|].
    intros Hne. exfalso. apply Permutation_nil in Hp. contradiction.
  - eexists. split; [reflexivity|].
    cbn [map OldTools.l_count OldTools.l_words
         OldTools.l_min_proficiency_level].
    split; [rewrite length_map; reflexivity|].
    split; [intros ->; apply Permutation_sym, Permutation_nil in Hp;
            discriminate|].
    intros _.
    set (m := OldTools.mathMin (SqlOrder.level w)
                               (map SqlOrder.level rest)).
    destruct (mathMin_spec (SqlOrder.level w) (map SqlOrder.level rest))
      as (H1 & H2 & H3). fold m in H1, H2, H3.
    exists m. split; [reflexivity|].
    assert (Hall : forall x, In x db -> (m <= SqlOrder.level x)%Z).
    { intros x Hx. apply (Permutation_in _ (Permutation_sym Hp)) in Hx.
      destruct Hx as [<- | Hx]; [exact H1|].
      rewrite Forall_forall in H2. apply H2, in_map, Hx. }
    assert (Hex : exists x, In x (w :: rest) /\ SqlOrder.level x = m).
    { change (SqlOrder.level w :: map SqlOrder.level rest)
        with (map SqlOrder.level (w :: rest)) in H3.
      apply in_map_iff in H3 as (x & Hx & Hin). eauto. }
    split; [exact Hall|].
    split.
    { destruct Hex as (x & Hin & Hx). exists x.
      split; [apply (Permutation_in _ Hp), Hin | exact Hx]. }
    split; [apply Permutation_map, Permutation_filter_same, Hp|].
    split.
    + destruct Hex as (x & Hin & Hx). intros Hnil.
      apply map_eq_nil in Hnil.
      assert (Hf : In x (filter (fun w0 => (SqlOrder.level w0 =? m)%Z)
                                (w :: rest)))
        by (apply filter_In; split; [exact Hin | apply Z.eqb_eq, Hx]).
      rewrite Hnil in Hf. destruct Hf.
    + apply (StronglySorted_map GetRandomWords.view
               (fun a b =>
                  SqlOrder.level a = m /\ SqlOrder.level b = m
                  /\ GetLeastProficientWord.leastFirst a b = true)).
      * intros a b (Ha & Hb & Hab). apply leastFirst_spec in Hab.
        simpl. destruct Hab as [Hab | [_ Hab]]; [lia | exact Hab].
      * clear -Hs. induction Hs as [|a l Hs IH Ha]; simpl; [constructor|].
        destruct (SqlOrder.level a =? m)%Z eqn:Ea; [|exact IH].
        constructor; [exact IH|].
        rewrite Forall_forall in *. intros y Hy.
        apply filter_In in Hy as [Hy Ey].
        apply Z.eqb_eq in Ea, Ey. auto.
Qed.

Lemma X12_lowest_proficiency_words_witness :
  exists r m,
    OldTools.getWordsWithLowestProficiency [stationery; cat; exam]
    = Returned r
    /\ OldTools.l_min_proficiency_level r = Some m
    /\ (forall w, In w [stationery; cat; exam] -> (m <= SqlOrder.level w)%Z)
    /\ OldTools.l_count r = 2.
Proof.
  destruct (X12_lowest_proficiency_words [stationery; cat; exam])
    as (r & E & Hc & _ & H).
  destruct (H ltac:(discriminate)) as (m & Hm & Hall & _).
  exists r, m. split; [exact E|]. split; [exact Hm|]. split; [exact Hall|].
  injection E as <-. reflexivity.
Defined.

(** X13.  The single selection and the set selection agree: on a
    non-empty table the word of [getLeastProficientWord] is one of the
    words of [getWordsWithLowestProficiency], it has the level reported
    there, and no word of that list has an earlier date. *)
Theorem X13_least_word_among_lowest_words :
  forall (db : Store),
    db <> [] ->
    exists r1 r2 v m,
      GetLeastProficientWord.getLeastProficientWord db = Returned r1
      /\ OldTools.getWordsWithLowestProficiency db = Returned r2
      /\ GetLeastProficientWord.word r1 = Some v
      /\ OldTools.l_min_proficiency_level r2 = Some m
      /\ GetRandomWords.v_proficiency_level v = m
      /\ In v (OldTools.l_words r2)
      /\ forall v', In v' (OldTools.l_words r2) ->
           String.leb (GetRandomWords.v_last_practiced_date v)
                      (GetRandomWords.v_last_practiced_date v') = true.
Proof.
  intros db Hne.
  unfold GetLeastProficientWord.getLeastProficientWord,
    GetLeastProficientWord.selectLeast,
    OldTools.getWordsWithLowestProficiency. cbv zeta.
  assert (Hs := orderBy_sorted _ leastFirst_total leastFirst_trans db).
  assert (Hp := orderBy_perm GetLeastProficientWord.leastFirst db).
  destruct (SqlOrder.orderBy GetLeastProficientWord.leastFirst db)
    as [|w rest] eqn:E.
  - apply Permutation_nil in Hp. contradiction.
  - do 4 eexists. split; [reflexivity|]. split; [reflexivity|].
    cbn [map OldTools.l_words GetLeastProficientWord.word
         OldTools.l_min_proficiency_level].
    split; [reflexivity|]. split; [reflexivity|].
    inversion Hs as [|a l _ Hall]; subst. rewrite Forall_forall in Hall.
    assert (Hm : OldTools.mathMin (SqlOrder.level w)
                                  (map SqlOrder.level rest)
                 = SqlOrder.level w).
    { destruct (mathMin_spec (SqlOrder.level w) (map SqlOrder.level rest))
        as (H1 & _ & H3).
      apply Z.le_antisymm; [exact H1|].
      destruct H3 as [<- | H3]; [lia|].
      apply in_map_iff in H3 as (x & <- & Hx).
      specialize (Hall x Hx). apply leastFirst_spec in Hall. lia. }
    rewrite Hm. cbn [filter]. rewrite Z.eqb_refl.
    split; [reflexivity|]. split; [left; reflexivity|].
    intros v' [<- | Hv'].
    + apply string_leb_cases. right. reflexivity.
    + apply in_map_iff in Hv' as (x & <- & Hx).
      apply filter_In in Hx as [Hx Ex]. apply Z.eqb_eq in Ex.
      specialize (Hall x Hx). apply leastFirst_spec in Hall. simpl.
      destruct Hall as [Hall | [_ Hall]]; [lia | exact Hall].
Qed.

Lemma X13_least_word_among_lowest_words_witness :
  exists r1 r2 v,
    GetLeastProficientWord.getLeastProficientWord [stationery; cat; exam]
    = Returned r1
    /\ OldTools.getWordsWithLowestProficiency [stationery; cat; exam]
       = Returned r2
    /\ GetLeastProficientWord.word r1 = Some v
    /\ In v (OldTools.l_words r2).
Proof.
  destruct (X13_least_word_among_lowest_words [stationery; cat; exam])
    as (r1 & r2 & v & m & E1 & E2 & Hv & _ & _ & Hin & _).
  - discriminate.
  - exists r1, r2, v. repeat split; assumption.
Defined.

(** X14.  [getWordsForPractice] in [general_review] mode returns every
    stored word exactly once, whatever the random draws, ordered by date
    with the oldest first, and [count] is the size of the table. *)
Theorem X14_general_review_returns_all_oldest_first :
  forall (sqlDate : string -> option string) (rnd : nat -> Z)
         (today : string) (db : Store),
  exists r,
    OldTools.getWordsForPractice sqlDate rnd today OldTools.general_review db
    = Returned r
    /\ Permutation (OldTools.p_words r) (map GetRandomWords.view db)
    /\ OldTools.p_count r = List.length db
    /\ StronglySorted
         (fun a b =>
            String.leb (GetRandomWords.v_last_practiced_date a)
                       (GetRandomWords.v_last_practiced_date b) = true)
         (OldTools.p_words r).
Proof.
  intros sqlDate rnd today db. eexists. split; [reflexivity|]. simpl.
  unfold OldTools.selectGeneral.
  set (rows := combine (map rnd (seq 0 (List.length db))) db).
  assert (Hrows : map snd rows = db).
  { apply map_snd_combine_same. rewrite length_map, length_seq.
    reflexivity. }
  assert (Hp : Permutation
                 (map snd (SqlOrder.orderBy OldTools.dateThenRandom rows)) db).
  { rewrite <- Hrows. apply Permutation_map, orderBy_perm. }
  split; [apply Permutation_map, Hp|].
  split; [apply Permutation_length, Hp|].
  apply (StronglySorted_map GetRandomWords.view
           (fun a b => String.leb (last_practiced_date a)
                                  (last_practiced_date b) = true));
    [auto|].
  apply (StronglySorted_map snd
           (fun a b => OldTools.dateThenRandom a b = true));
    [apply dateThenRandom_date|].
  apply orderBy_sorted; [apply dateThenRandom_total|].
  apply dateThenRandom_trans.
Qed.

(** X15.  Practising a word does not take it off the review list of the
    same day: after a batch update dated [today] (a valid date) on a
    table that passes the schema's check, [getWordsForPractice] in
    [srs_review] mode for [today] still returns every word of a non-empty
    key that an entry of the batch resolved to, dated [today]. *)
Theorem X15_practised_word_is_still_due :
  forall (sqlDate : string -> option string) (rnd : nat -> Z)
         (today d : string) (ws : list UpdateWordProgress.Entry)
         (db : Store) (e : UpdateWordProgress.Entry) (q k : string),
    Forall checkHolds db ->
    sqlDate today = Some d ->
    In e ws ->
    UpdateWordProgress.searchTerm e = Some q ->
    ToolUtils.findWordInDatabase db q = Some k ->
    k <> EmptyString ->
    exists r v,
      OldTools.getWordsForPractice sqlDate rnd today OldTools.srs_review
        (snd (UpdateWordProgress.updateWordProgress today ws db))
      = Returned r
      /\ In v (OldTools.p_words r)
      /\ GetRandomWords.v_english v = k
      /\ GetRandomWords.v_last_practiced_date v = today.
Proof.
  intros sqlDate rnd today d ws db e q k Hc Hd Hin Hs Hf Hk.
  assert (Ht : truthy k = true)
    by (destruct k; [contradiction | reflexivity]).
  rewrite updateWordProgress_store.
  destruct (fold_dates_resolved today ws (db, [], []) e q k Hc Hin Hs Hf Ht)
    as (w' & Hin' & He' & Hd').
  fold (UpdateWordProgress.runLoop today db ws) in Hin'.
  eexists. exists (GetRandomWords.view w').
  split; [reflexivity|]. simpl.
  split; [|split; [exact He' | exact Hd']].
  apply in_map. unfold OldTools.selectDue.
  apply (Permutation_in _ (Permutation_sym (orderBy_perm _ _))).
  apply filter_In. split; [exact Hin'|].
  unfold OldTools.due. rewrite Hd', Hd.
  apply string_leb_cases. right. reflexivity.
Qed.

Lemma X15_practised_word_is_still_due_witness :
  exists r v,
    OldTools.getWordsForPractice (fun s => Some s) (fun _ => 0%Z)
      "2025-06-01" OldTools.srs_review
      (snd (UpdateWordProgress.updateWordProgress "2025-06-01"
              [UpdateWordProgress.mkEntry (Some "cat") None true]
              [cat; stationery]))
    = Returned r
    /\ In v (OldTools.p_words r)
    /\ GetRandomWords.v_english v = "cat"
    /\ GetRandomWords.v_last_practiced_date v = "2025-06-01".
Proof.
  apply (X15_practised_word_is_still_due (fun s => Some s) (fun _ => 0%Z)
           "2025-06-01" "2025-06-01"
           [UpdateWordProgress.mkEntry (Some "cat") None true]
           [cat; stationery]
           (UpdateWordProgress.mkEntry (Some "cat") None true) "cat" "cat").
  - repeat constructor; unfold checkHolds; simpl; lia.
  - reflexivity.
  - left. reflexivity.
  - reflexivity.
  - reflexivity.
  - discriminate.
Defined.

(** X16.  After the script that sets every date to today, every stored
    word is due: [srs_review] for the same (valid) day returns the whole
    table, each word once. *)
Theorem X16_all_due_after_date_reset :
  forall (sqlDate : string -> option string) (rnd : nat -> Z)
         (today d : string) (db : Store),
    sqlDate today = Some d ->
    exists r,
      OldTools.getWordsForPractice sqlDate rnd today OldTools.srs_review
        (Scripts.updateAllDates today db) = Returned r
      /\ Permutation (OldTools.p_words r)
           (map GetRandomWords.view (Scripts.updateAllDates today db))
      /\ OldTools.p_count r = List.length db.
Proof.
  intros sqlDate rnd today d db Hd. eexists. split; [reflexivity|]. simpl.
  unfold OldTools.selectDue.
  assert (Hall : filter (OldTools.due sqlDate today)
                        (Scripts.updateAllDates today db)
                 = Scripts.updateAllDates today db).
  { apply filter_all. intros w Hw. unfold Scripts.updateAllDates in Hw.
    apply in_map_iff in Hw as (x & <- & _). unfold OldTools.due. simpl.
    rewrite Hd. apply string_leb_cases. right. reflexivity. }
  rewrite Hall. split.
  - apply Permutation_map, orderBy_perm.
  - rewrite (Permutation_length (orderBy_perm _ _)).
    unfold Scripts.updateAllDates. apply length_map.
Qed.

Lemma X16_all_due_after_date_reset_witness :
  exists r,
    OldTools.getWordsForPractice (fun s => Some s) (fun _ => 0%Z)
      "2024-12-31" OldTools.srs_review
      (Scripts.updateAllDates "2024-12-31" [cat; stationery]) = Returned r
    /\ OldTools.p_count r = 2.
Proof.
  destruct (X16_all_due_after_date_reset (fun s => Some s) (fun _ => 0%Z)
              "2024-12-31" "2024-12-31" [cat; stationery] eq_refl)
    as (r & E & _ & Hc).
  exists r. split; assumption.
Defined.

(** ** The scripts: writing and reading the CSV file *)
Section CsvRoundTrip.

Import Scripts.

Lemma append_nil_r (s : string) : (s ++ EmptyString)%string = s.
Proof. induction s as [|c r IH]; simpl; [reflexivity | rewrite IH; reflexivity]. Qed.

Lemma append_assoc (s t u : string) :
  ((s ++ t) ++ u)%string = (s ++ (t ++ u))%string.
Proof. induction s as [|c r IH]; simpl; [reflexivity | rewrite IH; reflexivity]. Qed.

Lemma addChar_append (s : string) (c : ascii) (r : string) :
  (addChar s c ++ r)%string = (s ++ String c r)%string.
Proof. unfold addChar. rewrite append_assoc. reflexivity. Qed.

(** A field written without quotes is read back character by
    character. *)
Lemma parse_plain (a : string) : forall result current rest,
  includes quoteChar a = false -> includes comma a = false ->
  parseCSVLine_from result current false (a ++ rest)
  = parseCSVLine_from result (current ++ a) false rest.
Proof.
  induction a as [|c r IH]; intros result current rest Hq Hc.
  - rewrite append_nil_r. reflexivity.
  - simpl in Hq, Hc. apply orb_false_iff in Hq as [Hq1 Hq2].
    apply orb_false_iff in Hc as [Hc1 Hc2].
    change (String c r ++ rest)%string with (String c (r ++ rest)%string).
    cbn [parseCSVLine_from]. rewrite Hq1, Hc1. simpl.
    rewrite (IH result (addChar current c) rest Hq2 Hc2), addChar_append.
    reflexivity.
Qed.

Lemma parse_open_quote (l : string) result current :
  parseCSVLine_from result current false (String quoteChar l)
  = parseCSVLine_from result current true l.
Proof. destruct l; reflexivity. Qed.

(** Inside quotes, the doubled quotes and the commas of a field are read
    back as the field, up to the closing quote. *)
Lemma parse_quoted (a : string) : forall result current rest,
  (forall r', rest <> String quoteChar r') ->
  parseCSVLine_from result current true
    (doubleQuotes a ++ String quoteChar rest)
  = parseCSVLine_from result (current ++ a) false rest.
Proof.
  induction a as [|c r IH]; intros result current rest Hrest.
  - rewrite append_nil_r. simpl. destruct rest as [|n rest']; [reflexivity|].
    destruct (Ascii.eqb n quoteChar) eqn:E; [|reflexivity].
    apply Ascii.eqb_eq in E. subst. exfalso. apply (Hrest rest').
    reflexivity.
  - cbn [doubleQuotes]. destruct (Ascii.eqb c quoteChar) eqn:E.
    + apply Ascii.eqb_eq in E. subst c.
      change (String quoteChar (String quoteChar (doubleQuotes r))
                ++ String quoteChar rest)%string
        with (String quoteChar
                (String quoteChar
                   (doubleQuotes r ++ String quoteChar rest)%string)).
      cbn [parseCSVLine_from]. rewrite Ascii.eqb_refl. simpl.
      rewrite (IH result (addChar current quoteChar) rest Hrest),
        addChar_append. reflexivity.
    + change (String c (doubleQuotes r) ++ String quoteChar rest)%string
        with (String c (doubleQuotes r ++ String quoteChar rest)%string).
      cbn [parseCSVLine_from]. rewrite E. simpl.
      rewrite andb_false_r.
      rewrite (IH result (addChar current c) rest Hrest), addChar_append.
      reflexivity.
Qed.

Lemma parse_escaped (a : string) result current rest :
  (forall r', rest <> String quoteChar r') ->
  parseCSVLine_from result current false (escapeCSV a ++ rest)
  = parseCSVLine_from result (current ++ a) false rest.
Proof.
  intros Hrest. unfold escapeCSV.
  destruct (includes comma a || includes quoteChar a || includes lineFeed a)
    eqn:E.
  - change (String quoteChar (doubleQuotes a ++ String quoteChar EmptyString)
              ++ rest)%string
      with (String quoteChar
              ((doubleQuotes a ++ String quoteChar EmptyString) ++ rest)%string).
    rewrite parse_open_quote, append_assoc. simpl.
    apply parse_quoted, Hrest.
  - apply orb_false_iff in E as [E _]. apply orb_false_iff in E as [E1 E2].
    apply parse_plain; assumption.
Qed.

Lemma trimStart_idem (s : string) : Js.trimStart (Js.trimStart s) = Js.trimStart s.
Proof.
  induction s as [|c r IH]; simpl; [reflexivity|].
  destruct (Js.is_space c) eqn:E; [exact IH|]. simpl. rewrite E. reflexivity.
Qed.

Lemma trimEnd_idem (s : string) : Js.trimEnd (Js.trimEnd s) = Js.trimEnd s.
Proof.
  induction s as [|c r IH]; simpl; [reflexivity|].
  destruct (Js.trimEnd r) as [|c' t] eqn:E.
  - destruct (Js.is_space c) eqn:S; simpl; [reflexivity|].
    rewrite S. reflexivity.
  - cbn [Js.trimEnd] in *. rewrite IH. reflexivity.
Qed.

Lemma trimStart_trimEnd (s : string) :
  Js.trimStart s = s -> Js.trimStart (Js.trimEnd s) = Js.trimEnd s.
Proof.
  destruct s as [|c r]; [reflexivity|]. intros H.
  destruct (Js.is_space c) eqn:S.
  - exfalso. simpl in H. rewrite S in H.
    assert (L : forall x, String.length (Js.trimStart x) <= String.length x).
    { induction x as [|a x IHx]; simpl; [lia|].
      destruct (Js.is_space a); simpl; lia. }
    specialize (L r). rewrite H in L. simpl in L. lia.
  - rewrite (trimEnd_cons c r S). simpl. rewrite S. reflexivity.
Qed.

Lemma trim_idem (s : string) : Js.trim (Js.trim s) = Js.trim s.
Proof.
  unfold Js.trim.
  rewrite (trimStart_trimEnd (Js.trimStart s) (trimStart_idem s)).
  apply trimEnd_idem.
Qed.

Lemma present_some (x : option string) (s : string) :
  present x = Some s -> x = Some s /\ s <> EmptyString.
Proof.
  unfold present. destruct x as [t|]; [|discriminate].
  destruct t; simpl; [discriminate|]. intros [= <-]. split; [reflexivity|].
  discriminate.
Qed.

End CsvRoundTrip.

(** X17.  What the CSV writer escapes, the CSV reader reads back: for any
    two fields, commas, double quotes and line feeds included, the line
    made of the two escaped fields and a comma is parsed into exactly two
    fields, the originals with surrounding white space trimmed.  For a
    card that the writer keeps, the line it writes is parsed into the
    card's trimmed front and back texts, both non-empty. *)
Theorem X17_csv_escape_parse_round_trip :
  (forall (a b : string),
      Scripts.parseCSVLine
        (Scripts.escapeCSV a ++ String Scripts.comma (Scripts.escapeCSV b))
      = [Js.trim a; Js.trim b])
  /\ (forall (card : Scripts.Card) (row : string),
        Scripts.cardRow card = Some row ->
        exists front back,
          Scripts.frontText card = Some front
          /\ Scripts.backText card = Some back
          /\ Js.trim front <> EmptyString
          /\ Js.trim back <> EmptyString
          /\ Scripts.parseCSVLine row = [Js.trim front; Js.trim back]).
Proof.
  assert (H : forall a b,
             Scripts.parseCSVLine
               (Scripts.escapeCSV a
                  ++ String Scripts.comma (Scripts.escapeCSV b))
             = [Js.trim a; Js.trim b]).
  { intros a b. unfold Scripts.parseCSVLine.
    rewrite parse_escaped.
    - simpl.
      rewrite <- (append_nil_r (Scripts.escapeCSV b)).
      rewrite parse_escaped; [reflexivity|]. intros r'. discriminate.
    - intros r'. discriminate. }
  split; [exact H|].
  intros card row Hrow. unfold Scripts.cardRow in Hrow.
  destruct (Scripts.present (option_map Js.trim (Scripts.frontText card)))
    as [e|] eqn:He; [|discriminate].
  destruct (Scripts.present (option_map Js.trim (Scripts.backText card)))
    as [c|] eqn:Hc; [|discriminate].
  injection Hrow as <-.
  apply present_some in He as [He He'], Hc as [Hc Hc'].
  destruct (Scripts.frontText card) as [front|]; [|discriminate].
  destruct (Scripts.backText card) as [back|]; [|discriminate].
  simpl in He, Hc. injection He as <-. injection Hc as <-.
  exists front, back. repeat split; auto.
  rewrite H, !trim_idem. reflexivity.
Qed.

Lemma X17_csv_escape_parse_round_trip_witness :
  Scripts.parseCSVLine
    (String (ascii_of_nat 34)
       ("to eat, to dine" ++ String (ascii_of_nat 34) ",sik6 faan6"))
  = ["to eat, to dine"; "sik6 faan6"].
Proof.
  destruct X17_csv_escape_parse_round_trip as [_ H].
  destruct (H (Scripts.mkCard (Some " to eat, to dine ") (Some "sik6 faan6 "))
              (String (ascii_of_nat 34)
                 ("to eat, to dine" ++ String (ascii_of_nat 34) ",sik6 faan6"))
              eq_refl)
    as (front & back & Hf & Hb & _ & _ & Hp).
  injection Hf as <-. injection Hb as <-. exact Hp.
Defined.

Section Seeding.

Import Scripts.

Lemma insert_cases e c d db :
  (In e (map english db)
   /\ OldSystemPrompt.insert e c d db
      = inl OldSystemPrompt.SQLITE_CONSTRAINT_PRIMARYKEY)
  \/ (~ In e (map english db)
      /\ OldSystemPrompt.insert e c d db
         = inr (db ++ [mkWord e c d (Some 1%Z)])).
Proof.
  destruct (in_dec String.string_dec e (map english db)) as [H | H].
  - left. split; [exact H | apply insert_present, H].
  - right. split; [exact H | apply insert_absent, H].
Qed.

Lemma truthy_trim (s : string) : truthy (Js.trim s) = true -> truthy s = true.
Proof. destruct s; [discriminate | reflexivity]. Qed.

(** One data line: the table grows by one loaded row with a new key and
    [addedWords] counts it, or the table stays and the line is counted as
    skipped. *)
Lemma seedLine_cases today st line :
  truthy line = true ->
  (seed_db (seedLine today st line) = seed_db st
   /\ addedWords (seedLine today st line) = addedWords st
   /\ skippedWords (seedLine today st line) = S (skippedWords st))
  \/ (exists w,
        seed_db (seedLine today st line) = seed_db st ++ [w]
        /\ loaded today w
        /\ ~ In (english w) (map english (seed_db st))
        /\ addedWords (seedLine today st line) = S (addedWords st)
        /\ skippedWords (seedLine today st line) = skippedWords st).
Proof.
  intros Ht. unfold seedLine. rewrite Ht. cbn [negb].
  destruct (present (nth_error (parseCSVLine line) 0)) as [e|] eqn:He;
    [|left; repeat split].
  destruct (present (nth_error (parseCSVLine line) 1)) as [c|] eqn:Hc;
    [|left; repeat split].
  apply present_some in He as [_ He], Hc as [_ Hc].
  destruct (insert_cases e c today (seed_db st)) as [[_ ->] | [Hnew ->]].
  - left. repeat split.
  - right. eexists. split; [reflexivity|]. simpl.
    split; [repeat split; assumption|]. auto.
Qed.

Lemma seed_fold today lines : forall st,
  Forall (fun line => truthy line = true) lines ->
  NoDup (map english (seed_db st)) ->
  Forall (loaded today) (seed_db st) ->
  addedWords st = List.length (seed_db st) ->
  let st' := fold_left (seedLine today) lines st in
  NoDup (map english (seed_db st'))
  /\ Forall (loaded today) (seed_db st')
  /\ addedWords st' = List.length (seed_db st')
  /\ addedWords st' + skippedWords st'
     = addedWords st + skippedWords st + List.length lines.
Proof.
  induction lines as [|line lines IH]; intros st Hl Hnd Hall Hlen; simpl.
  - repeat split; auto.
  - inversion Hl as [|x l Ht Hl']; subst.
    destruct (seedLine_cases today st line Ht)
      as [(Hdb & Ha & Hs) | (w & Hdb & Hw & Hnew & Ha & Hs)].
    + destruct (IH (seedLine today st line) Hl') as (H1 & H2 & H3 & H4);
        try (rewrite Hdb; assumption); [congruence|].
      repeat split; auto. rewrite H4, Ha, Hs. lia.
    + destruct (IH (seedLine today st line) Hl') as (H1 & H2 & H3 & H4).
      * rewrite Hdb, map_app. simpl. apply NoDup_snoc; assumption.
      * rewrite Hdb. apply Forall_app. split; [exact Hall|].
        constructor; [exact Hw | constructor].
      * rewrite Hdb, Ha, length_app, Hlen. simpl. lia.
      * repeat split; auto. rewrite H4, Ha, Hs. lia.
Qed.

End Seeding.

(** X18.  [seed-db-from-csv] stops on a file without a non-blank line.
    Otherwise the table it builds has pairwise distinct keys and only rows
    of level 1, dated today, with a non-empty key and a non-empty
    translation; [addedWords] is the number of rows of the table, and
    every line after the header is counted once, as added or as
    skipped. *)
Theorem X18_seed_table_is_well_formed :
  forall (today csvContent : string),
    (filter (fun line => truthy (Js.trim line))
            (Scripts.splitLines csvContent) = [] ->
     Scripts.seedDatabaseFromCSV today csvContent = None)
    /\ (forall st,
          Scripts.seedDatabaseFromCSV today csvContent = Some st ->
          NoDup (map english (Scripts.seed_db st))
          /\ Forall (loaded today) (Scripts.seed_db st)
          /\ Scripts.addedWords st = List.length (Scripts.seed_db st)
          /\ S (Scripts.addedWords st + Scripts.skippedWords st)
             = List.length
                 (filter (fun line => truthy (Js.trim line))
                         (Scripts.splitLines csvContent))).
Proof.
  intros today csv. unfold Scripts.seedDatabaseFromCSV. cbv zeta.
  assert (Hl : Forall (fun line => truthy line = true)
                      (filter (fun line => truthy (Js.trim line))
                              (Scripts.splitLines csv))).
  { rewrite Forall_forall. intros x Hx. apply filter_In in Hx as [_ Hx].
    apply truthy_trim, Hx. }
  destruct (filter (fun line => truthy (Js.trim line))
                   (Scripts.splitLines csv)) as [|header dataLines].
  - split; [intros _; reflexivity | discriminate].
  - split; [discriminate|]. intros st [= <-].
    inversion Hl as [|x l _ Hd]; subst.
    destruct (seed_fold today dataLines (Scripts.mkSeedState [] 0 0) Hd
                (NoDup_nil _) (Forall_nil _) eq_refl)
      as (H1 & H2 & H3 & H4).
    split; [exact H1|]. split; [exact H2|]. split; [exact H3|].
    simpl in H4 |- *. lia.
Qed.

Lemma X18_seed_table_is_well_formed_witness :
  exists st,
    Scripts.seedDatabaseFromCSV "2025-06-01"
      (String.concat OldTools.newline
         ["english,cantonese_jyutping"; "cat,maau1"; "   "; "cat,mau1";
          ",x"; "dog , gau2"]) = Some st
    /\ NoDup (map english (Scripts.seed_db st))
    /\ Scripts.addedWords st = 2
    /\ Scripts.skippedWords st = 2.
Proof.
  destruct (X18_seed_table_is_well_formed "2025-06-01"
      (String.concat OldTools.newline
         ["english,cantonese_jyutping"; "cat,maau1"; "   "; "cat,mau1";
          ",x"; "dog , gau2"])) as [_ H].
  eexists. split; [reflexivity|].
  split; [apply (H _ eq_refl)|]. split; reflexivity.
Defined.

Section AddingWords.

Import Scripts.

Lemma collectLine_new set ei ji st line p :
  In p (fst (collectLine set ei ji st line)) ->
  In p (fst st)
  \/ (fst p <> EmptyString /\ snd p <> EmptyString
      /\ ~ In (Js.toLowerCase (fst p)) set).
Proof.
  unfold collectLine. destruct st as [newWords skipped].
  destruct (negb (truthy line)); [auto|].
  destruct (Nat.ltb (List.length (parseCSVLine line)) 2); [auto|].
  destruct (present (fieldAt (parseCSVLine line) ei)) as [e|] eqn:He;
    [|auto].
  destruct (present (fieldAt (parseCSVLine line) ji)) as [c|] eqn:Hc;
    [|auto].
  destruct (existsb (String.eqb (Js.toLowerCase e)) set) eqn:Ex; [auto|].
  simpl. intros Hin. apply in_app_or in Hin as [Hin | [<- | []]]; [auto|].
  right. apply present_some in He as [_ He], Hc as [_ Hc]. simpl.
  split; [exact He|]. split; [exact Hc|].
  intros Hs. assert (Ht : existsb (String.eqb (Js.toLowerCase e)) set = true).
  { apply existsb_exists. exists (Js.toLowerCase e).
    split; [exact Hs | apply String.eqb_refl]. }
  congruence.
Qed.

Lemma collect_fold set ei ji lines : forall st p,
  In p (fst (fold_left (collectLine set ei ji) lines st)) ->
  In p (fst st)
  \/ (fst p <> EmptyString /\ snd p <> EmptyString
      /\ ~ In (Js.toLowerCase (fst p)) set).
Proof.
  induction lines as [|line lines IH]; intros st p Hin; simpl in Hin;
    [auto|].
  destruct (IH _ _ Hin) as [H | H]; [|auto].
  apply collectLine_new in H. exact H.
Qed.

Lemma insert_fold today set (db : Store) words : forall st added,
  add_db st = db ++ added ->
  addedCount st = List.length added ->
  Forall (fun w => loaded today w /\ ~ In (Js.toLowerCase (english w)) set)
         added ->
  Forall (fun p => fst p <> EmptyString /\ snd p <> EmptyString
                   /\ ~ In (Js.toLowerCase (fst p)) set) words ->
  (NoDup (map english db) -> NoDup (map english (add_db st))) ->
  exists added',
    add_db (fold_left (insertWord today) words st) = db ++ added'
    /\ addedCount (fold_left (insertWord today) words st)
       = List.length added'
    /\ Forall (fun w => loaded today w
                        /\ ~ In (Js.toLowerCase (english w)) set) added'
    /\ (NoDup (map english db) ->
        NoDup (map english (add_db (fold_left (insertWord today) words st)))).
Proof.
  induction words as [|[e c] words IH]; intros st added Hdb Hn Hall Hw Hnd.
  - simpl. exists added. auto.
  - cbn [fold_left]. inversion Hw as [|x l (He & Hc & Hs) Hw']; subst.
    simpl in He, Hc, Hs.
    destruct (insert_cases e c today (add_db st)) as [[_ Hi] | [Hnew Hi]].
    + assert (Est : insertWord today st (e, c)
                    = mkAddState (add_db st) (addedCount st)
                        (add_skipped st
                           ++ [(e, "Duplicate key (race condition?)")]))
        by (unfold insertWord; cbn [fst snd]; rewrite Hi; reflexivity).
      rewrite Est. apply (IH _ added); auto.
    + assert (Est : insertWord today st (e, c)
                    = mkAddState (add_db st ++ [mkWord e c today (Some 1%Z)])
                        (S (addedCount st)) (add_skipped st))
        by (unfold insertWord; cbn [fst snd]; rewrite Hi; reflexivity).
      rewrite Est.
      apply (IH _ (added ++ [mkWord e c today (Some 1%Z)])); simpl.
      * rewrite Hdb, app_assoc. reflexivity.
      * rewrite length_app, Hn. simpl. lia.
      * apply Forall_app. split; [exact Hall|].
        constructor; [|constructor]. simpl. split; [|exact Hs].
        repeat split; assumption.
      * exact Hw'.
      * intros H. rewrite map_app. simpl. apply NoDup_snoc; auto.
Qed.

End AddingWords.

(** X19.  [add-new-words] never changes or removes a stored row: the new
    table is the old one followed by the rows it added, [addedCount] of
    them.  Every added row has level 1, today's date, a non-empty key and
    a non-empty translation, and its key in lower case is not the
    lower-cased, trimmed key of a row that was stored before; distinct
    keys stay distinct. *)
Theorem X19_add_new_words_only_appends :
  forall (today csvContent : string) (db : Store) (st : Scripts.AddState),
    Scripts.addNewWords today csvContent db = Some st ->
    exists added,
      Scripts.add_db st = db ++ added
      /\ Scripts.addedCount st = List.length added
      /\ Forall (loaded today) added
      /\ (forall w x, In w added -> In x db ->
            Js.toLowerCase (english w)
            <> Js.trim (Js.toLowerCase (english x)))
      /\ (NoDup (map english db) ->
          NoDup (map english (Scripts.add_db st))).
Proof.
  intros today csv db st. unfold Scripts.addNewWords. cbv zeta.
  destruct (filter (fun line => Nat.ltb 0 (String.length line))
                   (map Js.trim (Scripts.splitLines csv)))
    as [|first rest]; [discriminate|].
  destruct (Scripts.detectColumns (Scripts.parseCSVLine first))
    as [[[ei ji] header]|]; [|discriminate].
  set (set := map (fun w => Js.trim (Js.toLowerCase (english w))) db).
  destruct (fold_left (Scripts.collectLine set ei ji)
                      (if header then tl (first :: rest) else first :: rest)
                      ([], [])) as [newWords skipped] eqn:E.
  intros [= <-].
  assert (Hw : Forall (fun p => fst p <> EmptyString /\ snd p <> EmptyString
                                /\ ~ In (Js.toLowerCase (fst p)) set)
                      newWords).
  { rewrite Forall_forall. intros p Hp.
    assert (Hin : In p (fst (fold_left (Scripts.collectLine set ei ji)
                      (if header then tl (first :: rest) else first :: rest)
                      ([], [])))) by (rewrite E; exact Hp).
    apply collect_fold in Hin as [[] | H]. exact H. }
  destruct (insert_fold today set db newWords
              (Scripts.mkAddState db 0 skipped) [])
    as (added & H1 & H2 & H3 & H4); simpl; auto.
  - rewrite app_nil_r. reflexivity.
  - exists added. split; [exact H1|]. split; [exact H2|].
    rewrite Forall_forall in H3. split; [|split; [|exact H4]].
    + rewrite Forall_forall. intros w Hin. apply H3, Hin.
    + intros w x Hin Hx Heq. apply (proj2 (H3 w Hin)).
      rewrite Heq. unfold set.
      apply (in_map (fun w0 => Js.trim (Js.toLowerCase (english w0)))), Hx.
Qed.

Lemma X19_add_new_words_only_appends_witness :
  exists st,
    Scripts.addNewWords "2025-06-01"
      (String.concat OldTools.newline
         ["English,Jyutping"; "Cat,maau1"; "dog, gau2"; "bird"; "dog,gau2"])
      [cat; stationery] = Some st
    /\ Scripts.add_db st
       = [cat; stationery; mkWord "dog" "gau2" "2025-06-01" (Some 1%Z)]
    /\ Scripts.addedCount st = 1.
Proof.
  eexists. split; [reflexivity|].
  destruct (X19_add_new_words_only_appends "2025-06-01"
      (String.concat OldTools.newline
         ["English,Jyutping"; "Cat,maau1"; "dog, gau2"; "bird"; "dog,gau2"])
      [cat; stationery] _ eq_refl) as (added & H1 & H2 & _).
  split; [reflexivity|]. reflexivity.
Defined.

(** ** The older updater of [chat/oldSystemPrompt.ts] *)
Section OldAndNewUpdater.

Import ToolUtils UpdateWordProgress.


Lemma find_old_new (db : Store) (q : string) :
  truthy (normalizeWord q) = true -> noPartOnly q db ->
  OldSystemPrompt.findWordInDatabase db q = findWordInDatabase db q.
Proof.
  intros Hq H.
  unfold findWordInDatabase, OldSystemPrompt.findWordInDatabase.
  rewrite (truthy_normalizeWord q Hq), Hq. simpl.
  rewrite old_normalizeWord_eq, (scan_old_new _ db H). reflexivity.
Qed.

Lemma noPartOnly_names (q : string) (db db' : Store) :
  map names db' = map names db -> noPartOnly q db -> noPartOnly q db'.
Proof.
  intros Hn H w' Hw'.
  assert (Hin : In (names w') (map names db))
    by (rewrite <- Hn; apply in_map, Hw').
  apply in_map_iff in Hin as (w & Hw & Hin).
  specialize (H w Hin).
  unfold partEqual, jyutpingParts, normalizedEqual in *.
  unfold names in Hw. injection Hw as He Hc. rewrite <- He, <- Hc. exact H.
Qed.

Lemma old_processEntry_eq today st e :
  truthy (normalizeWord (OldUpdater.e_english e)) = true ->
  noPartOnly (OldUpdater.e_english e) (st_db st) ->
  OldUpdater.processEntry today st e
  = processEntry today st (OldUpdater.asNewEntry e).
Proof.
  intros Hq Hno.
  assert (Ht := truthy_normalizeWord _ Hq).
  unfold OldUpdater.processEntry, processEntry, OldUpdater.asNewEntry,
    searchTerm, errorSearchTerm, or_else.
  cbn [e_english e_cantonese_jyutping e_success]. rewrite Ht. cbv zeta.
  rewrite Ht. rewrite (find_old_new _ _ Hq Hno). reflexivity.
Qed.

Lemma old_fold_eq today es : forall st,
  (forall e, In e es ->
     truthy (normalizeWord (OldUpdater.e_english e)) = true
     /\ noPartOnly (OldUpdater.e_english e) (st_db st)) ->
  fold_left (OldUpdater.processEntry today) es st
  = fold_left (processEntry today) (map OldUpdater.asNewEntry es) st.
Proof.
  induction es as [|e es IH]; intros st H; [reflexivity|].
  simpl. destruct (H e (or_introl eq_refl)) as [Hq Hno].
  rewrite (old_processEntry_eq today st e Hq Hno). apply IH.
  intros x Hx. destruct (H x (or_intror Hx)) as [Hq' Hno'].
  split; [exact Hq'|].
  eapply noPartOnly_names; [|exact Hno']. apply processEntry_names.
Qed.

End OldAndNewUpdater.

(** X20.  The older [updateWordProgress] of [chat/oldSystemPrompt.ts] and
    the one of [tools/updateWordProgress.ts] return the same result and
    leave the same table for a batch whose query texts all have a
    non-empty normalized form, on a table where, for each of them, no row
    is matched by a part of its translation alone. *)
Theorem X20_old_and_new_updater_agree :
  forall (today : string) (es : list OldUpdater.Entry) (db : Store),
    (forall e, In e es ->
       truthy (ToolUtils.normalizeWord (OldUpdater.e_english e)) = true
       /\ noPartOnly (OldUpdater.e_english e) db) ->
    OldUpdater.updateWordProgress today es db
    = UpdateWordProgress.updateWordProgress today
        (map OldUpdater.asNewEntry es) db.
Proof.
  intros today es db H.
  unfold OldUpdater.updateWordProgress,
    UpdateWordProgress.updateWordProgress, UpdateWordProgress.runLoop.
  destruct es as [|e es]; [reflexivity|].
  rewrite (old_fold_eq today (e :: es) (db, [], []) H). reflexivity.
Qed.

Lemma X20_old_and_new_updater_agree_witness :
  OldUpdater.updateWordProgress "2025-06-01"
    [OldUpdater.mkEntry "Cat" true; OldUpdater.mkEntry "zaap6 fo3" false;
     OldUpdater.mkEntry "dog" true]
    [cat; exerciseBook]
  = UpdateWordProgress.updateWordProgress "2025-06-01"
      [UpdateWordProgress.mkEntry (Some "Cat") None true;
       UpdateWordProgress.mkEntry (Some "zaap6 fo3") None false;
       UpdateWordProgress.mkEntry (Some "dog") None true]
      [cat; exerciseBook].
Proof.
  apply (X20_old_and_new_updater_agree "2025-06-01"
           [OldUpdater.mkEntry "Cat" true;
            OldUpdater.mkEntry "zaap6 fo3" false;
            OldUpdater.mkEntry "dog" true]
           [cat; exerciseBook]).
  intros e [<-|[<-|[<-|[]]]]; (split; [reflexivity|]);
    intros w [<-|[<-|[]]]; vm_compute; intros; congruence.
Defined.

(** ** The export of [chat/oldSystemPrompt.ts] *)
Section CsvExport.

Import OldTools.

Lemma keyLeb_total (a b : Word) : keyLeb a b = false -> keyLeb b a = true.
Proof. apply string_leb_total. Qed.

Lemma keyLeb_trans (a b c : Word) :
  keyLeb a b = true -> keyLeb b c = true -> keyLeb a c = true.
Proof. apply string_leb_trans. Qed.

Lemma key_injective (l : list Word) (x y : Word) :
  NoDup (map english l) -> In x l -> In y l -> english x = english y ->
  x = y.
Proof.
  induction l as [|a l IH]; simpl; intros Hnd Hx Hy He; [destruct Hx|].
  inversion Hnd as [|k m Ha Hl]; subst.
  destruct Hx as [-> | Hx], Hy as [-> | Hy]; auto.
  - exfalso. apply Ha. rewrite He. apply in_map, Hy.
  - exfalso. apply Ha. rewrite <- He. apply in_map, Hx.
Qed.

(** Rows with distinct keys have one ascending order only. *)
Lemma sorted_unique (l1 : list Word) : forall l2,
  StronglySorted (fun a b => keyLeb a b = true) l1 ->
  StronglySorted (fun a b => keyLeb a b = true) l2 ->
  Permutation l1 l2 -> NoDup (map english l1) -> l1 = l2.
Proof.
  induction l1 as [|a r1 IH]; intros l2 H1 H2 Hp Hnd.
  - apply Permutation_nil in Hp. congruence.
  - destruct l2 as [|b r2];
      [apply Permutation_sym, Permutation_nil in Hp; discriminate|].
    inversion H1 as [|x m Hs1 Ha]; subst.
    inversion H2 as [|x m Hs2 Hb]; subst.
    rewrite Forall_forall in Ha, Hb.
    assert (Hab : a = b).
    { assert (Hbin : In b (a :: r1))
        by (apply (Permutation_in _ (Permutation_sym Hp)); left; reflexivity).
      assert (Hain : In a (b :: r2))
        by (apply (Permutation_in _ Hp); left; reflexivity).
      destruct Hbin as [E | Hbin]; [exact E|].
      destruct Hain as [E | Hain]; [auto|].
      apply (key_injective (a :: r1)); auto;
        [left; reflexivity | right; exact Hbin|].
      apply String.leb_antisym; [apply (Ha b Hbin) | apply (Hb a Hain)]. }
    subst b. f_equal. apply IH; auto.
    + apply Permutation_cons_inv in Hp. exact Hp.
    + inversion Hnd; assumption.
Qed.

End CsvExport.

(** X21.  [getAllWordsCSV] writes one line [english, jyutping] per stored
    row, in ascending order of the keys, and for a table with distinct
    keys the text depends only on which rows are stored, not on the order
    in which they were inserted. *)
Theorem X21_export_is_sorted_and_order_independent :
  forall (db : Store),
    (exists rows,
       Permutation rows db
       /\ StronglySorted
            (fun a b => String.leb (english a) (english b) = true) rows
       /\ OldTools.getAllWordsCSV db
          = String.concat OldTools.newline (map OldTools.csvLine rows))
    /\ (forall db',
          Permutation db db' -> NoDup (map english db) ->
          OldTools.getAllWordsCSV db' = OldTools.getAllWordsCSV db).
Proof.
  intros db. split.
  - exists (OldTools.selectByEnglish db). unfold OldTools.selectByEnglish.
    split; [apply orderBy_perm|]. split; [|reflexivity].
    apply (orderBy_sorted OldTools.keyLeb keyLeb_total keyLeb_trans).
  - intros db' Hp Hnd. unfold OldTools.getAllWordsCSV.
    f_equal. f_equal. unfold OldTools.selectByEnglish.
    symmetry. apply sorted_unique.
    + apply (orderBy_sorted OldTools.keyLeb keyLeb_total keyLeb_trans).
    + apply (orderBy_sorted OldTools.keyLeb keyLeb_total keyLeb_trans).
    + rewrite !orderBy_perm. exact Hp.
    + eapply Permutation_NoDup; [|exact Hnd].
      apply Permutation_map, Permutation_sym, orderBy_perm.
Qed.

Lemma X21_export_is_sorted_and_order_independent_witness :
  OldTools.getAllWordsCSV [stationery; cat; exam]
  = OldTools.getAllWordsCSV [cat; exam; stationery].
Proof.
  apply (X21_export_is_sorted_and_order_independent [cat; exam; stationery]).
  - apply Permutation_sym, (Permutation_cons_append [cat; exam] stationery).
  - simpl. repeat constructor; simpl; intuition discriminate.
Defined.

(** ** From the card decks to the table *)
Section Pipeline.

Import Scripts.

Lemma cardRows_pairs (cards : list Card) :
  cardRows cards = map rowOf (cardPairs cards).
Proof.
  induction cards as [|card rest IH]; simpl; [reflexivity|].
  unfold cardRow.
  destruct (present (option_map Js.trim (frontText card))) as [e|];
    [|exact IH].
  destruct (present (option_map Js.trim (backText card))) as [c|];
    [|exact IH].
  simpl. rewrite IH. reflexivity.
Qed.

Lemma deckRows_pairs (decks : list (option (list Card))) :
  flat_map (fun deck => match deck with
                        | Some cards => cardRows cards
                        | None => []
                        end) decks
  = map rowOf (deckPairs decks).
Proof.
  unfold deckPairs. induction decks as [|[cards|] decks IH]; simpl;
    [reflexivity | | exact IH].
  rewrite map_app, IH, cardRows_pairs. reflexivity.
Qed.

Lemma cardPairs_trimmed (cards : list Card) :
  Forall (fun p => trimmedField (fst p) /\ trimmedField (snd p))
         (cardPairs cards).
Proof.
  induction cards as [|card rest IH]; simpl; [constructor|].
  destruct (present (option_map Js.trim (frontText card))) as [e|] eqn:He;
    [|exact IH].
  destruct (present (option_map Js.trim (backText card))) as [c|] eqn:Hc;
    [|exact IH].
  constructor; [|exact IH].
  apply present_some in He as [He He'], Hc as [Hc Hc'].
  destruct (frontText card) as [f|]; [|discriminate].
  destruct (backText card) as [b|]; [|discriminate].
  simpl in He, Hc. injection He as <-. injection Hc as <-.
  unfold trimmedField. simpl. rewrite !trim_idem. auto.
Qed.

Lemma deckPairs_trimmed (decks : list (option (list Card))) :
  Forall (fun p => trimmedField (fst p) /\ trimmedField (snd p))
         (deckPairs decks).
Proof.
  unfold deckPairs. induction decks as [|[cards|] decks IH]; simpl;
    [constructor | | exact IH].
  apply Forall_app. split; [apply cardPairs_trimmed | exact IH].
Qed.

Lemma includes_append (c : ascii) (s t : string) :
  includes c (s ++ t) = includes c s || includes c t.
Proof.
  induction s as [|x r IH]; simpl; [reflexivity|].
  rewrite IH, orb_assoc. reflexivity.
Qed.

Lemma includes_doubleQuotes (s : string) :
  includes lineFeed (doubleQuotes s) = includes lineFeed s.
Proof.
  induction s as [|x r IH]; simpl; [reflexivity|].
  destruct (Ascii.eqb x quoteChar) eqn:E; simpl; rewrite IH.
  - apply Ascii.eqb_eq in E. subst. reflexivity.
  - reflexivity.
Qed.

Lemma includes_escapeCSV (s : string) :
  includes lineFeed s = false -> includes lineFeed (escapeCSV s) = false.
Proof.
  intros H. unfold escapeCSV.
  destruct (includes comma s || includes quoteChar s || includes lineFeed s);
    [|exact H].
  simpl. rewrite includes_append, includes_doubleQuotes, H. reflexivity.
Qed.

Lemma rowOf_no_lineFeed (p : string * string) :
  includes lineFeed (fst p) = false -> includes lineFeed (snd p) = false ->
  includes lineFeed (rowOf p) = false.
Proof.
  intros H1 H2. unfold rowOf. rewrite includes_append. simpl.
  rewrite (includes_escapeCSV _ H1), (includes_escapeCSV _ H2). reflexivity.
Qed.

(** Splitting what was joined. *)
Lemma splitLines_from_plain (s : string) : forall cur rest,
  includes lineFeed s = false ->
  splitLines_from cur (s ++ rest) = splitLines_from (cur ++ s) rest.
Proof.
  induction s as [|c r IH]; intros cur rest H.
  - rewrite append_nil_r. reflexivity.
  - simpl in H. apply orb_false_iff in H as [H1 H2].
    change (String c r ++ rest)%string with (String c (r ++ rest)%string).
    cbn [splitLines_from]. rewrite H1.
    rewrite (IH _ _ H2), addChar_append. reflexivity.
Qed.

Lemma splitLines_concat (l : list string) : forall first,
  Forall (fun s => includes lineFeed s = false) (first :: l) ->
  splitLines (String.concat (String lineFeed EmptyString) (first :: l))
  = first :: l.
Proof.
  unfold splitLines. induction l as [|x l IH]; intros first H.
  - simpl. inversion H as [|a b Hf _]; subst.
    rewrite <- (append_nil_r first) at 1.
    rewrite (splitLines_from_plain first EmptyString EmptyString Hf).
    reflexivity.
  - inversion H as [|a b Hf Hrest]; subst.
    change (String.concat (String lineFeed EmptyString) (first :: x :: l))
      with (first ++ String lineFeed
                       (String.concat (String lineFeed EmptyString) (x :: l)))%string.
    rewrite (splitLines_from_plain first EmptyString _ Hf).
    cbn [splitLines_from append]. rewrite Ascii.eqb_refl.
    rewrite (IH x Hrest). reflexivity.
Qed.

Lemma startsSolid_truthy_trim (s : string) :
  startsSolid s = true -> truthy (Js.trim s) = true.
Proof.
  destruct s as [|c r]; simpl; [discriminate|]. intros H.
  apply negb_true_iff in H. unfold Js.trim. simpl. rewrite H.
  rewrite (trimEnd_cons c r H). reflexivity.
Qed.

Lemma trimmed_startsSolid (s : string) :
  trimmedField s -> startsSolid s = true.
Proof.
  intros [Ht Hne]. destruct s as [|c r]; [contradiction|]. simpl.
  destruct (Js.is_space c) eqn:E; [|reflexivity]. exfalso.
  unfold Js.trim in Ht. simpl in Ht. rewrite E in Ht.
  assert (L : forall x, String.length (Js.trimStart x) <= String.length x).
  { induction x as [|a x IHx]; simpl; [lia|].
    destruct (Js.is_space a); simpl; lia. }
  assert (L' : forall x, String.length (Js.trimEnd x) <= String.length x).
  { induction x as [|a x IHx]; simpl; [lia|].
    destruct (Js.trimEnd x); destruct (Js.is_space a); simpl in *; lia. }
  assert (H := L' (Js.trimStart r)). rewrite Ht in H. simpl in H.
  specialize (L r). lia.
Qed.

Lemma rowOf_startsSolid (p : string * string) :
  trimmedField (fst p) -> startsSolid (rowOf p) = true.
Proof.
  intros H. apply trimmed_startsSolid in H. unfold rowOf, escapeCSV.
  destruct (includes comma (fst p) || includes quoteChar (fst p)
            || includes lineFeed (fst p)); [reflexivity|].
  destruct (fst p); [discriminate | exact H].
Qed.

(** Reading one written row is one [addNewWord] of its pair. *)
Lemma seedLine_rowOf today st p :
  trimmedField (fst p) -> trimmedField (snd p) ->
  seed_db (seedLine today st (rowOf p))
  = snd (OldSystemPrompt.addNewWord today (fst p) (snd p) (seed_db st))
  /\ addedWords (seedLine today st (rowOf p))
     + skippedWords (seedLine today st (rowOf p))
     = S (addedWords st + skippedWords st).
Proof.
  intros [Ht1 Hn1] [Ht2 Hn2].
  assert (Hs : truthy (rowOf p) = true).
  { apply truthy_trim, startsSolid_truthy_trim, rowOf_startsSolid.
    split; assumption. }
  assert (Hparse : parseCSVLine (rowOf p) = [fst p; snd p]).
  { unfold rowOf, parseCSVLine. rewrite parse_escaped.
    - simpl. rewrite <- (append_nil_r (escapeCSV (snd p))).
      rewrite parse_escaped; [|intros r'; discriminate].
      simpl. rewrite Ht1, Ht2. reflexivity.
    - intros r'. discriminate. }
  unfold seedLine. rewrite Hs, Hparse. cbn [negb nth_error present].
  assert (T1 : truthy (fst p) = true)
    by (destruct (fst p); [contradiction | reflexivity]).
  assert (T2 : truthy (snd p) = true)
    by (destruct (snd p); [contradiction | reflexivity]).
  rewrite T1, T2. unfold OldSystemPrompt.addNewWord.
  destruct (OldSystemPrompt.insert (fst p) (snd p) today (seed_db st))
    as [[]|db']; simpl; split; try reflexivity; lia.
Qed.

Lemma seed_fold_rows today pairs : forall st,
  Forall (fun p => trimmedField (fst p) /\ trimmedField (snd p)) pairs ->
  seed_db (fold_left (seedLine today) (map rowOf pairs) st)
  = addAll (map (fun p => (today, fst p, snd p)) pairs) (seed_db st)
  /\ addedWords (fold_left (seedLine today) (map rowOf pairs) st)
     + skippedWords (fold_left (seedLine today) (map rowOf pairs) st)
     = addedWords st + skippedWords st + List.length pairs.
Proof.
  induction pairs as [|p pairs IH]; intros st H; simpl.
  - split; [reflexivity | lia].
  - inversion H as [|x l [H1 H2] Hrest]; subst.
    destruct (seedLine_rowOf today st p H1 H2) as [Hdb Hcount].
    destruct (IH (seedLine today st (rowOf p)) Hrest) as [IH1 IH2].
    rewrite IH1, IH2, Hdb, Hcount. split; [reflexivity | lia].
Qed.

End Pipeline.

Lemma filter_keeps_all {X : Type} (p : X -> bool) (l : list X) :
  Forall (fun x => p x = true) l -> filter p l = l.
Proof.
  induction 1 as [|x l Hx _ IH]; simpl; [reflexivity|].
  rewrite Hx, IH. reflexivity.
Qed.

(** X22.  The two scripts fit together: when no kept card text contains
    a line feed, seeding from the CSV text that [extractToCSV] writes for
    some decks succeeds and builds exactly the table that one
    [addNewWord] per kept card, in order, builds from the empty table
    (the first card of a key wins), and every kept card is counted once,
    as added or as skipped. *)
Theorem X22_seed_of_extracted_csv :
  forall (today : string) (decks : list (option (list Scripts.Card))),
    Forall (fun p => Scripts.includes Scripts.lineFeed (fst p) = false
                     /\ Scripts.includes Scripts.lineFeed (snd p) = false)
           (deckPairs decks) ->
    exists st,
      Scripts.seedDatabaseFromCSV today (Scripts.extractToCSV decks) = Some st
      /\ Scripts.seed_db st
         = addAll (map (fun p => (today, fst p, snd p)) (deckPairs decks)) []
      /\ Scripts.addedWords st + Scripts.skippedWords st
         = List.length (deckPairs decks).
Proof.
  intros today decks Hlf.
  assert (Htr := deckPairs_trimmed decks).
  unfold Scripts.seedDatabaseFromCSV, Scripts.extractToCSV. cbv zeta.
  rewrite deckRows_pairs.
  rewrite splitLines_concat.
  - rewrite filter_keeps_all.
    + destruct (seed_fold_rows today (deckPairs decks)
                  (Scripts.mkSeedState [] 0 0) Htr) as [H1 H2].
      eexists. split; [reflexivity|]. split; [exact H1 | exact H2].
    + constructor; [reflexivity|].
      rewrite Forall_forall in *. intros row Hrow.
      apply in_map_iff in Hrow as (p & <- & Hp).
      apply startsSolid_truthy_trim, rowOf_startsSolid, (Htr p Hp).
  - constructor; [reflexivity|].
    rewrite Forall_forall in *. intros row Hrow.
    apply in_map_iff in Hrow as (p & <- & Hp).
    apply rowOf_no_lineFeed; apply (Hlf p Hp).
Qed.

Lemma X22_seed_of_extracted_csv_witness :
  exists st,
    Scripts.seedDatabaseFromCSV "2025-06-01"
      (Scripts.extractToCSV
         [Some [Scripts.mkCard (Some " to eat, to dine ") (Some "sik6 faan6");
                Scripts.mkCard (Some "cat") None;
                Scripts.mkCard (Some "cat") (Some "maau1")];
          None;
          Some [Scripts.mkCard (Some "cat") (Some "mau1")]]) = Some st
    /\ map english (Scripts.seed_db st) = ["to eat, to dine"; "cat"]
    /\ Scripts.addedWords st + Scripts.skippedWords st = 3.
Proof.
  destruct (X22_seed_of_extracted_csv "2025-06-01"
         [Some [Scripts.mkCard (Some " to eat, to dine ") (Some "sik6 faan6");
                Scripts.mkCard (Some "cat") None;
                Scripts.mkCard (Some "cat") (Some "maau1")];
          None;
          Some [Scripts.mkCard (Some "cat") (Some "mau1")]])
    as (st & E & Hdb & Hc).
  - repeat constructor.
  - exists st. split; [exact E|]. split; [rewrite Hdb; reflexivity | exact Hc].
Defined.

(** ** [normalizeWord] computes a normal form *)
Section NormalForm.

Lemma lower_char_idem (c : ascii) :
  Js.lower_char (Js.lower_char c) = Js.lower_char c.
Proof. destruct c as [[] [] [] [] [] [] [] []]; reflexivity. Qed.

Lemma lower_char_slash (c : ascii) :
  Ascii.eqb (Js.lower_char c) Js.slash = Ascii.eqb c Js.slash.
Proof. destruct c as [[] [] [] [] [] [] [] []]; reflexivity. Qed.

Lemma toLowerCase_idem (s : string) :
  Js.toLowerCase (Js.toLowerCase s) = Js.toLowerCase s.
Proof.
  induction s as [|c r IH]; simpl; [reflexivity|].
  rewrite lower_char_idem, IH. reflexivity.
Qed.

Lemma toLowerCase_append (s t : string) :
  Js.toLowerCase (s ++ t) = (Js.toLowerCase s ++ Js.toLowerCase t)%string.
Proof.
  induction s as [|c r IH]; simpl; [reflexivity | rewrite IH; reflexivity].
Qed.

Lemma toLowerCase_collapse (b : bool) (s : string) :
  Js.toLowerCase (Js.collapseSpaces_from b s)
  = Js.collapseSpaces_from b (Js.toLowerCase s).
Proof.
  revert b. induction s as [|c r IH]; intros b; simpl; [reflexivity|].
  rewrite is_space_lower_char.
  destruct (Js.is_space c); [destruct b|]; simpl; rewrite IH; reflexivity.
Qed.

Lemma toLowerCase_tighten (s : string) : forall b p,
  Js.toLowerCase (Js.tightenSlashes_from b p s)
  = Js.tightenSlashes_from b (Js.toLowerCase p) (Js.toLowerCase s).
Proof.
  induction s as [|c r IH]; intros b p; simpl; [reflexivity|].
  rewrite is_space_lower_char, lower_char_slash.
  destruct (Js.is_space c).
  - destruct b; rewrite IH; [reflexivity|].
    rewrite toLowerCase_append. reflexivity.
  - destruct (Ascii.eqb c Js.slash); simpl.
    + rewrite IH. reflexivity.
    + rewrite toLowerCase_append. simpl. rewrite IH. reflexivity.
Qed.

(** *** collapsed text *)

Lemma collapsed_weaken (s : string) :
  collapsed true s = true -> collapsed false s = true.
Proof.
  destruct s as [|c r]; simpl; [reflexivity|].
  destruct (Js.is_space c); [discriminate | auto].
Qed.

Lemma collapse_collapsed (s : string) : forall b,
  collapsed b (Js.collapseSpaces_from b s) = true.
Proof.
  induction s as [|c r IH]; intros b; simpl; [reflexivity|].
  destruct (Js.is_space c) eqn:E.
  - destruct b; [apply IH|]. simpl. rewrite (IH true). reflexivity.
  - simpl. rewrite E. apply IH.
Qed.

Lemma collapsed_fixed (s : string) : forall b,
  collapsed b s = true -> Js.collapseSpaces_from b s = s.
Proof.
  induction s as [|c r IH]; intros b; simpl; [reflexivity|].
  destruct (Js.is_space c).
  - destruct b; simpl; [discriminate|]. intros H.
    apply andb_true_iff in H as [Hc Hr].
    apply Ascii.eqb_eq in Hc. subst c. rewrite (IH true Hr). reflexivity.
  - intros H. rewrite (IH false H). reflexivity.
Qed.

Lemma collapsed_trimStart (s : string) :
  collapsed false s = true -> collapsed false (Js.trimStart s) = true.
Proof.
  destruct s as [|c r]; simpl; [reflexivity|].
  destruct (Js.is_space c) eqn:E.
  - simpl. intros H. apply andb_true_iff in H as [_ H].
    destruct r as [|c' r']; simpl in *; [reflexivity|].
    destruct (Js.is_space c') eqn:E'; [discriminate|].
    simpl. rewrite E'. exact H.
  - intros H. simpl. rewrite E. exact H.
Qed.

Lemma collapsed_trimEnd (s : string) : forall b,
  collapsed b s = true -> collapsed b (Js.trimEnd s) = true.
Proof.
  induction s as [|c r IH]; intros b; simpl; [reflexivity|].
  destruct (Js.is_space c) eqn:E.
  - intros H. apply andb_true_iff in H as [Hc Hr].
    specialize (IH true Hr).
    destruct (Js.trimEnd r) as [|c' t]; [reflexivity|].
    cbn [collapsed]. rewrite E, Hc. exact IH.
  - intros H. specialize (IH false H).
    destruct (Js.trimEnd r) as [|c' t]; cbn [collapsed]; rewrite E;
      [reflexivity | exact IH].
Qed.

(** *** tight text *)

Lemma allSpace_nil : allSpace EmptyString.
Proof. intros c []. Qed.

Lemma allSpace_snoc (p : string) (c : ascii) :
  allSpace p -> Js.is_space c = true ->
  allSpace (p ++ String c EmptyString).
Proof.
  intros Hp Hc. induction p as [|x r IH]; simpl.
  - intros y [<- | []]. exact Hc.
  - intros y [<- | Hy]; [apply Hp; left; reflexivity|].
    apply IH; [|exact Hy]. intros z Hz. apply Hp. right. exact Hz.
Qed.

Lemma tight_weaken (s : string) :
  tight PrevSpace s = true -> tight PrevOther s = true.
Proof.
  destruct s as [|c r]; simpl; [reflexivity|].
  destruct (Js.is_space c); [auto|].
  destruct (Ascii.eqb c Js.slash); [discriminate | auto].
Qed.

(** Pending white space followed by an ordinary character. *)
Lemma tight_pending_char (p : string) : forall prev c rest,
  allSpace p -> prev <> PrevSlash ->
  Js.is_space c = false -> Ascii.eqb c Js.slash = false ->
  tight prev (p ++ String c rest) = tight PrevOther rest.
Proof.
  induction p as [|x r IH]; intros prev c rest Hp Hprev Hc Hs.
  - simpl. rewrite Hc, Hs. reflexivity.
  - change (String x r ++ String c rest)%string
      with (String x (r ++ String c rest)%string).
    cbn [tight]. rewrite (Hp x (or_introl eq_refl)).
    assert (H : tight PrevSpace (r ++ String c rest) = tight PrevOther rest).
    { apply IH; auto; [|discriminate].
      intros z Hz. apply Hp. right. exact Hz. }
    destruct prev; [exact H | contradiction | exact H].
Qed.

Lemma tight_pending_end (p : string) : forall prev,
  allSpace p -> prev <> PrevSlash -> tight prev p = true.
Proof.
  induction p as [|x r IH]; intros prev Hp Hprev; [reflexivity|].
  cbn [tight]. rewrite (Hp x (or_introl eq_refl)).
  assert (H : tight PrevSpace r = true).
  { apply IH; [|discriminate]. intros z Hz. apply Hp. right. exact Hz. }
  destruct prev; [exact H | contradiction | exact H].
Qed.

(** What [tightenSlashes] writes is tight. *)
Lemma tighten_tight (s : string) : forall p,
  allSpace p ->
  tight PrevSlash (Js.tightenSlashes_from true EmptyString s) = true
  /\ tight PrevOther (Js.tightenSlashes_from false p s) = true.
Proof.
  induction s as [|c r IH]; intros p Hp.
  - simpl. split; [reflexivity|]. apply tight_pending_end;
      [exact Hp | discriminate].
  - cbn [Js.tightenSlashes_from]. destruct (Js.is_space c) eqn:E.
    + split; [apply (IH EmptyString allSpace_nil)|].
      apply (IH _ (allSpace_snoc p c Hp E)).
    + destruct (Ascii.eqb c Js.slash) eqn:Es.
      * apply Ascii.eqb_eq in Es. subst c.
        cbn [tight]. rewrite E, Ascii.eqb_refl.
        split; apply (IH EmptyString allSpace_nil).
      * split.
        -- simpl. rewrite E, Es. apply (IH EmptyString allSpace_nil).
        -- rewrite (tight_pending_char p PrevOther c _ Hp); auto;
             [|discriminate].
           apply (IH EmptyString allSpace_nil).
Qed.

(** [tightenSlashes] changes nothing in tight text. *)
Lemma tight_fixed (s : string) :
  (tight PrevSlash s = true ->
   Js.tightenSlashes_from true EmptyString s = s)
  /\ (forall p, tight (prevOf p) s = true ->
        Js.tightenSlashes_from false p s = (p ++ s)%string).
Proof.
  induction s as [|c r [IH1 IH2]].
  - split; [reflexivity|]. intros p _. simpl. rewrite append_nil_r.
    reflexivity.
  - cbn [tight Js.tightenSlashes_from].
    destruct (Js.is_space c) eqn:E.
    + split; [discriminate|]. intros p H.
      assert (H' : tight (prevOf (p ++ String c EmptyString)) r = true).
      { destruct p; simpl in *; exact H. }
      rewrite (IH2 _ H'), append_assoc. reflexivity.
    + destruct (Ascii.eqb c Js.slash) eqn:Es.
      * apply Ascii.eqb_eq in Es. subst c. split.
        -- intros H. rewrite (IH1 H). reflexivity.
        -- intros p H. destruct p; simpl in H; [|discriminate].
           rewrite (IH1 H). reflexivity.
      * split.
        -- intros H.
           rewrite (IH2 EmptyString H). reflexivity.
        -- intros p H.
           assert (H' : tight (prevOf EmptyString) r = true)
             by (destruct p; exact H).
           rewrite (IH2 EmptyString H'). reflexivity.
Qed.

Lemma tight_collapse (s : string) : forall prev,
  tight prev s = true ->
  tight prev (Js.collapseSpaces_from (inRun prev) s) = true.
Proof.
  induction s as [|c r IH]; intros prev; [reflexivity|].
  cbn [tight Js.collapseSpaces_from].
  destruct (Js.is_space c) eqn:E.
  - destruct prev; simpl; try discriminate; intros H.
    + apply (IH PrevSpace H).
    + apply (IH PrevSpace H).
  - destruct (Ascii.eqb c Js.slash) eqn:Es.
    + destruct prev; try discriminate; intros H; cbn [tight];
        rewrite E, Es; apply (IH PrevSlash H).
    + intros H. cbn [tight]. rewrite E, Es. apply (IH PrevOther H).
Qed.

Lemma tight_trimStart (s : string) :
  tight PrevOther s = true -> tight PrevOther (Js.trimStart s) = true.
Proof.
  induction s as [|c r IH]; [reflexivity|].
  cbn [tight Js.trimStart]. destruct (Js.is_space c) eqn:E.
  - intros H. apply IH, tight_weaken, H.
  - intros H. cbn [tight]. rewrite E. exact H.
Qed.

Lemma tight_trimEnd (s : string) : forall prev,
  tight prev s = true -> tight prev (Js.trimEnd s) = true.
Proof.
  induction s as [|c r IH]; intros prev; [reflexivity|].
  cbn [tight Js.trimEnd]. destruct (Js.is_space c) eqn:E.
  - destruct prev; try discriminate; intros H;
      specialize (IH PrevSpace H);
      (destruct (Js.trimEnd r) as [|c' t]; [reflexivity|]);
      cbn [tight]; rewrite E; exact IH.
  - destruct (Ascii.eqb c Js.slash) eqn:Es.
    + destruct prev; try discriminate; intros H;
        specialize (IH PrevSlash H);
        (destruct (Js.trimEnd r) as [|c' t]; cbn [tight]; rewrite E, Es;
         [reflexivity | exact IH]).
    + intros H. specialize (IH PrevOther H).
      destruct (Js.trimEnd r) as [|c' t]; cbn [tight]; rewrite E, Es;
        [reflexivity | exact IH].
Qed.

Lemma normalizeWord_pipeline (s : string) :
  ToolUtils.normalizeWord s
  = Js.trim (Js.collapseSpaces (Js.tightenSlashes
               (Js.toLowerCase (Js.trim s)))).
Proof. destruct s; reflexivity. Qed.

End NormalForm.

(** X23.  [normalizeWord] computes a normal form: normalizing a
    normalized text changes nothing.  The result is in lower case, has no
    white space at its ends or next to a slash, and has white space only
    as single blanks. *)
Theorem X23_normalizeWord_is_idempotent :
  forall (s : string),
    ToolUtils.normalizeWord (ToolUtils.normalizeWord s)
    = ToolUtils.normalizeWord s
    /\ Js.toLowerCase (ToolUtils.normalizeWord s) = ToolUtils.normalizeWord s
    /\ Js.trim (ToolUtils.normalizeWord s) = ToolUtils.normalizeWord s
    /\ tight PrevOther (ToolUtils.normalizeWord s) = true
    /\ collapsed false (ToolUtils.normalizeWord s) = true.
Proof.
  intros s.
  set (u := Js.toLowerCase (Js.trim s)).
  assert (Hv : ToolUtils.normalizeWord s
               = Js.trim (Js.collapseSpaces (Js.tightenSlashes u)))
    by apply normalizeWord_pipeline.
  assert (Ht : Js.trim (ToolUtils.normalizeWord s) = ToolUtils.normalizeWord s)
    by (rewrite Hv; apply trim_idem).
  assert (Hl : Js.toLowerCase (ToolUtils.normalizeWord s)
               = ToolUtils.normalizeWord s).
  { rewrite Hv, toLowerCase_trim. unfold Js.collapseSpaces, Js.tightenSlashes.
    rewrite toLowerCase_collapse, toLowerCase_tighten. simpl.
    unfold u. rewrite toLowerCase_idem. reflexivity. }
  assert (Hti : tight PrevOther (ToolUtils.normalizeWord s) = true).
  { rewrite Hv. unfold Js.trim. apply tight_trimEnd, tight_trimStart.
    apply (tight_collapse _ PrevOther).
    apply (tighten_tight u EmptyString allSpace_nil). }
  assert (Hc : collapsed false (ToolUtils.normalizeWord s) = true).
  { rewrite Hv. unfold Js.trim. apply collapsed_trimEnd, collapsed_trimStart.
    apply collapse_collapsed. }
  split; [|auto].
  rewrite (normalizeWord_pipeline (ToolUtils.normalizeWord s)).
  rewrite Ht, Hl. unfold Js.tightenSlashes, Js.collapseSpaces.
  rewrite (proj2 (tight_fixed _) EmptyString Hti). simpl.
  rewrite (collapsed_fixed _ false Hc). exact Ht.
Qed.
